(** * dq_ai: the audit engine of [run_audit.py] and the enrichment stage of [app.py]

    A shallow embedding of the data-quality audit engine: the finding
    data model, the seven check functions, the scorer, and the enrichment
    step of the Dash callback [run].

    Modelling conventions.
    - Python [float] values are modelled by exact rationals ([Q]); equality
      of numeric results is [Qeq] ([==]).  Binary rounding error is not
      modelled: every theorem is about the formulas the code evaluates.
    - A pandas [DataFrame] is a list of typed columns over a shared
      [RangeIndex] (what [read_csv] / [read_excel] produce); the dtypes
      covered are int64, float64, object, datetime64[ns] and category.
    - A Python [str] is modelled by its UTF-8 encoding, a byte string;
      comparison, prefix, search and splitting at a colon act on the
      bytes, and [strip] removes the white space of [str.isspace].
    - Python dicts are insertion-ordered association lists.  Every check
      builds its findings from fresh lists and dicts, so the in-place
      assignments of the enrichment are modelled by functional update of
      the finding they reach.
    - Column names are distinct, as the loaders produce them ([read_csv]
      renames repeated headers): a loop over [df.columns] that reads
      [df[c]] is a loop over the columns.
    - Library behaviour that depends on parsing text (regular expressions,
      [pd.to_datetime], [pd.to_numeric] on strings, [is_string_dtype]) is
      taken as a parameter of the engine. *)

From Stdlib Require Import ZArith QArith Qround Qminmax Qabs.
From Stdlib Require Import List String Ascii Bool Lia Lqa DecimalString.
From Stdlib Require Import Permutation Sorted.
Import ListNotations.

Set Warnings "-register-all".

Local Open Scope Q_scope.

(** ** Numbers *)

Module Num.

(** Round half to even, as Python's [round] does. *)
Definition round_half_even (x : Q) : Z :=
  let f := Qfloor x in
  match Qcompare (x - inject_Z f) (1 # 2) with
  | Lt => f
  | Gt => (f + 1)%Z
  | Eq => if Z.even f then f else (f + 1)%Z
  end.

Definition pow10 (n : nat) : Q := inject_Z (10 ^ Z.of_nat n).

(** [round(x, ndigits)] *)
Definition py_round (x : Q) (ndigits : nat) : Q :=
  inject_Z (round_half_even (x * pow10 ndigits)) / pow10 ndigits.

(** [max(a, b)] and [min(a, b)] of Python: the first argument wins a tie. *)
Definition py_max (a b : Q) : Q := if Qlt_le_dec a b then b else a.
Definition py_min (a b : Q) : Q := if Qlt_le_dec b a then b else a.

(** The spec's [clamp(x, lo, hi)]. *)
Definition clamp (x lo hi : Q) : Q :=
  if Qlt_le_dec x lo then lo else if Qlt_le_dec hi x then hi else x.

(** The spec's [normalize(x, cap) = clamp(x / cap, 0, 1)]. *)
Definition normalize (x cap : Q) : Q := clamp (x / cap) 0 1.

End Num.

Import Num.

(** ** Python values and dicts *)

Inductive pyval : Type :=
| PNone
| PBool (b : bool)
| PInt (z : Z)
| PFloat (q : Q)
| PStr (s : string)
| PList (l : list pyval)
| PDict (d : list (string * pyval)).

Definition pydict : Type := list (string * pyval).

Module Dict.

Fixpoint get {V} (k : string) (d : list (string * V)) : option V :=
  match d with
  | [] => None
  | (k', v) :: rest => if String.eqb k k' then Some v else get k rest
  end.

(** [d[k] = v]: an existing key keeps its position, a new key goes last. *)
Fixpoint set {V} (k : string) (v : V) (d : list (string * V)) : list (string * V) :=
  match d with
  | [] => [(k, v)]
  | (k', v') :: rest =>
      if String.eqb k k' then (k', v) :: rest else (k', v') :: set k v rest
  end.

Definition keys {V} (d : list (string * V)) : list string := map fst d.

(** A dict built from a sequence of pairs, as [dict(pairs)] or a comprehension. *)
Definition of_pairs {V} (l : list (string * V)) : list (string * V) :=
  fold_left (fun d kv => set (fst kv) (snd kv) d) l [].

End Dict.

(** ** Findings *)

(** [@dataclass CheckResult] *)
Record CheckResult : Type := mkCheckResult {
  name : string;
  severity : string;
  issues : list pydict;
  impact : Q
}.

Definition SEVERITY_WEIGHTS : list (string * Z) :=
  [("critical"%string, 3%Z); ("major"%string, 2%Z); ("minor"%string, 1%Z)].

(** [SEVERITY_WEIGHTS.get(sev, default)] *)
Definition weights_get (sev : string) (default : Z) : Z :=
  match Dict.get sev SEVERITY_WEIGHTS with Some w => w | None => default end.

(** [norm(x, cap)].  Every call site passes a cap of at least 10. *)
Definition norm (x cap : Q) : Q := py_max 0 (py_min 1 (x / cap)).

(** ** Scorer *)

(** One iteration of the loop of [compute_score]. *)
Definition penalty_term (r : CheckResult) : Q :=
  inject_Z (weights_get (severity r) 1) * impact r * 10.

Definition penalty_of (results : list CheckResult) : Q :=
  fold_left (fun penalty r => penalty + penalty_term r) results 0.

Definition compute_score (results : list CheckResult) : Q :=
  let penalty := penalty_of results in
  let score := py_max 0 (100 - penalty) in
  py_round score 1.

(** *** The scorer as the specification words it *)

Inductive Severity : Type := critical | major | minor.

Definition severity_str (s : Severity) : string :=
  match s with
  | critical => "critical"
  | major => "major"
  | minor => "minor"
  end.

Definition severity_weight (s : Severity) : Q :=
  match s with critical => 3 | major => 2 | minor => 1 end.

(** A finding of the data model: the severity is one of the three levels. *)
Record Finding : Type := mkFinding {
  f_name : string;
  f_severity : Severity;
  f_issues : list pydict;
  f_impact : Q
}.

Definition to_result (f : Finding) : CheckResult :=
  mkCheckResult (f_name f) (severity_str (f_severity f)) (f_issues f) (f_impact f).

Fixpoint spec_penalty (fs : list Finding) : Q :=
  match fs with
  | [] => 0
  | f :: rest => severity_weight (f_severity f) * f_impact f * 10 + spec_penalty rest
  end.

Definition spec_score (fs : list Finding) : Q :=
  py_round (clamp (100 - spec_penalty fs) 0 100) 1.

(** ** Errors *)

Inductive exn : Type := KeyError | TypeError | IndexError.

Inductive result (A : Type) : Type :=
| Ok (a : A)
| Err (e : exn).

Arguments Ok {A} a.
Arguments Err {A} e.

Definition bind {A B} (m : result A) (k : A -> result B) : result B :=
  match m with Ok a => k a | Err e => Err e end.

Notation "x <- m ;; k" := (bind m (fun x => k))
  (at level 61, m at next level, right associativity).

(** ** Strings *)

Module Str.

Local Open Scope string_scope.

Definition lower_ascii (c : ascii) : ascii :=
  let n := nat_of_ascii c in
  if (65 <=? n)%nat && (n <=? 90)%nat then ascii_of_nat (n + 32) else c.

(** [s.lower()] on the ASCII letters; other bytes are kept. *)
Fixpoint lower (s : string) : string :=
  match s with
  | EmptyString => EmptyString
  | String c rest => String (lower_ascii c) (lower rest)
  end.

(** [sub in s] *)
Fixpoint contains (sub s : string) : bool :=
  prefix sub s ||
  match s with
  | EmptyString => false
  | String _ rest => contains sub rest
  end.

(** [s.startswith(p)] *)
Definition startswith (s p : string) : bool := prefix p s.

(** A string holds the UTF-8 encoding of the Python [str].  White space
    is what [str.isspace] accepts: the one-byte characters U+0009..U+000D,
    U+001C..U+001F and U+0020, the two-byte U+0085 and U+00A0, and the
    three-byte U+1680, U+2000..U+200A, U+2028, U+2029, U+202F, U+205F and
    U+3000. *)
Definition is_space (c : ascii) : bool :=
  let n := nat_of_ascii c in
  (n =? 32)%nat || ((9 <=? n)%nat && (n <=? 13)%nat)
  || ((28 <=? n)%nat && (n <=? 31)%nat).

(** U+0085 is [C2 85], U+00A0 is [C2 A0]. *)
Definition is_space2 (a b : ascii) : bool :=
  (nat_of_ascii a =? 194)%nat &&
  ((nat_of_ascii b =? 133)%nat || (nat_of_ascii b =? 160)%nat).

(** U+1680 is [E1 9A 80]; U+2000..U+200A are [E2 80 80] .. [E2 80 8A];
    U+2028, U+2029 and U+202F are [E2 80 A8], [E2 80 A9] and [E2 80 AF];
    U+205F is [E2 81 9F]; U+3000 is [E3 80 80]. *)
Definition is_space3 (a b c : ascii) : bool :=
  let x := nat_of_ascii a in
  let y := nat_of_ascii b in
  let z := nat_of_ascii c in
  ((x =? 225)%nat && (y =? 154)%nat && (z =? 128)%nat)
  || ((x =? 226)%nat && (y =? 128)%nat &&
      (((128 <=? z)%nat && (z <=? 138)%nat)
       || (z =? 168)%nat || (z =? 169)%nat || (z =? 175)%nat))
  || ((x =? 226)%nat && (y =? 129)%nat && (z =? 159)%nat)
  || ((x =? 227)%nat && (y =? 128)%nat && (z =? 128)%nat).

(** [s.lstrip()] *)
Fixpoint lstrip (s : string) : string :=
  match s with
  | EmptyString => EmptyString
  | String a r1 =>
      if is_space a then lstrip r1 else
      match r1 with
      | EmptyString => s
      | String b r2 =>
          if is_space2 a b then lstrip r2 else
          match r2 with
          | EmptyString => s
          | String c r3 => if is_space3 a b c then lstrip r3 else s
          end
      end
  end.

(** [lstrip] on a string read backwards: the bytes of a character come
    last byte first. *)
Fixpoint lstrip_backwards (s : string) : string :=
  match s with
  | EmptyString => EmptyString
  | String a r1 =>
      if is_space a then lstrip_backwards r1 else
      match r1 with
      | EmptyString => s
      | String b r2 =>
          if is_space2 b a then lstrip_backwards r2 else
          match r2 with
          | EmptyString => s
          | String c r3 => if is_space3 c b a then lstrip_backwards r3 else s
          end
      end
  end.

Fixpoint rev_string (s acc : string) : string :=
  match s with
  | EmptyString => acc
  | String c rest => rev_string rest (String c acc)
  end.

(** [s.strip()] *)
Definition strip (s : string) : string :=
  rev_string (lstrip_backwards (rev_string (lstrip s) EmptyString)) EmptyString.

(** [s.split(":", 1)[1]]: what follows the first colon; [IndexError]
    when there is none. *)
Fixpoint after_colon (s : string) : result string :=
  match s with
  | EmptyString => Err IndexError
  | String c rest => if Ascii.eqb c ":" then Ok rest else after_colon rest
  end.

Definition of_Z (z : Z) : string := NilZero.string_of_int (Z.to_int z).

Fixpoint repeat0 (n : nat) : string :=
  match n with O => EmptyString | S k => String "0" (repeat0 k) end.

(** [f"{q:.3f}"] *)
Definition format_3f (q : Q) : string :=
  let r := round_half_even (Qabs q * 1000) in
  let ip := (r / 1000)%Z in
  let fp := of_Z (r mod 1000) in
  (if Qlt_le_dec q 0 then "-" else "") ++
  of_Z ip ++ "." ++ repeat0 (3 - String.length fp) ++ fp.

End Str.

(** ** Data frames *)

(** The dtypes of the columns the model covers.  A [bool] column is not
    among them: on such a column of ten or more values the quartile
    computation of [check_outliers_iqr] raises [TypeError], so what is
    proved about a returned audit says nothing of a frame that holds one. *)
Inductive dtype : Type := Int64 | Float64 | Object | Datetime64 | Category.

(** [str(dtype)] *)
Definition dtype_str (d : dtype) : string :=
  match d with
  | Int64 => "int64"
  | Float64 => "float64"
  | Object => "object"
  | Datetime64 => "datetime64[ns]"
  | Category => "category"
  end.

Definition is_numeric_dtype (d : dtype) : bool :=
  match d with Int64 | Float64 => true | _ => false end.

Definition is_datetime64_any_dtype (d : dtype) : bool :=
  match d with Datetime64 => true | _ => false end.

(** A cell: [NA] stands for [NaN], [None] and [NaT]. *)
Inductive cell : Type :=
| NA
| VInt (z : Z)
| VFloat (q : Q)
| VStr (s : string)
| VTime (t : Z).

Definition isna (c : cell) : bool :=
  match c with NA => true | _ => false end.

(** Equality of cells as hashing sees it: missing values are equal to each
    other, an integer equals the float of the same value. *)
Definition cell_eqb (a b : cell) : bool :=
  match a, b with
  | NA, NA => true
  | VInt x, VInt y => Z.eqb x y
  | VFloat x, VFloat y => Qeq_bool x y
  | VInt x, VFloat y => Qeq_bool (inject_Z x) y
  | VFloat x, VInt y => Qeq_bool x (inject_Z y)
  | VStr x, VStr y => String.eqb x y
  | VTime x, VTime y => Z.eqb x y
  | _, _ => false
  end.

Fixpoint row_eqb (r1 r2 : list cell) : bool :=
  match r1, r2 with
  | [], [] => true
  | a :: r1', b :: r2' => cell_eqb a b && row_eqb r1' r2'
  | _, _ => false
  end.

Definition cell_to_py (c : cell) : pyval :=
  match c with
  | NA => PNone
  | VInt z => PInt z
  | VFloat q => PFloat q
  | VStr s => PStr s
  | VTime t => PInt t
  end.

Record Series : Type := mkSeries {
  s_name : string;
  s_dtype : dtype;
  s_values : list cell
}.

(** A frame is its columns, in order; the index is [0 .. len-1]. *)
Definition DataFrame : Type := list Series.

(** [len(df)] *)
Definition df_len (df : DataFrame) : nat :=
  match df with
  | [] => O
  | c :: _ => List.length (s_values c)
  end.

(** [df.columns] *)
Definition df_columns (df : DataFrame) : list string := map s_name df.

(** [df[c]] *)
Fixpoint df_get (df : DataFrame) (c : string) : result Series :=
  match df with
  | [] => Err KeyError
  | col :: rest => if String.eqb c (s_name col) then Ok col else df_get rest c
  end.

(** [c in df.columns] *)
Definition has_column (df : DataFrame) (c : string) : bool :=
  existsb (String.eqb c) (df_columns df).

(** The row at position [i], restricted to the given columns. *)
Definition row_of (cols : list Series) (i : nat) : list cell :=
  map (fun c => nth i (s_values c) NA) cols.

Definition rows_of (df : DataFrame) (cols : list Series) : list (list cell) :=
  map (row_of cols) (seq 0 (df_len df)).

Definition count_true (m : list bool) : nat :=
  List.length (filter (fun b => b) m).

(** Positions at which a boolean mask holds: the index of [df[mask]]. *)
Definition mask_index (m : list bool) : list nat :=
  filter (fun i => nth i m false) (seq 0 (List.length m)).

Section Duplicated.

Context {A : Type} (eqb : A -> A -> bool) (d : A).

(** [duplicated(keep="first")]: a scan that marks a value already seen. *)
Fixpoint duplicated_scan (seen l : list A) : list bool :=
  match l with
  | [] => []
  | x :: rest => existsb (eqb x) seen :: duplicated_scan (x :: seen) rest
  end.

Definition duplicated_first (l : list A) : list bool := duplicated_scan [] l.

(** Position [i] holds a value equal to that of an earlier position. *)
Definition dup_first_at (l : list A) (i : nat) : bool :=
  existsb (fun j => eqb (nth i l d) (nth j l d)) (seq 0 i).

Definition occurrences (x : A) (l : list A) : nat :=
  List.length (filter (eqb x) l).

(** [duplicated(keep=False)]: every member of a group of two or more. *)
Definition duplicated_all (l : list A) : list bool :=
  map (fun x => (2 <=? occurrences x l)%nat) l.

(** The count the specification describes: positions whose value is
    equal to that of at least one other position. *)
Definition shares_with_other (l : list A) (i : nat) : bool :=
  existsb (fun j => negb (Nat.eqb j i) && eqb (nth i l d) (nth j l d))
          (seq 0 (List.length l)).

Definition spec_shared_count (l : list A) : nat :=
  List.length (filter (shares_with_other l) (seq 0 (List.length l))).

(** The count of positions whose value is equal to that of an earlier one. *)
Definition earlier_count (l : list A) : nat :=
  List.length (filter (dup_first_at l) (seq 0 (List.length l))).

End Duplicated.

(** ** Small utilities *)

Definition Qnat (n : nat) : Q := inject_Z (Z.of_nat n).

Definition PNat (n : nat) : pyval := PInt (Z.of_nat n).

Definition nonempty {A} (l : list A) : bool :=
  match l with [] => false | _ => true end.

Fixpoint insert_by {A} (leb : A -> A -> bool) (x : A) (l : list A) : list A :=
  match l with
  | [] => [x]
  | y :: rest => if leb x y then x :: l else y :: insert_by leb x rest
  end.

(** A stable sort. *)
Definition sort_by {A} (leb : A -> A -> bool) (l : list A) : list A :=
  fold_right (insert_by leb) [] l.

Fixpoint mapM {A B} (f : A -> result B) (l : list A) : result (list B) :=
  match l with
  | [] => Ok []
  | x :: rest => y <- f x ;; ys <- mapM f rest ;; Ok (y :: ys)
  end.

(** [df[mask]]: the elements at the positions the mask selects. *)
Definition select_mask {A} (m : list bool) (l : list A) : list A :=
  map snd (filter fst (combine m l)).

(** Mean of a boolean series. *)
Definition mean_bool (m : list bool) : Q :=
  Qnat (count_true m) / Qnat (List.length m).

(** ** Quartiles *)

(** [np.percentile(s, q)] with the default (linear) interpolation: the
    virtual index [(n-1) * q/100] is split into its floor and its
    fractional part, and the two neighbours are interpolated. *)
Definition percentile (s : list Q) (q : Q) : Q :=
  let a := sort_by Qle_bool s in
  let n := List.length a in
  let vi := Qnat (n - 1) * (q / 100) in
  let prev := Z.to_nat (Qfloor vi) in
  let next := Nat.min (prev + 1) (n - 1) in
  let gamma := vi - Qnat prev in
  nth prev a 0 + gamma * (nth next a 0 - nth prev a 0).

Definition EPS : Q := 1 # 1000000000.

(** The bounds [(lo, hi)] of the IQR rule for a sample. *)
Definition iqr_of (s : list Q) : Q :=
  py_max (percentile s 75 - percentile s 25) EPS.

Definition iqr_bounds (s : list Q) : Q * Q :=
  let q1 := percentile s 25 in
  let q3 := percentile s 75 in
  let iqr := py_max (q3 - q1) EPS in
  (q1 - (3 # 2) * iqr, q3 + (3 # 2) * iqr).

Definition Qltb (a b : Q) : bool := if Qlt_le_dec a b then true else false.

(** [(x < lo) | (x > hi)] *)
Definition outside (lo hi x : Q) : bool := Qltb x lo || Qltb hi x.

(** ** Baseline *)

(** The baseline JSON object [{columns, dtypes, primary_key?}]; a field is
    [None] when its key is absent.  The record covers the objects of this
    shape: an object that holds other keys only is not one of them. *)
Record Baseline : Type := mkBaseline {
  b_columns : option (list string);
  b_dtypes : option (list (string * string));
  b_primary_key : option (list string)
}.

Definition is_some {A} (o : option A) : bool :=
  match o with Some _ => true | None => false end.

Definition get_or {A} (o : option A) (default : A) : A :=
  match o with Some a => a | None => default end.

(** Truth value of [baseline]: [None] and the empty object are false. *)
Definition truthy (baseline : option Baseline) : bool :=
  match baseline with
  | None => false
  | Some b => is_some (b_columns b) || is_some (b_dtypes b) || is_some (b_primary_key b)
  end.

(** [set(l)], kept in a fixed order. *)
Definition py_set (l : list string) : list string := nodup string_dec l.

(** [a - b] on sets. *)
Definition set_diff (a b : list string) : list string :=
  filter (fun x => negb (existsb (String.eqb x) b)) a.

(** ** The invariant of an emitted finding *)

Definition finding_ok (r : CheckResult) : Prop :=
  issues r <> [] /\ 0 <= impact r <= 1.

(** ** The check functions *)

Local Open Scope string_scope.

Definition check_schema (df : DataFrame) (baseline : option Baseline) : list CheckResult :=
  let issues := [] in
  if negb (truthy baseline) then issues else
  let b := get_or baseline (mkBaseline None None None) in
  let expected_cols := py_set (get_or (b_columns b) []) in
  let actual_cols := py_set (df_columns df) in
  let missing := set_diff expected_cols actual_cols in
  let new := set_diff actual_cols expected_cols in
  let issues :=
    if nonempty missing
    then (issues ++ [mkCheckResult "Missing Columns" "critical"
                      [[("missing", PList (map PStr missing))]]
                      (norm (Qnat (List.length missing)) 10)])%list
    else issues in
  let issues :=
    if nonempty new
    then (issues ++ [mkCheckResult "Unexpected Columns" "major"
                      [[("new", PList (map PStr new))]]
                      (norm (Qnat (List.length new)) 10)])%list
    else issues in
  let exp_types := get_or (b_dtypes b) [] in
  let drift :=
    flat_map (fun '(c, exp) =>
      if has_column df c then
        match df_get df c with
        | Ok col =>
            let act := dtype_str (s_dtype col) in
            if negb (String.eqb act exp)
            then [[("column", PStr c); ("expected", PStr exp); ("actual", PStr act)]]
            else []
        | Err _ => []
        end
      else []) exp_types in
  if nonempty drift
  then (issues ++ [mkCheckResult "Dtype Drift" "major" drift
                    (norm (Qnat (List.length drift)) 15)])%list
  else issues.

(** The key of every row over the columns [pk], as [df.duplicated(subset=pk)]
    reads it: on an empty frame [duplicated] returns before it looks at
    [subset]; otherwise it raises [KeyError] when one of the names is not
    a column of the frame. *)
Definition subset_rows (df : DataFrame) (pk : list string) : result (list (list cell)) :=
  if (df_len df =? 0)%nat then Ok [] else
  cols <- mapM (df_get df) pk ;;
  Ok (rows_of df cols).

(** One record of [to_dict(orient="records")]. *)
Definition record_of (names : list string) (row : list cell) : pyval :=
  PDict (Dict.of_pairs (combine names (map cell_to_py row))).

Definition check_primary_key (df : DataFrame) (pk : list string) : result (list CheckResult) :=
  if negb (nonempty pk) then Ok [] else
  keys <- subset_rows df pk ;;
  let dupes := count_true (duplicated_first row_eqb keys) in
  if (0 <? dupes)%nat then
    let ex := map (record_of pk)
                  (firstn 5 (select_mask (duplicated_all row_eqb keys) keys)) in
    Ok [mkCheckResult "Primary Key Uniqueness" "critical"
          [[("duplicates", PNat dupes); ("examples", PList ex)]]
          (norm (Qnat dupes) (py_max 10 (Qnat (df_len df) * (2 # 100))))]
  else Ok [].

Definition sum_nat (l : list nat) : nat := fold_right Nat.add O l.

(** [df.duplicated()] over all columns. *)
Definition all_rows (df : DataFrame) : list (list cell) := rows_of df df.

(** The list [dtypes_issue] that the source builds and then drops is left out. *)
Definition check_missing_duplicates_types (df : DataFrame) : list CheckResult :=
  let issues := [] in
  let miss := map (fun c => (s_name c, count_true (map isna (s_values c)))) df in
  let miss := filter (fun cv => (0 <? snd cv)%nat) miss in
  let issues :=
    if (0 <? List.length miss)%nat
    then (issues ++ [mkCheckResult "Missing Values" "major"
                      (map (fun '(c, v) => [("column", PStr c); ("missing", PNat v)])
                           (Dict.of_pairs miss))
                      (norm (Qnat (sum_nat (map snd miss)))
                            (py_max 10 (Qnat (df_len df) * (5 # 100))))])%list
    else issues in
  let dups := count_true (duplicated_first row_eqb (all_rows df)) in
  if (0 <? dups)%nat
  then (issues ++ [mkCheckResult "Duplicate Rows" "major"
                    [[("duplicates", PNat dups)]]
                    (norm (Qnat dups) (py_max 10 (Qnat (df_len df) * (3 # 100))))])%list
  else issues.

Fixpoint filter_map {A B} (f : A -> option B) (l : list A) : list B :=
  match l with
  | [] => []
  | x :: rest =>
      match f x with
      | Some y => y :: filter_map f rest
      | None => filter_map f rest
      end
  end.

Section Engine.

(** *** What the libraries decide *)

(** [is_string_dtype(series)] *)
Variable is_string_dtype : Series -> bool.
(** [pd.to_numeric] of one string under [errors="coerce"] *)
Variable to_numeric_str : string -> option Q.
(** [pd.to_datetime(series, errors="coerce", utc=True)]: [None] when the
    call raises; in its result, [None] is [NaT]. *)
Variable to_datetime : Series -> option (list (option Z)).
(** [str] of a float and of a timestamp *)
Variable repr_float : Q -> string.
Variable repr_time : Z -> string.
(** [re.search("[A-Z]\d", s)] and the two strict patterns *)
Variable re_letter_digit : string -> bool.
Variable re_email : string -> bool.
Variable re_uk_postcode : string -> bool.

(** [pd.to_numeric(..., errors="coerce")] of one cell; [None] is [NaN]. *)
Definition to_numeric (c : cell) : option Q :=
  match c with
  | NA => None
  | VInt z => Some (inject_Z z)
  | VFloat q => Some q
  | VStr s => to_numeric_str s
  | VTime t => Some (inject_Z t)
  end.

(** [str(v)] of one cell, as [astype(str)] applies it. *)
Definition py_str (c : cell) : string :=
  match c with
  | NA => "nan"
  | VInt z => Str.of_Z z
  | VFloat q => repr_float q
  | VStr s => s
  | VTime t => repr_time t
  end.

(** The body of the loop of [check_outliers_iqr] for one column. *)
Definition outliers_of_column (col : Series) : list CheckResult :=
  if is_numeric_dtype (s_dtype col) then
    let s := filter_map to_numeric (s_values col) in
    if (List.length s <? 10)%nat then [] else
    let '(lo, hi) := iqr_bounds s in
    let cnt := count_true (map (outside lo hi) s) in
    if (0 <? cnt)%nat
    then [mkCheckResult ("IQR Outliers: " ++ s_name col) "major"
            [[("count", PNat cnt); ("lo", PFloat (Qred lo)); ("hi", PFloat (Qred hi))]]
            (norm (Qnat cnt) (py_max 10 (Qnat (List.length s) * (5 # 100))))]
    else []
  else [].

Definition check_outliers_iqr (df : DataFrame) : list CheckResult :=
  flat_map outliers_of_column df.

(** [value_counts(normalize=True)]: distinct values with their relative
    frequency, most frequent first. *)
Definition value_counts (l : list string) : list (string * Q) :=
  let counted := map (fun v => (v, count_occ string_dec l v)) (nodup string_dec l) in
  let sorted := sort_by (fun a b => (snd b <=? snd a)%nat) counted in
  map (fun '(v, n) => (v, Qnat n / Qnat (List.length l))) sorted.

Definition rare_of_column (min_ratio : Q) (col : Series) : list CheckResult :=
  if is_string_dtype col || String.eqb (dtype_str (s_dtype col)) "category" then
    let vc := value_counts (map py_str (s_values col)) in
    let rare := filter (fun vf => Qltb (snd vf) min_ratio) vc in
    if (0 <? List.length rare)%nat
    then [mkCheckResult ("Rare Categories: " ++ s_name col) "minor"
            [[("n_rare", PNat (List.length rare));
              ("examples", PDict (Dict.of_pairs
                             (map (fun '(v, f) => (v, PFloat (Qred f))) (firstn 5 rare))))]]
            (norm (Qnat (List.length rare)) 50)]
    else []
  else [].

Definition check_rare_categories (df : DataFrame) (min_ratio : Q) : list CheckResult :=
  flat_map (rare_of_column min_ratio) df.

(** One of the two pattern tests of [check_semantic_regex]. *)
Definition semantic_violation (kind : string) (strict : string -> bool)
           (c : string) (sample : list string) : list CheckResult :=
  let bad := mean_bool (map (fun v => negb (strict v)) sample) in
  if Qltb (3 # 10) bad
  then [mkCheckResult ("Semantic Violations (" ++ kind ++ ") in " ++ c) "major"
          [[("fail_rate", PFloat (Qred (py_round bad 3)))]]
          (py_min 1 bad)]
  else [].

Definition semantic_of_column (col : Series) : list CheckResult :=
  if is_string_dtype col then
    let sample := map py_str (filter (fun v => negb (isna v)) (s_values col)) in
    if (List.length sample =? 0)%nat then [] else
    let like_email := Qltb (1 # 2) (mean_bool (map (Str.contains "@") sample)) in
    let like_pc := Qltb (1 # 2) (mean_bool (map re_letter_digit sample)) in
    ((if like_email
      then semantic_violation "email" re_email (s_name col) sample else []) ++
     (if like_pc
      then semantic_violation "UK postcode" re_uk_postcode (s_name col) sample else []))%list
  else [].

Definition check_semantic_regex (df : DataFrame) : list CheckResult :=
  flat_map semantic_of_column df.

(** *** Dates *)

Definition is_date_column (col : Series) : bool :=
  Str.contains "date" (Str.lower (s_name col)) || is_datetime64_any_dtype (s_dtype col).

(** The dict [parsed]: a column whose coercion raises is skipped. *)
Definition parse_dates (df : DataFrame) : list (string * list (option Z)) :=
  fold_left (fun parsed col =>
               match to_datetime col with
               | Some s => Dict.set (s_name col) s parsed
               | None => parsed
               end)
            (filter is_date_column df) [].

(** The entry of [parsed] for one column. *)
Definition parsed_entry (col : Series) : option (string * list (option Z)) :=
  match to_datetime col with
  | Some s => Some (s_name col, s)
  | None => None
  end.

(** [s.isna().sum()] of a parsed series *)
Definition count_nat (s : list (option Z)) : nat :=
  count_true (map (fun v => negb (is_some v)) s).

Definition invalid_dates (df : DataFrame) (cs : string * list (option Z)) : list CheckResult :=
  let '(c, s) := cs in
  let invalid := count_nat s in
  if (0 <? invalid)%nat
  then [mkCheckResult ("Invalid Dates: " ++ c) "minor"
          [[("invalid", PNat invalid)]]
          (norm (Qnat invalid) (py_max 10 (Qnat (df_len df) * (5 # 100))))]
  else [].

(** [ship < order], row by row; a comparison with [NaT] is false. *)
Definition ship_before_order (ship order : list (option Z)) : list bool :=
  map (fun so => match so with
                 | (Some a, Some b) => (a <? b)%Z
                 | _ => false
                 end)
      (combine ship order).

Definition temporal_rule (df : DataFrame) (parsed : list (string * list (option Z)))
  : list CheckResult :=
  match Dict.get "order_date" parsed, Dict.get "ship_date" parsed with
  | Some order, Some ship =>
      let bad := count_true (ship_before_order ship order) in
      if (0 <? bad)%nat
      then [mkCheckResult "Temporal Rule: ship_date ≥ order_date" "major"
              [[("violations", PNat bad)]]
              (norm (Qnat bad) (py_max 10 (Qnat (df_len df) * (5 # 100))))]
      else []
  | _, _ => []
  end.

Definition check_dates (df : DataFrame) : list CheckResult :=
  let parsed := parse_dates df in
  (flat_map (invalid_dates df) parsed ++ temporal_rule df parsed)%list.

(** *** What each check has to report *)

(** The number of detections of each check, counted from the data: absent,
    unexpected and retyped columns; rows repeating an earlier key; missing
    cells and rows repeating an earlier row; values outside the IQR bounds;
    rare values; failed pattern tests; invalid dates and inverted date
    pairs. *)
Definition dtype_differs (df : DataFrame) (ce : string * string) : bool :=
  has_column df (fst ce) &&
  match df_get df (fst ce) with
  | Ok col => negb (String.eqb (dtype_str (s_dtype col)) (snd ce))
  | Err _ => false
  end.

Definition schema_detections (df : DataFrame) (baseline : option Baseline) : nat :=
  if negb (truthy baseline) then O else
  let b := get_or baseline (mkBaseline None None None) in
  let expected_cols := py_set (get_or (b_columns b) []) in
  let actual_cols := py_set (df_columns df) in
  (List.length (set_diff expected_cols actual_cols)
   + List.length (set_diff actual_cols expected_cols)
   + List.length (filter (dtype_differs df) (get_or (b_dtypes b) [])))%nat.

Definition primary_key_detections (df : DataFrame) (pk : list string) : nat :=
  match subset_rows df pk with
  | Ok keys => earlier_count row_eqb [] keys
  | Err _ => O
  end.

Definition missing_cells (df : DataFrame) : nat :=
  sum_nat (map (fun c => count_true (map isna (s_values c))) df).

Definition missing_duplicates_detections (df : DataFrame) : nat :=
  (missing_cells df + earlier_count row_eqb [] (all_rows df))%nat.

Definition outlier_count (col : Series) : nat :=
  if is_numeric_dtype (s_dtype col) then
    let s := filter_map to_numeric (s_values col) in
    if (List.length s <? 10)%nat then O
    else count_true (map (outside (fst (iqr_bounds s)) (snd (iqr_bounds s))) s)
  else O.

Definition outlier_detections (df : DataFrame) : nat :=
  sum_nat (map outlier_count df).

Definition rare_count (min_ratio : Q) (col : Series) : nat :=
  if is_string_dtype col || String.eqb (dtype_str (s_dtype col)) "category"
  then List.length (filter (fun vf => Qltb (snd vf) min_ratio)
                           (value_counts (map py_str (s_values col))))
  else O.

Definition rare_detections (df : DataFrame) (min_ratio : Q) : nat :=
  sum_nat (map (rare_count min_ratio) df).

(** One pattern test fails when the column looks like the kind and more
    than 30% of its values do not match the strict pattern. *)
Definition pattern_fails (looks strict : string -> bool) (sample : list string) : bool :=
  Qltb (1 # 2) (mean_bool (map looks sample)) &&
  Qltb (3 # 10) (mean_bool (map (fun v => negb (strict v)) sample)).

Definition semantic_count (col : Series) : nat :=
  if is_string_dtype col then
    let sample := map py_str (filter (fun v => negb (isna v)) (s_values col)) in
    if (List.length sample =? 0)%nat then O
    else ((if pattern_fails (Str.contains "@") re_email sample then 1 else 0)
          + (if pattern_fails re_letter_digit re_uk_postcode sample then 1 else 0))%nat
  else O.

Definition semantic_detections (df : DataFrame) : nat :=
  sum_nat (map semantic_count df).

Definition inverted_pairs (parsed : list (string * list (option Z))) : nat :=
  match Dict.get "order_date" parsed, Dict.get "ship_date" parsed with
  | Some order, Some ship => count_true (ship_before_order ship order)
  | _, _ => O
  end.

Definition date_detections (df : DataFrame) : nat :=
  let parsed := parse_dates df in
  (sum_nat (map (fun cs => count_nat (snd cs)) parsed) + inverted_pairs parsed)%nat.

(** A check honours its contract when every finding it returns is well
    formed and it returns none when there is nothing to report. *)
Definition check_contract (findings : list CheckResult) (detections : nat) : Prop :=
  Forall finding_ok findings /\ (detections = O -> findings = []).

(** *** The audit: all checks, concatenated *)

Definition run_checks (df : DataFrame) (baseline : option Baseline)
  : result (list CheckResult) :=
  let results := check_schema df baseline in
  pk_results <-
    (if truthy baseline && is_some (b_primary_key (get_or baseline (mkBaseline None None None)))
     then check_primary_key df
            (get_or (b_primary_key (get_or baseline (mkBaseline None None None))) [])
     else Ok []) ;;
  Ok (results ++ pk_results
      ++ check_missing_duplicates_types df
      ++ check_outliers_iqr df
      ++ check_rare_categories df (1 # 100)
      ++ check_semantic_regex df
      ++ check_dates df)%list.

(** *** Enrichment ([run] in app.py) *)

(** [r.issues[0][k] = v] *)
Definition set_first_issue (k : string) (v : pyval) (r : CheckResult) : CheckResult :=
  match issues r with
  | [] => r
  | info :: rest =>
      mkCheckResult (name r) (severity r) (Dict.set k v info :: rest) (impact r)
  end.

(** The three assignments made to the "Duplicate Rows" finding. *)
Definition attach_duplicates (df : DataFrame) (idx : list nat) (r : CheckResult)
  : CheckResult :=
  let r := set_first_issue "row_indices" (PList (map PNat idx)) r in
  let r := set_first_issue "sample_rows"
             (PList (map (fun i => record_of (df_columns df) (row_of df i))
                         (firstn 10 idx))) r in
  set_first_issue "columns" (PList (map PStr (df_columns df))) r.

(** The loop over the results, left at the first match. *)
Fixpoint enrich_duplicates_loop (df : DataFrame) (idx : list nat)
         (results : list CheckResult) : list CheckResult :=
  match results with
  | [] => []
  | r :: rest =>
      if String.eqb (name r) "Duplicate Rows" && nonempty (issues r)
      then attach_duplicates df idx r :: rest
      else r :: enrich_duplicates_loop df idx rest
  end.

Definition enrich_duplicates (df : DataFrame) (results : list CheckResult)
  : list CheckResult :=
  let idx := mask_index (duplicated_all row_eqb (all_rows df)) in
  if nonempty idx then enrich_duplicates_loop df idx results else results.

(** A Python value used as a bound: a number is compared with the column
    and formatted by [{lo:.3f}]; with anything else the comparison or the
    formatting raises. *)
Definition as_number (v : option pyval) : result Q :=
  match v with
  | Some (PInt z) => Ok (inject_Z z)
  | Some (PFloat q) => Ok q
  | Some (PBool b) => Ok (if b then 1 else 0)
  | _ => Err TypeError
  end.

(** The column named after the colon of a finding's name, [None] when
    there is no colon. *)
Definition column_of_name (n : string) : option string :=
  match Str.after_colon n with
  | Ok rest => Some (Str.strip rest)
  | Err _ => None
  end.

Definition explain_text (col : string) (lo hi : Q) : string :=
  "Outliers flagged using the IQR rule: values lower than Q1−1.5×IQR or higher than Q3+1.5×IQR. "
  ++ "For “" ++ col ++ "”, the low/high cutoffs are "
  ++ Str.format_3f lo ++ " / " ++ Str.format_3f hi ++ ".".

(** Positions and values outside the bounds, in row order. *)
Definition outlier_positions (lo hi : Q) (s : list (option Q)) : list (nat * Q) :=
  filter_map (fun iv => match snd iv with
                        | Some x => if outside lo hi x then Some (fst iv, x) else None
                        | None => None
                        end)
             (combine (seq 0 (List.length s)) s).

Definition attach_outliers (col : string) (lo hi : Q) (hits : list (nat * Q))
           (r : CheckResult) : CheckResult :=
  let sample :=
    map (fun iv => PDict [("index", PNat (fst iv)); ("value", PFloat (snd iv))])
        (firstn 10 (sort_by (fun a b => Qle_bool (Qabs (snd b)) (Qabs (snd a))) hits)) in
  let r := set_first_issue "column" (PStr col) r in
  let r := set_first_issue "row_indices" (PList (map (fun iv => PNat (fst iv)) hits)) r in
  let r := set_first_issue "sample_values" (PList sample) r in
  set_first_issue "explain" (PStr (explain_text col lo hi)) r.

(** The body of the second loop of the enrichment for one finding. *)
Definition enrich_outlier (df : DataFrame) (r : CheckResult) : result CheckResult :=
  if Str.startswith (name r) "IQR Outliers" then
    match column_of_name (name r) with
    | Some col =>
        if nonempty (list_ascii_of_string col) && has_column df col && nonempty (issues r)
        then
          let info := hd [] (issues r) in
          series <- df_get df col ;;
          lo <- as_number (Dict.get "lo" info) ;;
          hi <- as_number (Dict.get "hi" info) ;;
          let s := map to_numeric (s_values series) in
          Ok (attach_outliers col lo hi (outlier_positions lo hi s) r)
        else Ok r
    | None => Ok r
    end
  else Ok r.

Definition enrich_outliers (df : DataFrame) (results : list CheckResult)
  : result (list CheckResult) :=
  mapM (enrich_outlier df) results.

(** The enrichment stage: duplicates first, then outliers. *)
Definition enrich (df : DataFrame) (results : list CheckResult)
  : result (list CheckResult) :=
  enrich_outliers df (enrich_duplicates df results).

(** The audit of [run]: checks, enrichment, score. *)
Definition run (df : DataFrame) (baseline : option Baseline)
  : result (list CheckResult * Q) :=
  results <- run_checks df baseline ;;
  results <- enrich df results ;;
  Ok (results, compute_score results).

End Engine.

(** ** What the enrichment may change *)

(** The keys the enrichment stage assigns. *)
Definition ENRICHMENT_KEYS : list string :=
  ["row_indices"; "sample_rows"; "columns"; "column"; "sample_values"; "explain"].

Definition first_issue (r : CheckResult) : pydict := hd [] (issues r).

(** [d'] comes from [d] by assignments to enrichment keys. *)
Inductive assigns_keys (d : pydict) : pydict -> Prop :=
| assigns_none : assigns_keys d d
| assigns_one d' k v :
    assigns_keys d d' -> In k ENRICHMENT_KEYS -> assigns_keys d (Dict.set k v d').

(** [r'] is [r] with evidence attached: name, severity and impact are
    kept, only the first issue record may differ, its keys stay in place
    and are followed by new enrichment keys, the other keys keep their
    values, a record that held no enrichment key is extended at its end,
    and a finding that is neither "Duplicate Rows" nor an "IQR Outliers"
    one is not changed at all. *)
Definition enriched_from (r r' : CheckResult) : Prop :=
  name r' = name r /\
  severity r' = severity r /\
  impact r' = impact r /\
  List.length (issues r') = List.length (issues r) /\
  tl (issues r') = tl (issues r) /\
  (exists added, Dict.keys (first_issue r') = (Dict.keys (first_issue r) ++ added)%list /\
                 incl added ENRICHMENT_KEYS) /\
  (forall k, ~ In k ENRICHMENT_KEYS ->
             Dict.get k (first_issue r') = Dict.get k (first_issue r)) /\
  (Forall (fun k => ~ In k ENRICHMENT_KEYS) (Dict.keys (first_issue r)) ->
   exists extra, first_issue r' = (first_issue r ++ extra)%list) /\
  (name r <> "Duplicate Rows" -> Str.startswith (name r) "IQR Outliers" = false -> r' = r).

(** What one enrichment step keeps of a finding. *)
Definition step_frame (r r' : CheckResult) : Prop :=
  name r' = name r /\ severity r' = severity r /\ impact r' = impact r /\
  List.length (issues r') = List.length (issues r) /\
  tl (issues r') = tl (issues r) /\
  assigns_keys (first_issue r) (first_issue r').

(** A finding the outlier enrichment can process: if its name starts with
    "IQR Outliers", its first issue record holds numeric bounds. *)
Definition bounds_recorded (r : CheckResult) : Prop :=
  Str.startswith (name r) "IQR Outliers" = true ->
  exists lo hi,
    as_number (Dict.get "lo" (first_issue r)) = Ok lo /\
    as_number (Dict.get "hi" (first_issue r)) = Ok hi.

(** A finding that neither enrichment loop selects. *)
Definition plain_name (r : CheckResult) : Prop :=
  name r <> "Duplicate Rows" /\ Str.startswith (name r) "IQR Outliers" = false.

(** ** Baseline inference ([make_baseline.py]) *)

(** [infer_dtypes(df)]: the dict from column name to dtype string. *)
Definition infer_dtypes (df : DataFrame) : list (string * string) :=
  Dict.of_pairs (map (fun c => (s_name c, dtype_str (s_dtype c))) df).

(** The baseline [main] writes: the columns, their dtypes, and the primary
    key when [--pk] names at least one column. *)
Definition make_baseline (df : DataFrame) (pk : option (list string)) : Baseline :=
  mkBaseline (Some (df_columns df)) (Some (infer_dtypes df))
             (match pk with
              | Some (k :: ks) => Some (k :: ks)
              | _ => None
              end).

(** [df.isna().sum()] for one column. *)
Definition na_count (col : Series) : nat := count_true (map isna (s_values col)).

(** ** Presentation of findings ([app.py]) *)

(** The remediation table [FRIENDLY]: rule-name prefix, explanation, fix. *)
Definition FRIENDLY : list (string * (string * string)) :=
  [("Missing Values",
    ("Some columns contain nulls.", "Backfill from source, impute, or enforce NOT NULL."));
   ("Duplicate Rows",
    ("Exact duplicate rows detected.", "De-duplicate by primary key or drop_duplicates in ETL."));
   ("IQR Outliers",
    ("Unusual numeric values outside the typical range.",
     "Investigate; cap or winsorize if appropriate."));
   ("Temporal Rule: ship_date ≥ order_date",
    ("Ship date precedes order date.", "Fix dates at source or timezone/format issues."));
   ("Missing Columns",
    ("Dataset is missing expected fields (baseline).",
     "Fix mapping or update baseline if intentional."));
   ("Unexpected Columns",
    ("New fields appeared vs baseline.", "Validate & update baseline if legitimate."));
   ("Dtype Drift",
    ("Column data types changed vs baseline.",
     "Cast types in ingestion or adjust schema rules."));
   ("Semantic Violations (email)",
    ("Values don’t look like valid emails.", "Validate at capture; standardize/clean."));
   ("Semantic Violations (UK postcode)",
    ("Values don’t look like valid UK postcodes.", "Normalize formats; validate upstream."));
   ("Primary Key Uniqueness",
    ("Primary key is not unique.", "Fix duplicates at source; enforce uniqueness."))].

(** [next((k for k in FRIENDLY if title.startswith(k)), None)] *)
Definition friendly_key (title : string) : option string :=
  find (fun k => Str.startswith title k) (Dict.keys FRIENDLY).

(** [sev in allowed] *)
Definition in_severities (sev : string) (allowed : list string) : bool :=
  existsb (String.eqb sev) allowed.

(** [filtered] of [render_filtered]: the findings whose severity is ticked. *)
Definition filter_findings (sev_filter : option (list string))
           (res : list CheckResult) : list CheckResult :=
  filter (fun r => in_severities (severity r) (get_or sev_filter [])) res.

(** The critical and major findings among the filtered ones. *)
Definition fix_candidates (filtered : list CheckResult) : list CheckResult :=
  filter (fun r => in_severities (severity r) ["critical"; "major"]) filtered.

(** [sorted(..., key=impact, reverse=True)]: stable, largest impact first. *)
Definition by_impact_desc (l : list CheckResult) : list CheckResult :=
  sort_by (fun a b => Qle_bool (impact b) (impact a)) l.

(** [top]: the three candidates of largest impact. *)
Definition top_fixes (filtered : list CheckResult) : list CheckResult :=
  firstn 3 (by_impact_desc (fix_candidates filtered)).

(** One line of the "Top fixes" card: key, severity, explanation, fix. *)
Record Fix : Type := mkFix {
  fix_key : string;
  fix_severity : string;
  fix_what : string;
  fix_how : string
}.

Definition fix_of (r : CheckResult) : Fix :=
  let fk := get_or (friendly_key (name r)) (name r) in
  let wh := get_or (Dict.get fk FRIENDLY)
                   ("Issue detected.", "Review and fix in source/ETL.") in
  mkFix fk (severity r) (fst wh) (snd wh).

(** The head of a finding card: title, severity, and the remediation
    text, [None] standing for "See details below.". *)
Record Card : Type := mkCard {
  card_title : string;
  card_severity : string;
  card_friendly : option (string * string)
}.

Definition card_of (r : CheckResult) : Card :=
  mkCard (name r) (severity r)
         (match friendly_key (name r) with
          | Some fk => Dict.get fk FRIENDLY
          | None => None
          end).

(** What [render_filtered] shows: the fixes and the cards; the Dash
    components built around them are left out.  The store is [None]
    before the first audit. *)
Definition render_filtered (sev_filter : option (list string))
           (store : option (list CheckResult)) : list Fix * list Card :=
  match store with
  | None => ([], [])
  | Some [] => ([], [])
  | Some res =>
      let filtered := filter_findings sev_filter res in
      (map fix_of (top_fixes filtered), map card_of filtered)
  end.

(** [Counter([r.severity for r in results]).get(sev, 0)] *)
Definition severity_count (sev : string) (results : list CheckResult) : nat :=
  count_occ string_dec (map severity results) sev.

(** ** The rule catalog *)

(** The names and severities the checks give their findings. *)
Definition catalogued (r : CheckResult) : Prop :=
  (name r = "Missing Columns" /\ severity r = "critical") \/
  (name r = "Unexpected Columns" /\ severity r = "major") \/
  (name r = "Dtype Drift" /\ severity r = "major") \/
  (name r = "Primary Key Uniqueness" /\ severity r = "critical") \/
  (name r = "Missing Values" /\ severity r = "major") \/
  (name r = "Duplicate Rows" /\ severity r = "major") \/
  ((exists c, name r = "IQR Outliers: " ++ c) /\ severity r = "major") \/
  ((exists c, name r = "Rare Categories: " ++ c) /\ severity r = "minor") \/
  ((exists c, name r = "Semantic Violations (email) in " ++ c) /\ severity r = "major") \/
  ((exists c, name r = "Semantic Violations (UK postcode) in " ++ c)
   /\ severity r = "major") \/
  ((exists c, name r = "Invalid Dates: " ++ c) /\ severity r = "minor") \/
  (name r = "Temporal Rule: ship_date ≥ order_date" /\ severity r = "major").

(** ** Sample data *)

Definition int_column (n : string) (vs : list Z) : Series :=
  mkSeries n Int64 (map VInt vs).

(** Three distinct rows, nothing missing. *)
Definition df_clean : DataFrame := [int_column "id" [1; 2; 3]%Z].

(** Two rows with the same key. *)
Definition df_two_same_id : DataFrame := [int_column "id" [1; 1]%Z].

Definition order_date_column : Series :=
  mkSeries "order_date" Object [VStr "2024-01-02"; VStr "n/a"; VStr "2024-01-02"].

(** Three orders, the first and the last alike, the second with a bad date. *)
Definition df_orders : DataFrame := [int_column "id" [7; 8; 7]%Z; order_date_column].

(** Two shipments; the second ships before it is ordered. *)
Definition df_shipping : DataFrame :=
  [mkSeries "order_date" Datetime64 [VTime 5; VTime 9];
   mkSeries "ship_date" Datetime64 [VTime 7; VTime 3]].

(** The column of the IQR example. *)
Definition iqr_sample : list Z := [1; 2; 3; 4; 5; 6; 7; 8; 9; 100]%Z.

Definition df_iqr : DataFrame := [int_column "x" iqr_sample].

(** Three contacts, every address with an at sign. *)
Definition df_contacts : DataFrame :=
  [mkSeries "email" Object [VStr "ann@example.org"; VStr "bob@"; VStr "@carol"]].

(** Stand-ins for the library functions on the sample data: object columns
    are string columns, a ten-character string is a date, no string is a
    number, and no pattern matches. *)
Definition sample_is_string_dtype (col : Series) : bool :=
  match s_dtype col with Object => true | _ => false end.

Definition sample_to_numeric_str (s : string) : option Q := None.

Definition sample_to_datetime (col : Series) : option (list (option Z)) :=
  Some (map (fun v => match v with
                      | VTime t => Some t
                      | VStr s => if (String.length s =? 10)%nat then Some 0%Z else None
                      | _ => None
                      end)
            (s_values col)).

Definition sample_repr_float (q : Q) : string := "".

Definition sample_repr_time (t : Z) : string := "".

Definition sample_pattern (s : string) : bool := false.

(** The audit of the sample orders, without a baseline. *)
Definition sample_results : list CheckResult :=
  match run_checks sample_is_string_dtype sample_to_numeric_str sample_to_datetime
                   sample_repr_float sample_repr_time
                   sample_pattern sample_pattern sample_pattern df_orders None with
  | Ok results => results
  | Err _ => []
  end.

Definition sample_enriched : list CheckResult :=
  match enrich sample_to_numeric_str df_orders sample_results with
  | Ok results => results
  | Err _ => []
  end.

(** * Properties *)

(** ** Rounding *)

Local Open Scope Q_scope.

Lemma round_half_even_comp (x y : Q) :
  x == y -> round_half_even x = round_half_even y.
Proof.
  intros E. unfold round_half_even.
  rewrite (Qfloor_comp _ _ E).
  assert (C : Qcompare (x - inject_Z (Qfloor y)) (1 # 2)
            = Qcompare (y - inject_Z (Qfloor y)) (1 # 2)).
  { apply Qcompare_comp; [rewrite E|]; reflexivity. }
  rewrite C. reflexivity.
Qed.

Lemma round_half_even_lower (x : Q) : (Qfloor x <= round_half_even x)%Z.
Proof.
  unfold round_half_even.
  destruct (Qcompare _ _); [destruct (Z.even _)| |]; lia.
Qed.

Lemma round_half_even_upper (x : Q) : (round_half_even x <= Qfloor x + 1)%Z.
Proof.
  unfold round_half_even.
  destruct (Qcompare _ _); [destruct (Z.even _)| |]; lia.
Qed.

Lemma round_half_even_mono (x y : Q) :
  x <= y -> (round_half_even x <= round_half_even y)%Z.
Proof.
  intros L.
  pose proof (Qfloor_resp_le _ _ L) as F.
  destruct (Z.eq_dec (Qfloor x) (Qfloor y)) as [E|N].
  - unfold round_half_even. rewrite <- E.
    destruct (Qcompare_spec (x - inject_Z (Qfloor x)) (1 # 2)) as [X|X|X];
      destruct (Qcompare_spec (y - inject_Z (Qfloor x)) (1 # 2)) as [Y|Y|Y];
      try destruct (Z.even (Qfloor x)); try lia; exfalso; lra.
  - pose proof (round_half_even_upper x). pose proof (round_half_even_lower y). lia.
Qed.

Lemma round_half_even_Z (z : Z) : round_half_even (inject_Z z) = z.
Proof.
  unfold round_half_even. rewrite Qfloor_Z.
  destruct (Qcompare_spec (inject_Z z - inject_Z z) (1 # 2)) as [X|X|X];
    try reflexivity; exfalso; lra.
Qed.

Lemma pow10_pos (n : nat) : 0 < pow10 n.
Proof.
  unfold pow10. change 0 with (inject_Z 0). rewrite <- Zlt_Qlt.
  apply Z.pow_pos_nonneg; lia.
Qed.

Lemma py_round_comp (x y : Q) (n : nat) : x == y -> py_round x n == py_round y n.
Proof.
  intros E. unfold py_round.
  rewrite (round_half_even_comp (x * pow10 n) (y * pow10 n)); [reflexivity|].
  rewrite E. reflexivity.
Qed.

Lemma py_round_mono (x y : Q) (n : nat) : x <= y -> py_round x n <= py_round y n.
Proof.
  intros L. unfold py_round. pose proof (pow10_pos n) as P.
  apply Qmult_le_compat_r.
  - rewrite <- Zle_Qle. apply round_half_even_mono.
    apply Qmult_le_compat_r; [exact L | apply Qlt_le_weak, P].
  - apply Qlt_le_weak, Qinv_lt_0_compat, P.
Qed.

Lemma py_max_spec (a b : Q) : (a < b /\ py_max a b = b) \/ (b <= a /\ py_max a b = a).
Proof. unfold py_max. destruct (Qlt_le_dec a b); auto. Qed.

Lemma py_min_spec (a b : Q) : (b < a /\ py_min a b = b) \/ (a <= b /\ py_min a b = a).
Proof. unfold py_min. destruct (Qlt_le_dec b a); auto. Qed.

Lemma py_max_mono_r (a x y : Q) : x <= y -> py_max a x <= py_max a y.
Proof.
  intros L.
  destruct (py_max_spec a x) as [[? ->]|[? ->]];
    destruct (py_max_spec a y) as [[? ->]|[? ->]]; lra.
Qed.

Lemma py_max_comp_r (a x y : Q) : x == y -> py_max a x == py_max a y.
Proof.
  intros E.
  destruct (py_max_spec a x) as [[? ->]|[? ->]];
    destruct (py_max_spec a y) as [[? ->]|[? ->]]; lra.
Qed.

(** [norm] always lands in the unit interval. *)
Lemma norm_unit (x cap : Q) : 0 <= norm x cap <= 1.
Proof.
  unfold norm.
  destruct (py_min_spec 1 (x / cap)) as [[? ->]|[? ->]];
    match goal with |- context [py_max 0 ?v] =>
      destruct (py_max_spec 0 v) as [[? ->]|[? ->]] end; lra.
Qed.

(** ** Scorer *)

Lemma weights_get_pos (sev : string) : (0 < weights_get sev 1)%Z.
Proof.
  unfold weights_get, SEVERITY_WEIGHTS; simpl.
  repeat match goal with |- context [String.eqb ?a ?b] => destruct (String.eqb a b) end; lia.
Qed.

Lemma weights_get_severity (s : Severity) :
  inject_Z (weights_get (severity_str s) 1) = severity_weight s.
Proof. destruct s; reflexivity. Qed.

Lemma penalty_term_nonneg (r : CheckResult) : 0 <= impact r -> 0 <= penalty_term r.
Proof.
  intros H. unfold penalty_term.
  pose proof (weights_get_pos (severity r)) as W.
  assert (0 < inject_Z (weights_get (severity r) 1)).
  { change 0 with (inject_Z 0). rewrite <- Zlt_Qlt. exact W. }
  assert (0 <= inject_Z (weights_get (severity r) 1) * impact r)
    by (apply Qmult_le_0_compat; lra).
  lra.
Qed.

Lemma penalty_fold (l : list CheckResult) (a : Q) :
  fold_left (fun penalty r => penalty + penalty_term r) l a
  == a + fold_right (fun r acc => penalty_term r + acc) 0 l.
Proof.
  revert a. induction l as [|r l IH]; intros a; simpl.
  - lra.
  - rewrite IH. lra.
Qed.

Lemma penalty_of_app (l : list CheckResult) (r : CheckResult) :
  penalty_of (l ++ [r]) = penalty_of l + penalty_term r.
Proof. unfold penalty_of. rewrite fold_left_app. reflexivity. Qed.

Lemma penalty_of_spec (fs : list Finding) :
  penalty_of (map to_result fs) == spec_penalty fs.
Proof.
  unfold penalty_of. rewrite penalty_fold.
  induction fs as [|f fs IH]; simpl.
  - lra.
  - unfold penalty_term at 1. simpl. rewrite weights_get_severity.
    rewrite Qplus_0_l in IH. rewrite Qplus_0_l. rewrite IH. reflexivity.
Qed.

Lemma spec_penalty_nonneg (fs : list Finding) :
  Forall (fun f => 0 <= f_impact f) fs -> 0 <= spec_penalty fs.
Proof.
  induction 1 as [|f fs H _ IH]; simpl; [lra|].
  assert (0 <= severity_weight (f_severity f) * f_impact f).
  { apply Qmult_le_0_compat; [destruct (f_severity f); simpl; lra | exact H]. }
  lra.
Qed.

(** C1: for every finding list of the data model (severity one of the
    three levels, impact not negative), the score the code computes is
    [round(clamp(100 - sum of weight * impact * 10, 0, 100), 1)] with
    weights 3, 2 and 1 for critical, major and minor. *)
Theorem compute_score_formula (fs : list Finding) :
  Forall (fun f => 0 <= f_impact f) fs ->
  compute_score (map to_result fs) == spec_score fs.
Proof.
  intros H. unfold compute_score, spec_score.
  apply py_round_comp.
  pose proof (penalty_of_spec fs) as E.
  pose proof (spec_penalty_nonneg fs H) as P.
  unfold clamp.
  destruct (py_max_spec 0 (100 - penalty_of (map to_result fs))) as [[? ->]|[? ->]];
    destruct (Qlt_le_dec (100 - spec_penalty fs) 0);
    try destruct (Qlt_le_dec 100 (100 - spec_penalty fs)); lra.
Qed.

(** C5: appending a finding whose impact is not negative never raises
    the score, and the score of the empty list is exactly 100. *)
Theorem compute_score_antitone (results : list CheckResult) (r : CheckResult) :
  0 <= impact r ->
  compute_score (results ++ [r]) <= compute_score results /\ compute_score [] == 100.
Proof.
  intros H. split.
  - unfold compute_score. apply py_round_mono, py_max_mono_r.
    rewrite penalty_of_app. pose proof (penalty_term_nonneg r H). lra.
  - reflexivity.
Qed.

(** C6, counterexample: at impact 1 a critical finding costs 30 points and
    a major one 20, so the critical penalty is not three times the major one. *)
Lemma critical_not_thrice_major :
  let rc := mkCheckResult "a" "critical" [] 1 in
  let rm := mkCheckResult "b" "major" [] 1 in
  impact rc == impact rm /\
  penalty_term rc == 30 /\ penalty_term rm == 20 /\
  ~ penalty_term rc == 3 * penalty_term rm.
Proof.
  simpl. repeat split; try reflexivity.
  intros E. vm_compute in E. discriminate E.
Qed.

(** C6, amended: at equal impact a critical finding contributes one and a
    half times the score penalty of a major finding (weights 3 and 2), and
    three times that of a minor finding. *)
Theorem critical_vs_major_penalty (rc rm rn : CheckResult) :
  severity rc = "critical"%string ->
  severity rm = "major"%string ->
  severity rn = "minor"%string ->
  impact rc == impact rm ->
  impact rc == impact rn ->
  penalty_term rc == (3 # 2) * penalty_term rm /\
  penalty_term rc == 3 * penalty_term rn.
Proof.
  intros Hc Hm Hn E1 E2. unfold penalty_term.
  rewrite Hc, Hm, Hn. unfold weights_get. simpl.
  rewrite <- E1, <- E2. split; ring.
Qed.

Lemma critical_vs_major_penalty_witness :
  let rc := mkCheckResult "Primary Key Uniqueness" "critical" [] (1 # 2) in
  let rm := mkCheckResult "Duplicate Rows" "major" [] (1 # 2) in
  let rn := mkCheckResult "Invalid Dates: d" "minor" [] (1 # 2) in
  penalty_term rc == (3 # 2) * penalty_term rm /\
  penalty_term rc == 3 * penalty_term rn.
Proof.
  intros rc rm rn.
  apply (critical_vs_major_penalty rc rm rn); reflexivity.
Defined.

Lemma compute_score_formula_witness :
  let fs := [mkFinding "Missing Columns" critical [[]] (3 # 10);
             mkFinding "Duplicate Rows" major [[]] 1] in
  compute_score (map to_result fs) == spec_score fs.
Proof.
  intros fs. apply (compute_score_formula fs).
  repeat constructor; simpl; lra.
Defined.

Lemma compute_score_antitone_witness :
  let results := [mkCheckResult "Missing Columns" "critical" [[]] (3 # 10)] in
  let r := mkCheckResult "Duplicate Rows" "major" [[]] 1 in
  compute_score (results ++ [r]) <= compute_score results /\ compute_score [] == 100.
Proof.
  intros results r. apply (compute_score_antitone results r). simpl. lra.
Defined.

(** ** Duplicates *)

Lemma count_true_map {A} (f : A -> bool) (l : list A) :
  count_true (map f l) = List.length (filter f l).
Proof.
  unfold count_true. induction l as [|x l IH]; simpl; [reflexivity|].
  destruct (f x); simpl; rewrite IH; reflexivity.
Qed.

Lemma existsb_seq_S (f : nat -> bool) (n : nat) :
  existsb f (seq 0 (S n)) = f O || existsb (fun j => f (S j)) (seq 0 n).
Proof.
  simpl. f_equal. rewrite <- seq_shift.
  induction (seq 0 n) as [|j js IH]; simpl; [reflexivity|].
  rewrite IH. reflexivity.
Qed.

Section DuplicatedFacts.

Context {A : Type} (eqb : A -> A -> bool) (d : A).

Lemma duplicated_scan_length (l seen : list A) :
  List.length (duplicated_scan eqb seen l) = List.length l.
Proof.
  revert seen. induction l as [|x l IH]; intros seen; simpl; [reflexivity|].
  rewrite IH. reflexivity.
Qed.

Lemma duplicated_scan_nth (l seen : list A) (i : nat) :
  (i < List.length l)%nat ->
  nth i (duplicated_scan eqb seen l) false
  = existsb (eqb (nth i l d)) seen || dup_first_at eqb d l i.
Proof.
  revert seen i. induction l as [|x l IH]; intros seen i Hi; simpl in Hi; [lia|].
  destruct i as [|i].
  - simpl. unfold dup_first_at. simpl. rewrite orb_false_r. reflexivity.
  - simpl nth. rewrite IH by lia. unfold dup_first_at.
    rewrite existsb_seq_S. simpl.
    destruct (eqb (nth i l d) x); simpl; [symmetry; apply orb_true_r | reflexivity].
Qed.

Lemma duplicated_first_positions (l : list A) :
  duplicated_first eqb l = map (dup_first_at eqb d l) (seq 0 (List.length l)).
Proof.
  apply (nth_ext _ _ false (dup_first_at eqb d l O)).
  - unfold duplicated_first. rewrite duplicated_scan_length, length_map, length_seq.
    reflexivity.
  - intros i Hi. unfold duplicated_first in *.
    rewrite duplicated_scan_length in Hi.
    rewrite (duplicated_scan_nth l [] i Hi). simpl.
    rewrite (nth_indep _ _ (dup_first_at eqb d l (nth i (seq 0 (List.length l)) O)))
      by (rewrite length_map, length_seq; exact Hi).
    rewrite map_nth. rewrite seq_nth by exact Hi. reflexivity.
Qed.

(** The sum of the [keep="first"] mask counts the positions that repeat
    an earlier one. *)
Lemma count_duplicated_first (l : list A) :
  count_true (duplicated_first eqb l) = earlier_count eqb d l.
Proof.
  rewrite duplicated_first_positions, count_true_map. reflexivity.
Qed.

End DuplicatedFacts.

Lemma clamp_comp (x y lo hi : Q) : x == y -> clamp x lo hi == clamp y lo hi.
Proof.
  intros E. unfold clamp.
  destruct (Qlt_le_dec x lo), (Qlt_le_dec y lo), (Qlt_le_dec hi x), (Qlt_le_dec hi y); lra.
Qed.

Lemma norm_normalize (x cap cap' : Q) : cap == cap' -> norm x cap == normalize x cap'.
Proof.
  intros E. unfold norm, normalize.
  transitivity (clamp (x / cap) 0 1).
  - unfold clamp.
    destruct (py_min_spec 1 (x / cap)) as [[? ->]|[? ->]];
      match goal with |- context [py_max 0 ?v] =>
        destruct (py_max_spec 0 v) as [[? ->]|[? ->]] end;
      destruct (Qlt_le_dec (x / cap) 0); try destruct (Qlt_le_dec 1 (x / cap)); lra.
  - apply clamp_comp. rewrite E. reflexivity.
Qed.

Lemma py_max_Qmax (a b : Q) : py_max a b == Qmax a b.
Proof.
  destruct (py_max_spec a b) as [[? ->]|[? ->]];
    destruct (Q.max_spec a b) as [[? ->]|[? ->]]; lra.
Qed.

Lemma df_get_in (df : DataFrame) (c : string) :
  In c (df_columns df) -> exists col, df_get df c = Ok col.
Proof.
  induction df as [|col df IH]; simpl; [tauto|].
  intros [E|H].
  - subst c. rewrite String.eqb_refl. eauto.
  - destruct (String.eqb c (s_name col)); eauto.
Qed.

Lemma subset_rows_ok (df : DataFrame) (pk : list string) :
  Forall (fun c => In c (df_columns df)) pk ->
  exists keys, subset_rows df pk = Ok keys.
Proof.
  intros H. unfold subset_rows.
  destruct (df_len df =? 0)%nat; [eauto|].
  assert (exists cols, mapM (df_get df) pk = Ok cols) as [cols E].
  { induction H as [|c pk Hc _ [cols IH]]; simpl; [eauto|].
    destruct (df_get_in df c Hc) as [col ->]. simpl. rewrite IH. simpl. eauto. }
  rewrite E. simpl. eauto.
Qed.

(** C3, counterexample: two rows share the key 1; both rows have the key
    of another row, but the check reports one duplicate. *)
Lemma primary_key_counts_one_of_two :
  subset_rows df_two_same_id ["id"%string] = Ok [[VInt 1]; [VInt 1]] /\
  spec_shared_count row_eqb [] [[VInt 1]; [VInt 1]] = 2%nat /\
  exists r, check_primary_key df_two_same_id ["id"%string] = Ok [r] /\
            Dict.get "duplicates" (hd [] (issues r)) = Some (PInt 1).
Proof.
  split; [reflexivity|]. split; [reflexivity|].
  eexists. split; reflexivity.
Qed.

(** C3, amended: for every dataset and non-empty key column list whose
    columns all exist in the dataset, the reported duplicates count is the
    number of rows whose key values are identical to those of an earlier
    row; when it is positive the check emits exactly one finding named
    "Primary Key Uniqueness", critical, with at most five examples and
    impact normalize(count, max(10, 2% of the row count)); otherwise it
    emits nothing. *)
Theorem check_primary_key_counts_repeats (df : DataFrame) (pk : list string) :
  pk <> [] ->
  Forall (fun c => In c (df_columns df)) pk ->
  exists keys,
    subset_rows df pk = Ok keys /\
    let count := earlier_count row_eqb [] keys in
    ((0 < count)%nat ->
     exists r ex,
       check_primary_key df pk = Ok [r] /\
       name r = "Primary Key Uniqueness"%string /\
       severity r = "critical"%string /\
       issues r = [[("duplicates"%string, PNat count); ("examples"%string, PList ex)]] /\
       (List.length ex <= 5)%nat /\
       impact r == normalize (Qnat count) (Qmax 10 ((2 # 100) * Qnat (df_len df)))) /\
    (count = 0%nat -> check_primary_key df pk = Ok []).
Proof.
  intros Hpk Hcols.
  destruct (subset_rows_ok df pk Hcols) as [keys E].
  exists keys. split; [exact E|]. intros count.
  unfold check_primary_key. rewrite E.
  destruct pk as [|k pk]; [congruence|].
  cbv beta iota delta [bind negb nonempty].
  rewrite (count_duplicated_first row_eqb [] keys). fold count.
  split.
  - intros Hpos. apply Nat.ltb_lt in Hpos. rewrite Hpos.
    eexists. eexists. split; [reflexivity|].
    split; [reflexivity|]. split; [reflexivity|]. split; [reflexivity|]. split.
    + rewrite length_map, length_firstn. lia.
    + cbn [impact]. apply norm_normalize. rewrite py_max_Qmax.
      rewrite (Qmult_comm (2 # 100)). reflexivity.
  - intros Hz. rewrite Hz. reflexivity.
Qed.

Lemma check_primary_key_counts_repeats_witness :
  exists keys,
    subset_rows df_orders ["id"%string] = Ok keys /\
    let count := earlier_count row_eqb [] keys in
    ((0 < count)%nat ->
     exists r ex,
       check_primary_key df_orders ["id"%string] = Ok [r] /\
       name r = "Primary Key Uniqueness"%string /\
       severity r = "critical"%string /\
       issues r = [[("duplicates"%string, PNat count); ("examples"%string, PList ex)]] /\
       (List.length ex <= 5)%nat /\
       impact r == normalize (Qnat count) (Qmax 10 ((2 # 100) * Qnat (df_len df_orders)))) /\
    (count = 0%nat -> check_primary_key df_orders ["id"%string] = Ok []).
Proof.
  apply (check_primary_key_counts_repeats df_orders ["id"%string]).
  - discriminate.
  - repeat constructor.
Defined.

(** ** Every emitted finding has evidence and a unit impact *)

Lemma finding_ok_norm (n sev : string) (iss : list pydict) (x cap : Q) :
  iss <> [] -> finding_ok (mkCheckResult n sev iss (norm x cap)).
Proof. intros H. split; [exact H | apply norm_unit]. Qed.

Lemma Forall_flat_map {A B} (P : B -> Prop) (f : A -> list B) (l : list A) :
  (forall x, Forall P (f x)) -> Forall P (flat_map f l).
Proof.
  intros H. induction l as [|x l IH]; simpl; [constructor|].
  apply Forall_app. split; [apply H | exact IH].
Qed.

Lemma nonempty_true {A} (l : list A) : nonempty l = true -> l <> [].
Proof. destruct l; [discriminate | discriminate]. Qed.

Lemma dict_set_nonempty {V} (k : string) (v : V) (d : list (string * V)) :
  Dict.set k v d <> [].
Proof.
  destruct d as [|[k' v'] d]; simpl; [discriminate|].
  destruct (String.eqb k k'); discriminate.
Qed.

Lemma dict_of_pairs_nonempty {V} (l : list (string * V)) :
  l <> [] -> Dict.of_pairs l <> [].
Proof.
  unfold Dict.of_pairs.
  assert (G : forall (l : list (string * V)) d, d <> [] ->
            fold_left (fun d kv => Dict.set (fst kv) (snd kv) d) l d <> []).
  { clear l. induction l as [|kv l IH]; intros d Hd; simpl; [exact Hd|].
    apply IH, dict_set_nonempty. }
  destruct l as [|kv l]; [congruence|]. intros _. simpl.
  apply G. discriminate.
Qed.

Lemma check_schema_ok (df : DataFrame) (baseline : option Baseline) :
  Forall finding_ok (check_schema df baseline).
Proof.
  unfold check_schema.
  destruct (negb (truthy baseline)); [constructor|].
  cbv zeta.
  repeat match goal with
         | |- context [if nonempty ?l then _ else _] =>
             destruct (nonempty l) eqn:?
         end;
    repeat (apply Forall_app; split); repeat constructor;
    try (apply finding_ok_norm; try discriminate; apply nonempty_true; assumption).
Qed.

Lemma check_primary_key_ok (df : DataFrame) (pk : list string) :
  match check_primary_key df pk with
  | Ok fs => Forall finding_ok fs
  | Err _ => True
  end.
Proof.
  unfold check_primary_key.
  destruct (negb (nonempty pk)); [constructor|].
  destruct (subset_rows df pk) as [keys|e]; simpl; [|exact I].
  destruct (0 <? _)%nat; [|constructor].
  apply Forall_cons; [|constructor].
  apply finding_ok_norm. discriminate.
Qed.

Lemma check_missing_duplicates_types_ok (df : DataFrame) :
  Forall finding_ok (check_missing_duplicates_types df).
Proof.
  unfold check_missing_duplicates_types. cbv zeta.
  set (miss := filter _ _).
  destruct (0 <? List.length miss)%nat eqn:M;
    destruct (0 <? count_true _)%nat;
    repeat (apply Forall_app; split); repeat constructor;
    try (apply finding_ok_norm; try discriminate).
  all: intros E; apply map_eq_nil in E; revert E; apply dict_of_pairs_nonempty;
    destruct miss; [discriminate M | discriminate].
Qed.


(** ** A check with nothing to report returns no finding *)

Lemma sum_nat_zero (l : list nat) (n : nat) : sum_nat l = O -> In n l -> n = O.
Proof.
  induction l as [|m l IH]; simpl; intros H I; [tauto|].
  destruct I as [E|I]; [lia | apply IH; [lia | exact I]].
Qed.

Lemma flat_map_nil {A B} (f : A -> list B) (l : list A) :
  (forall x, In x l -> f x = []) -> flat_map f l = [].
Proof.
  induction l as [|x l IH]; simpl; intros H; [reflexivity|].
  rewrite (H x (or_introl eq_refl)), IH; [reflexivity|].
  intros y Hy. apply H. right. exact Hy.
Qed.

Lemma filter_none {A} (f : A -> bool) (l : list A) (x : A) :
  List.length (filter f l) = O -> In x l -> f x = false.
Proof.
  intros H I. destruct (f x) eqn:F; [|reflexivity].
  assert (J : In x (filter f l)) by (apply filter_In; auto).
  destruct (filter f l); [destruct J | discriminate H].
Qed.

Lemma check_schema_silent (df : DataFrame) (baseline : option Baseline) :
  schema_detections df baseline = O -> check_schema df baseline = [].
Proof.
  unfold schema_detections, check_schema.
  destruct (negb (truthy baseline)); [reflexivity|].
  cbv zeta. intros H.
  match type of H with
  | (List.length ?m + List.length ?n + List.length ?f)%nat = O =>
      assert (Hm : m = []) by (destruct m; [reflexivity | simpl in H; lia]);
      assert (Hn : n = []) by (destruct n; [reflexivity | simpl in H; lia]);
      assert (Hf : List.length f = O) by lia
  end.
  rewrite Hm, Hn. cbn [nonempty].
  rewrite flat_map_nil; [reflexivity|].
  intros [c exp] Hc.
  pose proof (filter_none _ _ _ Hf Hc) as D. unfold dtype_differs in D. simpl in D.
  destruct (has_column df c); [|reflexivity].
  destruct (df_get df c) as [col|]; [|reflexivity].
  simpl in D. rewrite D. reflexivity.
Qed.

Lemma check_primary_key_silent (df : DataFrame) (pk : list string) :
  primary_key_detections df pk = O ->
  match check_primary_key df pk with
  | Ok fs => fs = []
  | Err _ => True
  end.
Proof.
  unfold primary_key_detections, check_primary_key.
  destruct (negb (nonempty pk)); [reflexivity|].
  destruct (subset_rows df pk) as [keys|e]; simpl; [|exact (fun _ => I)].
  intros H. rewrite (count_duplicated_first row_eqb []), H. reflexivity.
Qed.

Lemma check_missing_duplicates_types_silent (df : DataFrame) :
  missing_duplicates_detections df = O -> check_missing_duplicates_types df = [].
Proof.
  unfold missing_duplicates_detections, missing_cells, check_missing_duplicates_types.
  intros H. cbv zeta.
  rewrite (count_duplicated_first row_eqb []).
  assert (Hd : earlier_count row_eqb [] (all_rows df) = O) by lia.
  rewrite Hd.
  assert (Hm : filter (fun cv : string * nat => (0 <? snd cv)%nat)
                      (map (fun c => (s_name c, count_true (map isna (s_values c)))) df)
               = []).
  { assert (Hs : sum_nat (map (fun c => count_true (map isna (s_values c))) df) = O)
      by lia.
    clear H Hd. induction df as [|c df IH]; [reflexivity|].
    simpl in Hs. simpl.
    assert (Hc : count_true (map isna (s_values c)) = O) by lia.
    rewrite Hc. simpl. apply IH. lia. }
  rewrite Hm. reflexivity.
Qed.

Lemma Qnat_nonneg (n : nat) : 0 <= Qnat n.
Proof. unfold Qnat. change 0 with (inject_Z 0). rewrite <- Zle_Qle. lia. Qed.

Lemma Qltb_true (a b : Q) : Qltb a b = true -> a < b.
Proof. unfold Qltb. destruct (Qlt_le_dec a b); [auto | discriminate]. Qed.

Lemma py_min_unit (x : Q) : 0 <= x -> 0 <= py_min 1 x <= 1.
Proof. intros H. destruct (py_min_spec 1 x) as [[? ->]|[? ->]]; lra. Qed.

(** Dropping columns keeps their names distinct. *)
Lemma filter_columns_NoDup (keep : Series -> bool) (df : DataFrame) :
  NoDup (df_columns df) -> NoDup (df_columns (filter keep df)).
Proof.
  unfold df_columns. induction df as [|col df IH]; simpl; intros H; [constructor|].
  inversion H as [|n ns Hfresh Hrest]; subst.
  destruct (keep col); simpl; [constructor|]; auto.
  intros I. apply Hfresh. apply in_map_iff in I. destruct I as [c [E Hc]].
  apply filter_In in Hc. apply in_map_iff. exists c. tauto.
Qed.

Section EngineFacts.

Variable is_string_dtype : Series -> bool.
Variable to_numeric_str : string -> option Q.
Variable to_datetime : Series -> option (list (option Z)).
Variable repr_float : Q -> string.
Variable repr_time : Z -> string.
Variable re_letter_digit : string -> bool.
Variable re_email : string -> bool.
Variable re_uk_postcode : string -> bool.

Lemma check_outliers_iqr_ok (df : DataFrame) :
  Forall finding_ok (check_outliers_iqr to_numeric_str df).
Proof.
  apply Forall_flat_map. intros col. unfold outliers_of_column.
  destruct (is_numeric_dtype _); [|constructor].
  cbv zeta. destruct (_ <? 10)%nat; [constructor|].
  destruct (iqr_bounds _) as [lo hi].
  destruct (0 <? _)%nat; [|constructor].
  apply Forall_cons; [|constructor].
  apply finding_ok_norm. discriminate.
Qed.

Lemma check_rare_categories_ok (df : DataFrame) (min_ratio : Q) :
  Forall finding_ok
         (check_rare_categories is_string_dtype repr_float repr_time df min_ratio).
Proof.
  apply Forall_flat_map. intros col. unfold rare_of_column.
  destruct (_ || _); [|constructor].
  cbv zeta. destruct (0 <? _)%nat; [|constructor].
  apply Forall_cons; [|constructor].
  apply finding_ok_norm. discriminate.
Qed.

Lemma semantic_violation_ok (kind : string) (strict : string -> bool)
      (c : string) (sample : list string) :
  Forall finding_ok (semantic_violation kind strict c sample).
Proof.
  unfold semantic_violation. cbv zeta.
  destruct (Qltb _ _) eqn:B; [|constructor].
  apply Forall_cons; [|constructor].
  split; [discriminate|]. cbn [impact].
  apply py_min_unit. apply Qltb_true in B. lra.
Qed.

Lemma check_semantic_regex_ok (df : DataFrame) :
  Forall finding_ok
         (check_semantic_regex is_string_dtype repr_float repr_time
                               re_letter_digit re_email re_uk_postcode df).
Proof.
  apply Forall_flat_map. intros col. unfold semantic_of_column.
  destruct (is_string_dtype col); [|constructor].
  cbv zeta. destruct (_ =? 0)%nat; [constructor|].
  apply Forall_app. split.
  - destruct (Qltb _ _); [apply semantic_violation_ok | constructor].
  - destruct (Qltb _ _); [apply semantic_violation_ok | constructor].
Qed.

Lemma check_dates_ok (df : DataFrame) :
  Forall finding_ok (check_dates to_datetime df).
Proof.
  unfold check_dates. cbv zeta. apply Forall_app. split.
  - apply Forall_flat_map. intros [c s]. unfold invalid_dates.
    cbv zeta. destruct (0 <? _)%nat; [|constructor].
    apply Forall_cons; [|constructor].
    apply finding_ok_norm. discriminate.
  - unfold temporal_rule.
    destruct (Dict.get "order_date" _); [|constructor].
    destruct (Dict.get "ship_date" _); [|constructor].
    cbv zeta. destruct (0 <? _)%nat; [|constructor].
    apply Forall_cons; [|constructor].
    apply finding_ok_norm. discriminate.
Qed.

Lemma check_outliers_iqr_silent (df : DataFrame) :
  outlier_detections to_numeric_str df = O -> check_outliers_iqr to_numeric_str df = [].
Proof.
  intros H. apply flat_map_nil. intros col Hcol.
  assert (Hc : outlier_count to_numeric_str col = O).
  { apply (sum_nat_zero _ _ H). apply in_map. exact Hcol. }
  unfold outlier_count in Hc. unfold outliers_of_column.
  destruct (is_numeric_dtype _); [|reflexivity].
  cbv zeta in *. destruct (_ <? 10)%nat; [reflexivity|].
  destruct (iqr_bounds _) as [lo hi]. simpl in Hc. rewrite Hc. reflexivity.
Qed.

Lemma check_rare_categories_silent (df : DataFrame) (min_ratio : Q) :
  rare_detections is_string_dtype repr_float repr_time df min_ratio = O ->
  check_rare_categories is_string_dtype repr_float repr_time df min_ratio = [].
Proof.
  intros H. apply flat_map_nil. intros col Hcol.
  assert (Hc : rare_count is_string_dtype repr_float repr_time min_ratio col = O).
  { apply (sum_nat_zero _ _ H). apply (in_map (rare_count _ _ _ min_ratio)). exact Hcol. }
  unfold rare_count in Hc. unfold rare_of_column.
  destruct (_ || _); [|reflexivity].
  cbv zeta. rewrite Hc. reflexivity.
Qed.

Lemma semantic_violation_silent (kind : string) (looks strict : string -> bool)
      (c : string) (sample : list string) :
  pattern_fails looks strict sample = false ->
  (if Qltb (1 # 2) (mean_bool (map looks sample))
   then semantic_violation kind strict c sample else []) = [].
Proof.
  unfold pattern_fails, semantic_violation. intros H.
  destruct (Qltb (1 # 2) _); [|reflexivity].
  simpl in H. cbv zeta. rewrite H. reflexivity.
Qed.

Lemma check_semantic_regex_silent (df : DataFrame) :
  semantic_detections is_string_dtype repr_float repr_time
                      re_letter_digit re_email re_uk_postcode df = O ->
  check_semantic_regex is_string_dtype repr_float repr_time
                       re_letter_digit re_email re_uk_postcode df = [].
Proof.
  intros H. apply flat_map_nil. intros col Hcol.
  assert (Hc : semantic_count is_string_dtype repr_float repr_time
                              re_letter_digit re_email re_uk_postcode col = O).
  { apply (sum_nat_zero _ _ H).
    apply (in_map (semantic_count _ _ _ _ _ _)). exact Hcol. }
  unfold semantic_count in Hc. unfold semantic_of_column.
  destruct (is_string_dtype col); [|reflexivity].
  cbv zeta in *. destruct (_ =? 0)%nat; [reflexivity|].
  destruct (pattern_fails (Str.contains "@") _ _) eqn:P1; [simpl in Hc; lia|].
  destruct (pattern_fails re_letter_digit _ _) eqn:P2; [simpl in Hc; lia|].
  rewrite (semantic_violation_silent _ _ _ _ _ P1).
  rewrite (semantic_violation_silent _ _ _ _ _ P2). reflexivity.
Qed.

Lemma check_dates_silent (df : DataFrame) :
  date_detections to_datetime df = O -> check_dates to_datetime df = [].
Proof.
  unfold date_detections, check_dates. cbv zeta. intros H.
  rewrite flat_map_nil.
  - simpl. unfold temporal_rule. unfold inverted_pairs in H.
    destruct (Dict.get "order_date" _); [|reflexivity].
    destruct (Dict.get "ship_date" _); [|reflexivity].
    cbv zeta.
    match goal with |- context [(0 <? ?n)%nat] => replace n with O by lia end.
    reflexivity.
  - intros [c s] Hcs. unfold invalid_dates. cbv zeta.
    assert (Hc : count_nat s = O).
    { apply (sum_nat_zero (map (fun cs => count_nat (snd cs))
                               (parse_dates to_datetime df))); [lia|].
      apply (in_map (fun cs => count_nat (snd cs)) _ (c, s)). exact Hcs. }
    rewrite Hc. reflexivity.
Qed.

(** C2: every finding returned by any of the seven check functions has a
    non-empty issues list and an impact in the closed interval [0,1], and
    a check that has nothing to report (no detection counted from the
    data) returns no finding at all. *)
Theorem checks_emit_well_formed_findings
        (df : DataFrame) (baseline : option Baseline) (pk : list string) (min_ratio : Q) :
  check_contract (check_schema df baseline) (schema_detections df baseline) /\
  match check_primary_key df pk with
  | Ok findings => check_contract findings (primary_key_detections df pk)
  | Err _ => True
  end /\
  check_contract (check_missing_duplicates_types df) (missing_duplicates_detections df) /\
  check_contract (check_outliers_iqr to_numeric_str df)
                 (outlier_detections to_numeric_str df) /\
  check_contract (check_rare_categories is_string_dtype repr_float repr_time df min_ratio)
                 (rare_detections is_string_dtype repr_float repr_time df min_ratio) /\
  check_contract (check_semantic_regex is_string_dtype repr_float repr_time
                                       re_letter_digit re_email re_uk_postcode df)
                 (semantic_detections is_string_dtype repr_float repr_time
                                      re_letter_digit re_email re_uk_postcode df) /\
  check_contract (check_dates to_datetime df) (date_detections to_datetime df).
Proof.
  unfold check_contract.
  split; [split; [apply check_schema_ok | apply check_schema_silent]|].
  split.
  { pose proof (check_primary_key_ok df pk) as Hok.
    pose proof (check_primary_key_silent df pk) as Hs.
    destruct (check_primary_key df pk); [split; assumption | exact I]. }
  split; [split; [apply check_missing_duplicates_types_ok
                 | apply check_missing_duplicates_types_silent]|].
  split; [split; [apply check_outliers_iqr_ok | apply check_outliers_iqr_silent]|].
  split; [split; [apply check_rare_categories_ok | apply check_rare_categories_silent]|].
  split; [split; [apply check_semantic_regex_ok | apply check_semantic_regex_silent]|].
  split; [apply check_dates_ok | apply check_dates_silent].
Qed.

(** ** Absent optional inputs *)

(** C8: without a baseline the schema check returns no finding, with an
    empty key list the primary-key check returns no finding, and neither
    is an error. *)
Theorem absent_optional_inputs_are_noops (df : DataFrame) :
  check_schema df None = [] /\
  check_primary_key df [] = Ok [].
Proof.
  split; reflexivity.
Qed.

(** ** Dates *)

Lemma dict_set_fresh {V} (k : string) (v : V) (d : list (string * V)) :
  ~ In k (map fst d) -> Dict.set k v d = (d ++ [(k, v)])%list.
Proof.
  induction d as [|[k' v'] d IH]; simpl; intros H; [reflexivity|].
  destruct (String.eqb_spec k k') as [E|N].
  - exfalso. apply H. left. symmetry. exact E.
  - rewrite IH; [reflexivity|]. intros I. apply H. right. exact I.
Qed.

Lemma NoDup_map_injective {A B} (f : A -> B) (l : list A) (x y : A) :
  NoDup (map f l) -> In x l -> In y l -> f x = f y -> x = y.
Proof.
  induction l as [|z l IH]; simpl; intros H Hx Hy E; [tauto|].
  inversion H as [|? ? Hn Hr]; subst.
  destruct Hx as [Hx|Hx], Hy as [Hy|Hy]; subst; auto.
  - exfalso. apply Hn. rewrite E. apply in_map. exact Hy.
  - exfalso. apply Hn. rewrite <- E. apply in_map. exact Hx.
Qed.

Lemma in_filter_map {A B} (g : A -> option B) (l : list A) (b : B) :
  In b (filter_map g l) <-> exists a, In a l /\ g a = Some b.
Proof.
  induction l as [|x l IH]; simpl.
  - split; [tauto | intros [a [[] _]]].
  - destruct (g x) as [y|] eqn:G; simpl; rewrite IH; split.
    + intros [E|[a [Ha Ga]]]; [exists x; subst; auto | exists a; auto].
    + intros [a [[E|Ha] Ga]]; [left; congruence | right; eauto].
    + intros [a [Ha Ga]]. exists a. auto.
    + intros [a [[E|Ha] Ga]]; [congruence | eauto].
Qed.

Lemma parse_dates_fold (l : list Series) (acc : list (string * list (option Z))) :
  NoDup (map fst acc ++ map s_name l) ->
  fold_left (fun parsed col =>
               match to_datetime col with
               | Some s => Dict.set (s_name col) s parsed
               | None => parsed
               end) l acc
  = (acc ++ filter_map (parsed_entry to_datetime) l)%list.
Proof.
  revert acc. induction l as [|col l IH]; intros acc H; simpl.
  - rewrite app_nil_r. reflexivity.
  - simpl in H. unfold parsed_entry at 1.
    destruct (to_datetime col) as [s|].
    + rewrite dict_set_fresh.
      * rewrite IH.
        -- rewrite <- app_assoc. reflexivity.
        -- rewrite map_app, <- app_assoc. exact H.
      * apply NoDup_remove_2 in H. intros I. apply H. apply in_or_app. left. exact I.
    + apply IH. apply NoDup_remove_1 in H. exact H.
Qed.

Lemma parse_dates_entries (df : DataFrame) :
  NoDup (df_columns df) ->
  parse_dates to_datetime df = filter_map (parsed_entry to_datetime) (filter is_date_column df).
Proof.
  intros H. unfold parse_dates. rewrite parse_dates_fold; [reflexivity|].
  simpl. apply filter_columns_NoDup. exact H.
Qed.

Lemma temporal_rule_name (df : DataFrame) (parsed : list (string * list (option Z)))
      (r : CheckResult) (c : string) :
  In r (temporal_rule df parsed) -> name r <> ("Invalid Dates: " ++ c)%string.
Proof.
  unfold temporal_rule.
  destruct (Dict.get "order_date" parsed); [|intros []].
  destruct (Dict.get "ship_date" parsed); [|intros []].
  cbv zeta. destruct (0 <? _)%nat; [|intros []].
  intros [E|[]]. subst r. simpl. discriminate.
Qed.

(** C7: for every candidate date column (its name contains "date" in any
    letter case, or its dtype is temporal) whose coercion returns a
    series, the invalid count is the number of values coerced to NaT, and
    a finding named "Invalid Dates: <column>" is emitted if and only if
    that count is positive; such a finding is minor, records the count,
    and has impact normalize(invalid, max(10, 5% of the row count)). *)
Theorem check_dates_invalid_count (df : DataFrame) (col : Series) (s : list (option Z)) :
  NoDup (df_columns df) ->
  In col df ->
  is_date_column col = true ->
  to_datetime col = Some s ->
  let invalid := List.length (filter (fun v => negb (is_some v)) s) in
  let finding_name := ("Invalid Dates: " ++ s_name col)%string in
  ((0 < invalid)%nat <->
   exists r, In r (check_dates to_datetime df) /\ name r = finding_name) /\
  (forall r, In r (check_dates to_datetime df) -> name r = finding_name ->
             severity r = "minor"%string /\
             issues r = [[("invalid"%string, PNat invalid)]] /\
             impact r == normalize (Qnat invalid)
                                   (Qmax 10 ((5 # 100) * Qnat (df_len df)))).
Proof.
  intros Hnd Hin Hdate Hparse invalid finding_name.
  assert (Hcnt : count_nat s = invalid) by apply count_true_map.
  assert (Hentry : In (s_name col, s) (parse_dates to_datetime df)).
  { rewrite parse_dates_entries by exact Hnd. apply in_filter_map.
    exists col. split; [apply filter_In; auto|].
    unfold parsed_entry. rewrite Hparse. reflexivity. }
  assert (Hshape : forall r, In r (check_dates to_datetime df) ->
                             name r = finding_name ->
                             (0 < invalid)%nat /\
                             r = mkCheckResult finding_name "minor"
                                   [[("invalid"%string, PNat invalid)]]
                                   (norm (Qnat invalid)
                                         (py_max 10 (Qnat (df_len df) * (5 # 100))))).
  { intros r Hr Hname. unfold check_dates in Hr. cbv zeta in Hr.
    apply in_app_or in Hr. destruct Hr as [Hr|Hr].
    - apply in_flat_map in Hr. destruct Hr as [[c s'] [Hcs Hr]].
      unfold invalid_dates in Hr. cbv zeta in Hr.
      destruct (0 <? count_nat s')%nat eqn:Hpos; [|destruct Hr].
      destruct Hr as [Hr|[]]. subst r. simpl in Hname.
      unfold finding_name in Hname. simpl in Hname.
      injection Hname as Hc. subst c.
      rewrite parse_dates_entries in Hcs by exact Hnd.
      apply in_filter_map in Hcs. destruct Hcs as [col' [Hcol' Hentry']].
      unfold parsed_entry in Hentry'.
      destruct (to_datetime col') as [s''|] eqn:Hp'; [|discriminate].
      injection Hentry' as Hn Hs. subst s''.
      apply filter_In in Hcol'. destruct Hcol' as [Hcol' _].
      assert (col' = col)
        by (apply (NoDup_map_injective s_name df); auto).
      subst col'. rewrite Hparse in Hp'. injection Hp' as Hs. subst s'.
      rewrite Hcnt in *. apply Nat.ltb_lt in Hpos. split; [exact Hpos | reflexivity].
    - exfalso. exact (temporal_rule_name _ _ _ _ Hr Hname). }
  split; [split|].
  - intros Hpos.
    exists (mkCheckResult finding_name "minor" [[("invalid"%string, PNat invalid)]]
              (norm (Qnat invalid) (py_max 10 (Qnat (df_len df) * (5 # 100))))).
    split; [|reflexivity].
    unfold check_dates. cbv zeta. apply in_or_app. left.
    apply in_flat_map. exists (s_name col, s). split; [exact Hentry|].
    unfold invalid_dates. cbv zeta. rewrite Hcnt.
    apply Nat.ltb_lt in Hpos. rewrite Hpos. left. reflexivity.
  - intros [r [Hr Hname]]. apply (Hshape r Hr Hname).
  - intros r Hr Hname. destruct (Hshape r Hr Hname) as [_ ->].
    split; [reflexivity|]. split; [reflexivity|]. cbn [impact].
    apply norm_normalize. rewrite py_max_Qmax.
    rewrite (Qmult_comm (5 # 100)). reflexivity.
Qed.

(** ** The IQR example *)

(** C4: on the column 1, 2, ..., 9, 100 the quartiles are 3.25 and 7.75 (the
    linear interpolation between the neighbours of the virtual indices
    2.25 and 6.75), the IQR is 4.5, the bounds are -3.5 and 14.5, and the
    value 100, at row 9, is the one outlier; the bounds of any sample are
    Q1 - 1.5 iqr and Q3 + 1.5 iqr with iqr = max(Q3 - Q1, epsilon). *)
Theorem iqr_example :
  let s := map inject_Z iqr_sample in
  percentile s 25 == 3 + (1 # 4) * (4 - 3) /\
  percentile s 25 == 325 # 100 /\
  percentile s 75 == 775 # 100 /\
  iqr_of s == 45 # 10 /\
  fst (iqr_bounds s) == - (35 # 10) /\
  snd (iqr_bounds s) == 145 # 10 /\
  filter (outside (fst (iqr_bounds s)) (snd (iqr_bounds s))) s = [inject_Z 100] /\
  check_outliers_iqr to_numeric_str df_iqr
  = [mkCheckResult "IQR Outliers: x" "major"
       [[("count"%string, PInt 1); ("lo"%string, PFloat (-7 # 2));
         ("hi"%string, PFloat (29 # 2))]]
       (norm 1 (py_max 10 (10 * (5 # 100))))] /\
  (exists r info,
      enrich to_numeric_str df_iqr (check_outliers_iqr to_numeric_str df_iqr) = Ok [r] /\
      issues r = [info] /\
      Dict.get "row_indices" info = Some (PList [PInt 9])) /\
  (forall t : list Q,
      iqr_of t == Qmax (percentile t 75 - percentile t 25) EPS /\
      fst (iqr_bounds t) == percentile t 25 - (15 # 10) * iqr_of t /\
      snd (iqr_bounds t) == percentile t 75 + (15 # 10) * iqr_of t).
Proof.
  cbv zeta.
  repeat (split; [vm_compute; reflexivity|]).
  split.
  - eexists. eexists. split; [vm_compute; reflexivity|].
    split; reflexivity.
  - intros t. unfold iqr_of, iqr_bounds. cbv zeta. cbn [fst snd].
    pose proof (py_max_Qmax (percentile t 75 - percentile t 25) EPS) as M.
    split; [exact M|]. split.
    + apply Qplus_comp; [reflexivity|].
      apply Qopp_comp. apply Qmult_comp; reflexivity.
    + apply Qplus_comp; [reflexivity|].
      apply Qmult_comp; reflexivity.
Qed.

End EngineFacts.

(** ** The enrichment only attaches evidence *)

Lemma dict_get_set_other {V} (k k' : string) (v : V) (d : list (string * V)) :
  k' <> k -> Dict.get k' (Dict.set k v d) = Dict.get k' d.
Proof.
  intros N. induction d as [|[k0 v0] d IH]; simpl.
  - destruct (String.eqb_spec k' k); [contradiction | reflexivity].
  - destruct (String.eqb_spec k k0) as [E|E]; simpl.
    + subst k0. destruct (String.eqb_spec k' k); [contradiction | reflexivity].
    + rewrite IH. reflexivity.
Qed.

Lemma dict_keys_set {V} (k : string) (v : V) (d : list (string * V)) :
  Dict.keys (Dict.set k v d) = Dict.keys d \/
  Dict.keys (Dict.set k v d) = (Dict.keys d ++ [k])%list.
Proof.
  unfold Dict.keys. induction d as [|[k0 v0] d IH]; simpl.
  - right. reflexivity.
  - destruct (String.eqb k k0); simpl.
    + left. reflexivity.
    + destruct IH as [-> | ->]; [left | right]; reflexivity.
Qed.

Lemma assigns_keys_get (d d' : pydict) (k : string) :
  assigns_keys d d' -> ~ In k ENRICHMENT_KEYS -> Dict.get k d' = Dict.get k d.
Proof.
  intros H N. induction H as [|d' k0 v _ IH Hk]; [reflexivity|].
  rewrite dict_get_set_other; [exact IH|].
  intros E. subst k0. contradiction.
Qed.

Lemma assigns_keys_keys (d d' : pydict) :
  assigns_keys d d' ->
  exists added, Dict.keys d' = (Dict.keys d ++ added)%list /\ incl added ENRICHMENT_KEYS.
Proof.
  induction 1 as [|d' k v _ [added [E I]] Hk].
  - exists []. rewrite app_nil_r. split; [reflexivity | intros ? []].
  - destruct (dict_keys_set k v d') as [-> | ->].
    + exists added. auto.
    + exists (added ++ [k])%list. rewrite E, app_assoc. split; [reflexivity|].
      apply incl_app; [exact I|]. intros ? [<-|[]]. exact Hk.
Qed.

Lemma dict_set_app_fresh {V} (k : string) (v : V) (d e : list (string * V)) :
  ~ In k (Dict.keys d) -> Dict.set k v (d ++ e) = (d ++ Dict.set k v e)%list.
Proof.
  unfold Dict.keys. induction d as [|[k0 v0] d IH]; simpl; intros N; [reflexivity|].
  destruct (String.eqb_spec k k0) as [E|E].
  - exfalso. apply N. left. symmetry. exact E.
  - rewrite IH; [reflexivity|]. intros I. apply N. right. exact I.
Qed.

Lemma assigns_keys_extends (d d' : pydict) :
  assigns_keys d d' ->
  Forall (fun k => ~ In k ENRICHMENT_KEYS) (Dict.keys d) ->
  exists extra, d' = (d ++ extra)%list.
Proof.
  intros H F. induction H as [|d' k v _ [extra ->] Hk].
  - exists []. rewrite app_nil_r. reflexivity.
  - exists (Dict.set k v extra). apply dict_set_app_fresh.
    intros I. rewrite Forall_forall in F. exact (F k I Hk).
Qed.

Lemma assigns_keys_trans (d1 d2 d3 : pydict) :
  assigns_keys d1 d2 -> assigns_keys d2 d3 -> assigns_keys d1 d3.
Proof.
  intros H12 H23. induction H23; [exact H12|].
  apply assigns_one; assumption.
Qed.

Lemma step_frame_refl (r : CheckResult) : step_frame r r.
Proof. unfold step_frame. repeat split. constructor. Qed.

Lemma step_frame_trans (r1 r2 r3 : CheckResult) :
  step_frame r1 r2 -> step_frame r2 r3 -> step_frame r1 r3.
Proof.
  intros (N1 & S1 & I1 & L1 & T1 & A1) (N2 & S2 & I2 & L2 & T2 & A2).
  unfold step_frame. repeat split; try congruence.
  eapply assigns_keys_trans; eassumption.
Qed.

Lemma set_first_issue_frame (k : string) (v : pyval) (r : CheckResult) :
  In k ENRICHMENT_KEYS -> step_frame r (set_first_issue k v r).
Proof.
  intros Hk. unfold set_first_issue, step_frame, first_issue.
  destruct (issues r) as [|info rest] eqn:E; simpl.
  - rewrite E. repeat split. constructor.
  - repeat split. apply assigns_one; [constructor | exact Hk].
Qed.

Lemma attach_duplicates_frame (df : DataFrame) (idx : list nat) (r : CheckResult) :
  step_frame r (attach_duplicates df idx r).
Proof.
  unfold attach_duplicates.
  eapply step_frame_trans; [|apply set_first_issue_frame; simpl; tauto].
  eapply step_frame_trans; [|apply set_first_issue_frame; simpl; tauto].
  apply set_first_issue_frame; simpl; tauto.
Qed.

Lemma attach_outliers_frame (col : string) (lo hi : Q) (hits : list (nat * Q))
      (r : CheckResult) :
  step_frame r (attach_outliers col lo hi hits r).
Proof.
  unfold attach_outliers.
  eapply step_frame_trans; [|apply set_first_issue_frame; simpl; tauto].
  eapply step_frame_trans; [|apply set_first_issue_frame; simpl; tauto].
  eapply step_frame_trans; [|apply set_first_issue_frame; simpl; tauto].
  apply set_first_issue_frame; simpl; tauto.
Qed.

Lemma enrich_duplicates_frame (df : DataFrame) (results : list CheckResult) :
  Forall2 (fun r r' => step_frame r r' /\ (name r <> "Duplicate Rows"%string -> r' = r))
          results (enrich_duplicates df results).
Proof.
  assert (Same : forall l : list CheckResult,
            Forall2 (fun r r' => step_frame r r' /\
                                 (name r <> "Duplicate Rows"%string -> r' = r)) l l).
  { induction l; constructor; auto. split; [apply step_frame_refl | reflexivity]. }
  unfold enrich_duplicates. cbv zeta.
  destruct (nonempty _); [|apply Same].
  induction results as [|r rest IH]; simpl; [constructor|].
  destruct (String.eqb_spec (name r) "Duplicate Rows") as [E|N]; simpl.
  - destruct (nonempty (issues r)).
    + constructor; [|apply Same].
      split; [apply attach_duplicates_frame | congruence].
    + constructor; [|exact IH]. split; [apply step_frame_refl | reflexivity].
  - constructor; [|exact IH]. split; [apply step_frame_refl | reflexivity].
Qed.

Lemma mapM_Forall2 {A B} (R : A -> B -> Prop) (f : A -> result B)
      (l : list A) (l' : list B) :
  (forall x y, f x = Ok y -> R x y) -> mapM f l = Ok l' -> Forall2 R l l'.
Proof.
  intros H. revert l'. induction l as [|x l IH]; simpl; intros l' E.
  - injection E as <-. constructor.
  - destruct (f x) as [y|e] eqn:F; simpl in E; [|discriminate].
    destruct (mapM f l) as [ys|e]; simpl in E; [|discriminate].
    injection E as <-. constructor; auto.
Qed.

Lemma Forall2_compose {A B C} (R1 : A -> B -> Prop) (R2 : B -> C -> Prop)
      (l : list A) (m : list B) (n : list C) :
  Forall2 R1 l m -> Forall2 R2 m n ->
  Forall2 (fun x z => exists y, R1 x y /\ R2 y z) l n.
Proof.
  intros H. revert n. induction H as [|x y l m Hxy _ IH]; intros n Hn.
  - inversion Hn. constructor.
  - inversion Hn as [|? z ? n' Hyz Hrest]; subst. constructor; eauto.
Qed.

Lemma enrich_outlier_frame (to_numeric_str : string -> option Q)
      (df : DataFrame) (r r' : CheckResult) :
  enrich_outlier to_numeric_str df r = Ok r' ->
  step_frame r r' /\ (Str.startswith (name r) "IQR Outliers" = false -> r' = r).
Proof.
  unfold enrich_outlier.
  destruct (Str.startswith (name r) "IQR Outliers").
  - intros E. split; [|discriminate].
    destruct (column_of_name (name r)) as [col|].
    + destruct (_ && _).
      * destruct (df_get df col) as [series|]; simpl in E; [|discriminate].
        destruct (as_number (Dict.get "lo" _)) as [lo|]; simpl in E; [|discriminate].
        destruct (as_number (Dict.get "hi" _)) as [hi|]; simpl in E; [|discriminate].
        injection E as <-. apply attach_outliers_frame.
      * injection E as <-. apply step_frame_refl.
    + injection E as <-. apply step_frame_refl.
  - intros E. injection E as <-. split; [apply step_frame_refl | reflexivity].
Qed.

(** C9: when the enrichment stage returns, every finding keeps its name,
    severity and impact; only the first issue record of a "Duplicate Rows"
    finding or of a finding whose name starts with "IQR Outliers" may
    differ, and there the keys already present stay, the keys added are
    enrichment keys, every other key keeps its value, and a record that
    held no enrichment key is only extended; all other findings are
    returned unchanged. *)
Theorem enrichment_is_additive (to_numeric_str : string -> option Q)
        (df : DataFrame) (results results' : list CheckResult) :
  enrich to_numeric_str df results = Ok results' ->
  Forall2 enriched_from results results'.
Proof.
  unfold enrich, enrich_outliers. intros E.
  pose proof (enrich_duplicates_frame df results) as H1.
  pose proof (mapM_Forall2 _ _ _ _ (enrich_outlier_frame to_numeric_str df) E) as H2.
  pose proof (Forall2_compose _ _ _ _ _ H1 H2) as H.
  eapply Forall2_impl; [|exact H].
  intros r r' (m & [F1 U1] & [F2 U2]).
  pose proof (step_frame_trans _ _ _ F1 F2) as (N & S & I & L & T & A).
  unfold enriched_from. repeat (split; [assumption|]).
  split; [apply assigns_keys_keys; exact A|].
  split; [intros k Hk; apply assigns_keys_get; assumption|].
  split.
  - apply assigns_keys_extends. exact A.
  - intros Hd Hq. rewrite <- (U1 Hd). apply U2.
    rewrite (U1 Hd). exact Hq.
Qed.


(** ** Groups of equal rows *)

Lemma filter_length_le {A} (f g : A -> bool) (l : list A) :
  (forall y, In y l -> f y = true -> g y = true) ->
  (List.length (filter f l) <= List.length (filter g l))%nat.
Proof.
  induction l as [|y l IH]; simpl; intros H; [lia|].
  assert (IH' : (List.length (filter f l) <= List.length (filter g l))%nat)
    by (apply IH; intros; apply H; auto).
  destruct (f y) eqn:F.
  - rewrite (H y (or_introl eq_refl) F). simpl. lia.
  - destruct (g y); simpl; lia.
Qed.

Lemma filter_length_lt {A} (f g : A -> bool) (l : list A) (x : A) :
  (forall y, In y l -> f y = true -> g y = true) ->
  In x l -> f x = false -> g x = true ->
  (List.length (filter f l) < List.length (filter g l))%nat.
Proof.
  induction l as [|y l IH]; simpl; intros H Hx Fx Gx; [tauto|].
  assert (Hl : forall y, In y l -> f y = true -> g y = true)
    by (intros; apply H; auto).
  destruct Hx as [E|Hx].
  - subst y. rewrite Fx, Gx. simpl.
    pose proof (filter_length_le f g l Hl). lia.
  - specialize (IH Hl Hx Fx Gx).
    destruct (f y) eqn:F.
    + rewrite (H y (or_introl eq_refl) F). simpl. lia.
    + destruct (g y); simpl; lia.
Qed.

Lemma filter_map_swap {A B} (f : B -> bool) (g : A -> B) (l : list A) :
  filter f (map g l) = map g (filter (fun x => f (g x)) l).
Proof.
  induction l as [|x l IH]; simpl; [reflexivity|].
  destruct (f (g x)); simpl; rewrite IH; reflexivity.
Qed.

Lemma mask_index_cons (b : bool) (m : list bool) :
  mask_index (b :: m) = ((if b then [O] else []) ++ map S (mask_index m))%list.
Proof.
  unfold mask_index. simpl List.length. rewrite <- cons_seq, <- seq_shift.
  simpl filter. rewrite filter_map_swap. simpl. destruct b; reflexivity.
Qed.

Lemma in_mask_index (m : list bool) (i : nat) :
  In i (mask_index m) <-> (i < List.length m)%nat /\ nth i m false = true.
Proof.
  unfold mask_index. rewrite filter_In, in_seq. intuition lia.
Qed.

Lemma select_mask_cons {A} (b : bool) (m : list bool) (x : A) (l : list A) :
  select_mask (b :: m) (x :: l) = if b then x :: select_mask m l else select_mask m l.
Proof. unfold select_mask. simpl. destruct b; reflexivity. Qed.

Lemma select_mask_pred {A} (p : A -> bool) (l : list A) :
  select_mask (map p l) l = filter p l.
Proof.
  induction l as [|x l IH]; [reflexivity|].
  simpl map. rewrite select_mask_cons. simpl. rewrite IH. reflexivity.
Qed.

Lemma select_mask_index {A} (d : A) (m : list bool) (l : list A) :
  List.length m = List.length l ->
  map (fun i => nth i l d) (mask_index m) = select_mask m l.
Proof.
  revert l. induction m as [|b m IH]; intros [|x l] E; try discriminate E.
  - reflexivity.
  - rewrite mask_index_cons, select_mask_cons, map_app, map_map. simpl in E.
    simpl. rewrite IH by lia. destruct b; reflexivity.
Qed.

Section GroupCounts.

Context {A : Type} (eqb : A -> A -> bool) (d : A).
Hypothesis eqb_refl : forall x, eqb x x = true.
Hypothesis eqb_sym : forall x y, eqb x y = eqb y x.
Hypothesis eqb_trans : forall x y z, eqb x y = true -> eqb y z = true -> eqb x z = true.

Lemma eqb_congr (x y z : A) : eqb x y = true -> eqb x z = eqb y z.
Proof.
  intros E. destruct (eqb y z) eqn:F.
  - apply (eqb_trans x y z); assumption.
  - destruct (eqb x z) eqn:G; [|reflexivity].
    rewrite <- F. symmetry. apply (eqb_trans y x z); [rewrite eqb_sym|]; assumption.
Qed.

Lemma occurrences_congr (x y : A) (l : list A) :
  eqb x y = true -> occurrences eqb x l = occurrences eqb y l.
Proof.
  intros E. unfold occurrences. f_equal. apply filter_ext.
  intros z. apply eqb_congr. exact E.
Qed.

(** Among the rows the [keep="first"] mask selects, a value seen before
    the scan keeps all its occurrences, any other loses its first. *)
Lemma scan_group_count (x : A) (l seen : list A) :
  occurrences eqb x (select_mask (duplicated_scan eqb seen l) l)
  = if existsb (eqb x) seen then occurrences eqb x l
    else Nat.pred (occurrences eqb x l).
Proof.
  revert seen. induction l as [|y l IH]; intros seen.
  - simpl. destruct (existsb _ _); reflexivity.
  - simpl duplicated_scan. rewrite select_mask_cons.
    assert (Hy : eqb x y = true -> existsb (eqb y) seen = existsb (eqb x) seen).
    { intros E. induction seen as [|z seen IHs]; simpl; [reflexivity|].
      rewrite IHs. f_equal. symmetry. apply eqb_congr. exact E. }
    unfold occurrences in *. simpl filter.
    destruct (eqb x y) eqn:E.
    + rewrite (Hy eq_refl).
      destruct (existsb (eqb x) seen) eqn:S; simpl; rewrite ?E; simpl;
        rewrite IH; simpl; rewrite E; reflexivity.
    + destruct (existsb (eqb y) seen); simpl; rewrite ?E; rewrite IH; simpl;
        rewrite E; reflexivity.
Qed.

Lemma first_group_count (x : A) (l : list A) :
  occurrences eqb x (select_mask (duplicated_first eqb l) l)
  = Nat.pred (occurrences eqb x l).
Proof. unfold duplicated_first. rewrite scan_group_count. reflexivity. Qed.

Lemma filter_filter_implied (p : A -> bool) (x : A) (l : list A) :
  (forall y, In y l -> eqb x y = true -> p y = true) ->
  filter (eqb x) (filter p l) = filter (eqb x) l.
Proof.
  induction l as [|y l IH]; simpl; intros H; [reflexivity|].
  assert (IH' : filter (eqb x) (filter p l) = filter (eqb x) l)
    by (apply IH; intros; apply H; auto).
  destruct (eqb x y) eqn:E.
  - rewrite (H y (or_introl eq_refl) E). simpl. rewrite E, IH'. reflexivity.
  - destruct (p y); simpl; rewrite ?E; exact IH'.
Qed.

(** Among the rows the [keep=False] mask selects, a value that occurs at
    least twice keeps all its occurrences. *)
Lemma all_group_count (x : A) (l : list A) :
  (2 <= occurrences eqb x l)%nat ->
  occurrences eqb x (select_mask (duplicated_all eqb l) l) = occurrences eqb x l.
Proof.
  intros H. unfold duplicated_all. rewrite select_mask_pred.
  unfold occurrences at 1 3. f_equal.
  apply filter_filter_implied. intros y _ E.
  apply Nat.leb_le. rewrite <- (occurrences_congr x y l E). exact H.
Qed.

Lemma filter_hit (p : A -> bool) (l : list A) (i : nat) :
  (i < List.length l)%nat -> p (nth i l d) = true ->
  (1 <= List.length (filter p l))%nat.
Proof.
  intros Hi Hp.
  assert (I : In (nth i l d) (filter p l))
    by (apply filter_In; split; [apply nth_In; exact Hi | exact Hp]).
  destruct (filter p l); [destruct I | simpl; lia].
Qed.

Lemma filter_two_hits (p : A -> bool) (l : list A) (i j : nat) :
  (i < j)%nat -> (j < List.length l)%nat ->
  p (nth i l d) = true -> p (nth j l d) = true ->
  (2 <= List.length (filter p l))%nat.
Proof.
  revert i j. induction l as [|y l IH]; intros i j Hij Hj Pi Pj; simpl in Hj; [lia|].
  destruct j as [|j]; [lia|]. destruct i as [|i]; simpl in Pi, Pj.
  - simpl. rewrite Pi. simpl.
    pose proof (filter_hit p l j ltac:(lia) Pj). lia.
  - pose proof (IH i j ltac:(lia) ltac:(lia) Pi Pj).
    simpl. destruct (p y); simpl; lia.
Qed.

Lemma duplicated_all_length (l : list A) :
  List.length (duplicated_all eqb l) = List.length l.
Proof. unfold duplicated_all. apply length_map. Qed.

Lemma duplicated_all_nth (l : list A) (i : nat) :
  (i < List.length l)%nat ->
  nth i (duplicated_all eqb l) false = (2 <=? occurrences eqb (nth i l d) l)%nat.
Proof.
  intros Hi. unfold duplicated_all.
  rewrite (nth_indep _ false ((2 <=? occurrences eqb d l)%nat))
    by (rewrite length_map; exact Hi).
  rewrite (map_nth (fun x => (2 <=? occurrences eqb x l)%nat)). reflexivity.
Qed.

(** Two positions with equal values are both selected by [keep=False]. *)
Lemma duplicated_all_at (l : list A) (i j : nat) :
  (i < List.length l)%nat -> (j < List.length l)%nat -> i <> j ->
  eqb (nth i l d) (nth j l d) = true ->
  nth i (duplicated_all eqb l) false = true.
Proof.
  intros Hi Hj N E. rewrite duplicated_all_nth by exact Hi.
  apply Nat.leb_le. unfold occurrences.
  destruct (Nat.lt_total i j) as [L|[L|L]]; [|contradiction|].
  - apply (filter_two_hits _ l i j); auto.
  - apply (filter_two_hits _ l j i); auto.
Qed.

Lemma dup_first_at_true (l : list A) (i : nat) :
  dup_first_at eqb d l i = true <->
  exists j, (j < i)%nat /\ eqb (nth i l d) (nth j l d) = true.
Proof.
  unfold dup_first_at. rewrite existsb_exists. split.
  - intros [j [Hj E]]. apply in_seq in Hj. exists j. split; [lia | exact E].
  - intros [j [Hj E]]. exists j. split; [apply in_seq; lia | exact E].
Qed.

(** Every group has a first member, which [keep="first"] leaves unmarked. *)
Lemma first_occurrence (l : list A) (j : nat) :
  forall i, (i < j)%nat -> eqb (nth i l d) (nth j l d) = true ->
  exists p, (p <= i)%nat /\ eqb (nth p l d) (nth j l d) = true /\
            dup_first_at eqb d l p = false.
Proof.
  induction i as [i IH] using lt_wf_ind. intros Hij E.
  destruct (dup_first_at eqb d l i) eqn:F.
  - apply dup_first_at_true in F. destruct F as [q [Hq Eq]].
    destruct (IH q Hq ltac:(lia)) as [p [Hp [Ep Fp]]].
    + apply (eqb_trans _ (nth i l d)); [rewrite eqb_sym; exact Eq | exact E].
    + exists p. split; [lia | auto].
  - exists i. auto.
Qed.

(** With at least one repeated value, [keep=False] selects strictly more
    positions than [keep="first"] marks. *)
Lemma more_positions_than_repeats (l : list A) (i j : nat) :
  (i < j)%nat -> (j < List.length l)%nat ->
  eqb (nth i l d) (nth j l d) = true ->
  (count_true (duplicated_first eqb l)
   < List.length (mask_index (duplicated_all eqb l)))%nat.
Proof.
  intros Hij Hj E.
  rewrite (count_duplicated_first eqb d). unfold earlier_count, mask_index.
  rewrite duplicated_all_length.
  destruct (first_occurrence l j i Hij E) as [p [Hp [Ep Fp]]].
  apply (filter_length_lt _ _ _ p).
  - intros y Hy Fy. apply in_seq in Hy. apply dup_first_at_true in Fy.
    destruct Fy as [q [Hq Eq]].
    apply (duplicated_all_at l y q); auto; lia.
  - apply in_seq. lia.
  - exact Fp.
  - apply (duplicated_all_at l p j); auto; lia.
Qed.

End GroupCounts.

(** ** Row equality is an equivalence *)

Lemma Qeq_bool_sym (x y : Q) : Qeq_bool x y = Qeq_bool y x.
Proof.
  apply eq_true_iff_eq. rewrite !Qeq_bool_iff. split; intros E; symmetry; exact E.
Qed.

Lemma cell_eqb_refl (a : cell) : cell_eqb a a = true.
Proof.
  destruct a; simpl; auto using Z.eqb_refl, String.eqb_refl.
  apply Qeq_bool_iff. reflexivity.
Qed.

Lemma cell_eqb_sym (a b : cell) : cell_eqb a b = cell_eqb b a.
Proof.
  destruct a, b; simpl; auto using Z.eqb_sym, String.eqb_sym, Qeq_bool_sym.
Qed.

Lemma cell_eqb_trans (a b c : cell) :
  cell_eqb a b = true -> cell_eqb b c = true -> cell_eqb a c = true.
Proof.
  destruct a, b, c; simpl; try discriminate; try reflexivity;
    rewrite ?Z.eqb_eq, ?Qeq_bool_iff, ?String.eqb_eq; intros H1 H2;
    try congruence;
    try (subst; assumption);
    try (rewrite H1; exact H2);
    try (rewrite <- H2; exact H1);
    try (apply inject_Z_injective; rewrite H1; exact H2).
Qed.

Lemma row_eqb_refl (r : list cell) : row_eqb r r = true.
Proof.
  induction r as [|a r IH]; simpl; [reflexivity|].
  rewrite cell_eqb_refl, IH. reflexivity.
Qed.

Lemma row_eqb_sym (r1 r2 : list cell) : row_eqb r1 r2 = row_eqb r2 r1.
Proof.
  revert r2. induction r1 as [|a r1 IH]; intros [|b r2]; simpl; try reflexivity.
  rewrite cell_eqb_sym, IH. reflexivity.
Qed.

Lemma row_eqb_trans (r1 r2 r3 : list cell) :
  row_eqb r1 r2 = true -> row_eqb r2 r3 = true -> row_eqb r1 r3 = true.
Proof.
  revert r2 r3. induction r1 as [|a r1 IH]; intros [|b r2] [|c r3]; simpl;
    try discriminate; try reflexivity.
  rewrite !andb_true_iff. intros [H1 H1'] [H2 H2']. split.
  - eapply cell_eqb_trans; eassumption.
  - eapply IH; eassumption.
Qed.

(** ** The evidence attached to "Duplicate Rows" *)

Lemma plain_name_bounds (r : CheckResult) : plain_name r -> bounds_recorded r.
Proof. intros [_ H] S. rewrite H in S. discriminate. Qed.

Lemma check_schema_plain (df : DataFrame) (baseline : option Baseline) :
  Forall plain_name (check_schema df baseline).
Proof.
  unfold check_schema.
  destruct (negb (truthy baseline)); [constructor|].
  cbv zeta.
  repeat match goal with
         | |- context [if nonempty ?l then _ else _] => destruct (nonempty l)
         end;
    repeat (apply Forall_app; split);
    repeat (apply Forall_cons; [split; [discriminate | reflexivity]|]);
    apply Forall_nil.
Qed.

Lemma check_primary_key_plain (df : DataFrame) (pk : list string) (fs : list CheckResult) :
  check_primary_key df pk = Ok fs -> Forall plain_name fs.
Proof.
  unfold check_primary_key.
  destruct (negb (nonempty pk)); [intros E; injection E as <-; constructor|].
  destruct (subset_rows df pk) as [keys|e]; simpl; [|discriminate].
  destruct (0 <? _)%nat; intros E; injection E as <-; [|constructor].
  apply Forall_cons; [split; [discriminate | reflexivity] | constructor].
Qed.

Lemma length_select_mask {A} (m : list bool) (l : list A) :
  List.length m = List.length l ->
  List.length (select_mask m l) = count_true m.
Proof.
  revert l. induction m as [|b m IH]; intros [|x l] E; try discriminate E.
  - reflexivity.
  - rewrite select_mask_cons. simpl in E. unfold count_true in *. simpl.
    destruct b; simpl; rewrite IH by lia; reflexivity.
Qed.

Lemma all_rows_length (df : DataFrame) : List.length (all_rows df) = df_len df.
Proof. unfold all_rows, rows_of. rewrite length_map, length_seq. reflexivity. Qed.

(** The shape of the missing/duplicates check when some row is repeated. *)
Lemma check_missing_duplicates_types_shape (df : DataFrame) :
  (0 < count_true (duplicated_first row_eqb (all_rows df)))%nat ->
  exists pre imp,
    Forall plain_name pre /\
    check_missing_duplicates_types df
    = (pre ++ [mkCheckResult "Duplicate Rows" "major"
                 [[("duplicates"%string,
                    PNat (count_true (duplicated_first row_eqb (all_rows df))))]]
                 imp])%list.
Proof.
  intros H. unfold check_missing_duplicates_types. cbv zeta.
  apply Nat.ltb_lt in H. rewrite H.
  destruct (0 <? List.length _)%nat.
  - eexists. eexists. split; [|reflexivity].
    apply Forall_cons; [split; [discriminate | reflexivity] | constructor].
  - exists []. eexists. split; [constructor | reflexivity].
Qed.

Lemma enrich_duplicates_loop_app (df : DataFrame) (idx : list nat)
      (pre post : list CheckResult) (r : CheckResult) :
  Forall plain_name pre ->
  name r = "Duplicate Rows"%string -> issues r <> [] ->
  enrich_duplicates_loop df idx (pre ++ r :: post)
  = (pre ++ attach_duplicates df idx r :: post)%list.
Proof.
  intros Hpre Hn Hi. induction Hpre as [|x pre [Hx _] _ IH]; simpl.
  - rewrite Hn. simpl. destruct (issues r); [congruence | reflexivity].
  - destruct (String.eqb_spec (name x) "Duplicate Rows"); [contradiction|].
    simpl. rewrite IH. reflexivity.
Qed.

Lemma has_column_get (df : DataFrame) (c : string) :
  has_column df c = true -> exists col, df_get df c = Ok col.
Proof.
  unfold has_column. rewrite existsb_exists. intros [x [Hx E]].
  apply String.eqb_eq in E. subst x. apply df_get_in. exact Hx.
Qed.

Lemma mapM_total {A B} (f : A -> result B) (l : list A) :
  Forall (fun x => exists y, f x = Ok y) l -> exists l', mapM f l = Ok l'.
Proof.
  induction 1 as [|x l [y Hy] _ [l' IH]]; simpl; [eauto|].
  rewrite Hy. simpl. rewrite IH. simpl. eauto.
Qed.

Lemma mapM_in {A B} (f : A -> result B) (l : list A) (l' : list B) (x : A) (y : B) :
  mapM f l = Ok l' -> In x l -> f x = Ok y -> In y l'.
Proof.
  revert l'. induction l as [|a l IH]; simpl; intros l' E Hx Fx; [tauto|].
  destruct (f a) as [b|] eqn:Fa; simpl in E; [|discriminate].
  destruct (mapM f l) as [bs|]; simpl in E; [|discriminate].
  injection E as <-. destruct Hx as [->|Hx].
  - left. congruence.
  - right. eapply IH; eauto.
Qed.

Lemma nonempty_longer {A} (l : list A) (n : nat) :
  (n < List.length l)%nat -> nonempty l = true.
Proof. destruct l; simpl; [lia | reflexivity]. Qed.

Section AuditFacts.

Variable is_string_dtype : Series -> bool.
Variable to_numeric_str : string -> option Q.
Variable to_datetime : Series -> option (list (option Z)).
Variable repr_float : Q -> string.
Variable repr_time : Z -> string.
Variable re_letter_digit : string -> bool.
Variable re_email : string -> bool.
Variable re_uk_postcode : string -> bool.

Lemma enrich_outlier_total (df : DataFrame) (r : CheckResult) :
  bounds_recorded r -> exists r', enrich_outlier to_numeric_str df r = Ok r'.
Proof.
  intros H. unfold enrich_outlier, bounds_recorded in *.
  destruct (Str.startswith (name r) "IQR Outliers"); [|eauto].
  destruct (H eq_refl) as [lo [hi [Hlo Hhi]]].
  destruct (column_of_name (name r)) as [col|]; [|eauto].
  destruct (_ && _) eqn:C; [|eauto].
  apply andb_true_iff in C. destruct C as [C _].
  apply andb_true_iff in C. destruct C as [_ C].
  destruct (has_column_get df col C) as [series ->].
  unfold first_issue in *. simpl. rewrite Hlo, Hhi. simpl. eauto.
Qed.

Lemma check_outliers_iqr_bounds (df : DataFrame) :
  Forall bounds_recorded (check_outliers_iqr to_numeric_str df).
Proof.
  apply Forall_flat_map. intros col. unfold outliers_of_column.
  destruct (is_numeric_dtype _); [|constructor].
  cbv zeta. destruct (_ <? 10)%nat; [constructor|].
  destruct (iqr_bounds _) as [lo hi].
  destruct (0 <? _)%nat; [|constructor].
  apply Forall_cons; [|constructor].
  intros _. exists (Qred lo), (Qred hi). split; reflexivity.
Qed.

Lemma check_rare_categories_plain (df : DataFrame) (min_ratio : Q) :
  Forall plain_name
         (check_rare_categories is_string_dtype repr_float repr_time df min_ratio).
Proof.
  apply Forall_flat_map. intros col. unfold rare_of_column.
  destruct (_ || _); [|constructor].
  cbv zeta. destruct (0 <? _)%nat; [|constructor].
  apply Forall_cons; [split; [discriminate | reflexivity] | constructor].
Qed.

Lemma check_semantic_regex_plain (df : DataFrame) :
  Forall plain_name
         (check_semantic_regex is_string_dtype repr_float repr_time
                               re_letter_digit re_email re_uk_postcode df).
Proof.
  apply Forall_flat_map. intros col. unfold semantic_of_column.
  destruct (is_string_dtype col); [|constructor].
  cbv zeta. destruct (_ =? 0)%nat; [constructor|].
  apply Forall_app. split.
  - destruct (Qltb _ _); [|constructor]. unfold semantic_violation. cbv zeta.
    destruct (Qltb _ _); [|constructor].
    apply Forall_cons; [split; [discriminate | reflexivity] | constructor].
  - destruct (Qltb _ _); [|constructor]. unfold semantic_violation. cbv zeta.
    destruct (Qltb _ _); [|constructor].
    apply Forall_cons; [split; [discriminate | reflexivity] | constructor].
Qed.

Lemma check_dates_plain (df : DataFrame) :
  Forall plain_name (check_dates to_datetime df).
Proof.
  unfold check_dates. cbv zeta. apply Forall_app. split.
  - apply Forall_flat_map. intros [c s]. unfold invalid_dates.
    cbv zeta. destruct (0 <? _)%nat; [|constructor].
    apply Forall_cons; [split; [discriminate | reflexivity] | constructor].
  - unfold temporal_rule.
    destruct (Dict.get "order_date" _); [|constructor].
    destruct (Dict.get "ship_date" _); [|constructor].
    cbv zeta. destruct (0 <? _)%nat; [|constructor].
    apply Forall_cons; [split; [discriminate | reflexivity] | constructor].
Qed.

(** C10: when some row of the dataset is an exact duplicate of another,
    the audit's enriched "Duplicate Rows" finding lists in row_indices
    every position whose row occurs elsewhere too (first occurrences
    included), while its duplicates count is the number of rows repeating
    an earlier one: a row occurring k >= 2 times accounts for k entries of
    row_indices and for k-1 of the count, so row_indices is strictly
    longer than the count. *)
Theorem duplicate_rows_evidence
        (df : DataFrame) (baseline : option Baseline) (results : list CheckResult)
        (i j : nat) :
  (i < j)%nat -> (j < df_len df)%nat ->
  row_eqb (nth i (all_rows df) []) (nth j (all_rows df) []) = true ->
  run_checks is_string_dtype to_numeric_str to_datetime repr_float repr_time
             re_letter_digit re_email re_uk_postcode df baseline = Ok results ->
  let rows := all_rows df in
  let counted := select_mask (duplicated_first row_eqb rows) rows in
  exists results' r info dups idx,
    enrich to_numeric_str df results = Ok results' /\
    In r results' /\ name r = "Duplicate Rows"%string /\ issues r = [info] /\
    Dict.get "duplicates" info = Some (PNat dups) /\
    Dict.get "row_indices" info = Some (PList (map PNat idx)) /\
    (forall a b, (a < df_len df)%nat -> (b < df_len df)%nat -> a <> b ->
                 row_eqb (nth a rows []) (nth b rows []) = true ->
                 In a idx /\ In b idx) /\
    dups = List.length counted /\
    (forall x, (2 <= occurrences row_eqb x rows)%nat ->
               occurrences row_eqb x (map (fun p => nth p rows []) idx)
               = occurrences row_eqb x rows /\
               occurrences row_eqb x counted
               = (occurrences row_eqb x rows - 1)%nat) /\
    (dups < List.length idx)%nat.
Proof.
  intros Hij Hj Heq Hrun rows counted.
  set (dups := count_true (duplicated_first row_eqb rows)).
  set (idx := mask_index (duplicated_all row_eqb rows)).
  pose proof (all_rows_length df) as Hlen. fold rows in Hlen, Heq.
  assert (Hlt : (dups < List.length idx)%nat).
  { apply (more_positions_than_repeats row_eqb [] row_eqb_refl row_eqb_sym
             row_eqb_trans rows i j); [exact Hij | lia | exact Heq]. }
  assert (Hpos : (0 < dups)%nat).
  { unfold dups. rewrite (count_duplicated_first row_eqb []). unfold earlier_count.
    assert (I : In j (filter (dup_first_at row_eqb [] rows)
                             (seq 0 (List.length rows)))).
    { apply filter_In. split; [apply in_seq; lia|].
      apply dup_first_at_true. exists i. split; [exact Hij|].
      rewrite row_eqb_sym. exact Heq. }
    destruct (filter _ _); [destruct I | simpl; lia]. }
  destruct (check_missing_duplicates_types_shape df Hpos) as [pre [imp [Hpre Hmd]]].
  fold rows in Hmd. fold dups in Hmd.
  set (dupF := mkCheckResult "Duplicate Rows" "major"
                 [[("duplicates"%string, PNat dups)]] imp) in Hmd.
  unfold run_checks in Hrun.
  match type of Hrun with
  | bind ?m _ = _ => destruct m as [pkr|e] eqn:Hpk; [|discriminate Hrun]
  end.
  simpl in Hrun. injection Hrun as Hres. rewrite Hmd in Hres.
  assert (Hpkr : Forall plain_name pkr).
  { destruct (_ && _) in Hpk.
    - eapply check_primary_key_plain. exact Hpk.
    - injection Hpk as <-. constructor. }
  set (front := (check_schema df baseline ++ pkr ++ pre)%list).
  set (back := (check_outliers_iqr to_numeric_str df
                ++ check_rare_categories is_string_dtype repr_float repr_time df (1 # 100)
                ++ check_semantic_regex is_string_dtype repr_float repr_time
                     re_letter_digit re_email re_uk_postcode df
                ++ check_dates to_datetime df)%list).
  assert (Hsplit : results = (front ++ dupF :: back)%list).
  { rewrite <- Hres. unfold front, back. repeat rewrite <- app_assoc. reflexivity. }
  assert (Hfront : Forall plain_name front).
  { unfold front. apply Forall_app. split; [apply check_schema_plain|].
    apply Forall_app. split; assumption. }
  assert (Hback : Forall bounds_recorded back).
  { unfold back.
    apply Forall_app. split; [apply check_outliers_iqr_bounds|].
    apply Forall_app. split;
      [eapply Forall_impl; [apply plain_name_bounds | apply check_rare_categories_plain]|].
    apply Forall_app. split;
      [eapply Forall_impl; [apply plain_name_bounds | apply check_semantic_regex_plain]|].
    eapply Forall_impl; [apply plain_name_bounds | apply check_dates_plain]. }
  set (r := attach_duplicates df idx dupF).
  assert (Hmid : enrich_duplicates df results = (front ++ r :: back)%list).
  { unfold enrich_duplicates. cbv zeta. fold rows. fold idx.
    rewrite (nonempty_longer idx dups Hlt), Hsplit.
    apply enrich_duplicates_loop_app; [exact Hfront | reflexivity | discriminate]. }
  assert (Hself : enrich_outlier to_numeric_str df r = Ok r) by reflexivity.
  assert (Hall : Forall (fun x => exists y, enrich_outlier to_numeric_str df x = Ok y)
                        (front ++ r :: back)).
  { apply Forall_app. split; [|apply Forall_cons].
    - eapply Forall_impl; [|exact Hfront].
      intros x Hx. apply enrich_outlier_total, plain_name_bounds, Hx.
    - exists r. exact Hself.
    - eapply Forall_impl; [|exact Hback].
      intros x Hx. apply enrich_outlier_total, Hx. }
  destruct (mapM_total _ _ Hall) as [results' Hres'].
  exists results', r,
    [("duplicates"%string, PNat dups);
     ("row_indices"%string, PList (map PNat idx));
     ("sample_rows"%string,
      PList (map (fun p => record_of (df_columns df) (row_of df p)) (firstn 10 idx)));
     ("columns"%string, PList (map PStr (df_columns df)))],
    dups, idx.
  split; [unfold enrich, enrich_outliers; rewrite Hmid; exact Hres'|].
  split; [apply (mapM_in _ _ _ r r Hres'); [apply in_elt | exact Hself]|].
  split; [reflexivity|]. split; [reflexivity|].
  split; [reflexivity|]. split; [reflexivity|].
  split.
  { intros a b Ha Hb Hab E.
    assert (E' : row_eqb (nth b rows []) (nth a rows []) = true)
      by (rewrite row_eqb_sym; exact E).
    unfold idx. rewrite !in_mask_index, duplicated_all_length.
    split; (split; [lia|]).
    - apply (duplicated_all_at row_eqb [] row_eqb_refl rows a b); auto; lia.
    - apply (duplicated_all_at row_eqb [] row_eqb_refl rows b a); auto; lia. }
  split.
  { unfold counted, dups. rewrite length_select_mask; [reflexivity|].
    unfold duplicated_first. apply duplicated_scan_length. }
  split; [|exact Hlt].
  intros x Hx. split.
  - unfold idx. rewrite select_mask_index by apply duplicated_all_length.
    apply (all_group_count row_eqb row_eqb_sym row_eqb_trans). exact Hx.
  - unfold counted.
    rewrite (first_group_count row_eqb row_eqb_sym row_eqb_trans). lia.
Qed.

End AuditFacts.

(** ** The theorems at work on the sample orders *)

Lemma check_dates_invalid_count_witness :
  let s := [Some 0%Z; None; Some 0%Z] in
  let invalid := List.length (filter (fun v => negb (is_some v)) s) in
  let finding_name := ("Invalid Dates: " ++ s_name order_date_column)%string in
  ((0 < invalid)%nat <->
   exists r, In r (check_dates sample_to_datetime df_orders) /\ name r = finding_name) /\
  (forall r, In r (check_dates sample_to_datetime df_orders) -> name r = finding_name ->
             severity r = "minor"%string /\
             issues r = [[("invalid"%string, PNat invalid)]] /\
             impact r == normalize (Qnat invalid)
                                   (Qmax 10 ((5 # 100) * Qnat (df_len df_orders)))).
Proof.
  apply (check_dates_invalid_count sample_to_datetime df_orders order_date_column
           [Some 0%Z; None; Some 0%Z]).
  - repeat constructor; simpl; intuition discriminate.
  - simpl. auto.
  - reflexivity.
  - reflexivity.
Defined.

Lemma enrichment_is_additive_witness :
  Forall2 enriched_from sample_results sample_enriched.
Proof.
  apply (enrichment_is_additive sample_to_numeric_str df_orders
           sample_results sample_enriched).
  vm_compute. reflexivity.
Defined.

Lemma duplicate_rows_evidence_witness :
  let rows := all_rows df_orders in
  let counted := select_mask (duplicated_first row_eqb rows) rows in
  exists results' r info dups idx,
    enrich sample_to_numeric_str df_orders sample_results = Ok results' /\
    In r results' /\ name r = "Duplicate Rows"%string /\ issues r = [info] /\
    Dict.get "duplicates" info = Some (PNat dups) /\
    Dict.get "row_indices" info = Some (PList (map PNat idx)) /\
    (forall a b, (a < df_len df_orders)%nat -> (b < df_len df_orders)%nat -> a <> b ->
                 row_eqb (nth a rows []) (nth b rows []) = true ->
                 In a idx /\ In b idx) /\
    dups = List.length counted /\
    (forall x, (2 <= occurrences row_eqb x rows)%nat ->
               occurrences row_eqb x (map (fun p => nth p rows []) idx)
               = occurrences row_eqb x rows /\
               occurrences row_eqb x counted
               = (occurrences row_eqb x rows - 1)%nat) /\
    (dups < List.length idx)%nat.
Proof.
  apply (duplicate_rows_evidence sample_is_string_dtype sample_to_numeric_str
           sample_to_datetime sample_repr_float sample_repr_time
           sample_pattern sample_pattern sample_pattern
           df_orders None sample_results 0 2).
  - lia.
  - simpl. lia.
  - reflexivity.
  - vm_compute. reflexivity.
Defined.

Lemma checks_emit_well_formed_findings_witness :
  check_schema df_clean None = [] /\
  check_primary_key df_clean ["id"%string] = Ok [] /\
  check_missing_duplicates_types df_clean = [] /\
  check_outliers_iqr sample_to_numeric_str df_clean = [] /\
  check_rare_categories sample_is_string_dtype sample_repr_float sample_repr_time
                        df_clean (1 # 100) = [] /\
  check_semantic_regex sample_is_string_dtype sample_repr_float sample_repr_time
                       sample_pattern sample_pattern sample_pattern df_clean = [] /\
  check_dates sample_to_datetime df_clean = [].
Proof.
  destruct (checks_emit_well_formed_findings
              sample_is_string_dtype sample_to_numeric_str sample_to_datetime
              sample_repr_float sample_repr_time
              sample_pattern sample_pattern sample_pattern
              df_clean None ["id"%string] (1 # 100))
    as ([_ H1] & H2 & [_ H3] & [_ H4] & [_ H5] & [_ H6] & [_ H7]).
  split; [apply H1; reflexivity|].
  split.
  { destruct (check_primary_key df_clean ["id"%string]) as [fs|e] eqn:E.
    - destruct H2 as [_ H2]. rewrite H2; reflexivity.
    - vm_compute in E. discriminate E. }
  split; [apply H3; reflexivity|].
  split; [apply H4; reflexivity|].
  split; [apply H5; reflexivity|].
  split; [apply H6; reflexivity|].
  apply H7; reflexivity.
Defined.

(** * Further properties of the engine *)

(** ** The score stays on its scale *)

Lemma round_half_even_nonneg (x : Q) : 0 <= x -> (0 <= round_half_even x)%Z.
Proof.
  intros H. pose proof (round_half_even_lower x) as L.
  assert (0 <= Qfloor x)%Z; [|lia].
  rewrite <- (Qfloor_Z 0). apply Qfloor_resp_le. exact H.
Qed.

Lemma py_round_nonneg (x : Q) (n : nat) : 0 <= x -> 0 <= py_round x n.
Proof.
  intros H. unfold py_round. pose proof (pow10_pos n) as P.
  apply Qle_shift_div_l; [exact P|]. rewrite Qmult_0_l.
  change 0 with (inject_Z 0). rewrite <- Zle_Qle.
  apply round_half_even_nonneg.
  apply Qmult_le_0_compat; [exact H | apply Qlt_le_weak, P].
Qed.

Lemma py_round_whole (z : Z) (n : nat) : py_round (inject_Z z) n == inject_Z z.
Proof.
  unfold py_round, pow10.
  rewrite (round_half_even_comp _ (inject_Z (z * 10 ^ Z.of_nat n)))
    by (rewrite inject_Z_mult; reflexivity).
  rewrite round_half_even_Z, inject_Z_mult.
  field. intros E. pose proof (pow10_pos n) as P. unfold pow10 in P. lra.
Qed.

Lemma penalty_of_nonneg (results : list CheckResult) :
  Forall (fun r => 0 <= impact r) results -> 0 <= penalty_of results.
Proof.
  intros H. unfold penalty_of. rewrite penalty_fold.
  induction H as [|r rs Hr _ IH]; simpl; [lra|].
  pose proof (penalty_term_nonneg r Hr). lra.
Qed.

(** X1: the score is never negative; it is at most 100 when no impact is
    negative; and it is 0 as soon as the penalties add up to 100 or more. *)
Theorem compute_score_range (results : list CheckResult) :
  0 <= compute_score results /\
  (Forall (fun r => 0 <= impact r) results -> compute_score results <= 100) /\
  (100 <= penalty_of results -> compute_score results == 0).
Proof.
  unfold compute_score. cbv zeta. split; [|split].
  - apply py_round_nonneg.
    destruct (py_max_spec 0 (100 - penalty_of results)) as [[? ->]|[? ->]]; lra.
  - intros H. pose proof (penalty_of_nonneg results H) as P.
    apply Qle_trans with (py_round 100 1).
    + apply py_round_mono.
      destruct (py_max_spec 0 (100 - penalty_of results)) as [[? ->]|[? ->]]; lra.
    + apply Qle_lteq. right. exact (py_round_whole 100 1).
  - intros H. transitivity (py_round 0 1); [|exact (py_round_whole 0 1)].
    apply py_round_comp.
    destruct (py_max_spec 0 (100 - penalty_of results)) as [[? ->]|[? ->]]; lra.
Qed.

Lemma compute_score_range_witness :
  let results := [mkCheckResult "Missing Columns" "critical" [[]] 1;
                  mkCheckResult "Dtype Drift" "major" [[]] 1;
                  mkCheckResult "Duplicate Rows" "major" [[]] 1;
                  mkCheckResult "Primary Key Uniqueness" "critical" [[]] 1] in
  0 <= compute_score results /\ compute_score results <= 100 /\
  compute_score results == 0.
Proof.
  intros results.
  destruct (compute_score_range results) as (H0 & H1 & H2).
  split; [exact H0|]. split.
  - apply H1. repeat constructor; simpl; lra.
  - apply H2. vm_compute. discriminate.
Defined.

(** ** Normalised impact *)

(** X2: for a positive cap, [norm] is 0 up to zero, the ratio [x / cap]
    between zero and the cap, 1 from the cap on, and never decreases
    when the count grows. *)
Theorem norm_shape (x cap : Q) :
  0 < cap ->
  (x <= 0 -> norm x cap == 0) /\
  (0 <= x <= cap -> norm x cap == x / cap) /\
  (cap <= x -> norm x cap == 1) /\
  (forall y, x <= y -> norm x cap <= norm y cap).
Proof.
  intros Hc.
  assert (Div : forall a b, a <= b -> a / cap <= b / cap).
  { intros a b L. unfold Qdiv. apply Qmult_le_compat_r; [exact L|].
    apply Qlt_le_weak, Qinv_lt_0_compat, Hc. }
  assert (D0 : 0 / cap == 0) by (unfold Qdiv; ring).
  assert (D1 : cap / cap == 1) by (field; lra).
  unfold norm. repeat split.
  - intros H. pose proof (Div x 0 H).
    destruct (py_min_spec 1 (x / cap)) as [[? ->]|[? ->]];
      match goal with |- context [py_max 0 ?v] =>
        destruct (py_max_spec 0 v) as [[? ->]|[? ->]] end; lra.
  - intros [H0 H1]. pose proof (Div 0 x H0). pose proof (Div x cap H1).
    destruct (py_min_spec 1 (x / cap)) as [[? ->]|[? ->]];
      match goal with |- context [py_max 0 ?v] =>
        destruct (py_max_spec 0 v) as [[? ->]|[? ->]] end; lra.
  - intros H. pose proof (Div cap x H).
    destruct (py_min_spec 1 (x / cap)) as [[? ->]|[? ->]];
      match goal with |- context [py_max 0 ?v] =>
        destruct (py_max_spec 0 v) as [[? ->]|[? ->]] end; lra.
  - intros y H. pose proof (Div x y H).
    destruct (py_min_spec 1 (x / cap)) as [[? ->]|[? ->]];
      destruct (py_min_spec 1 (y / cap)) as [[? ->]|[? ->]];
      repeat match goal with |- context [py_max 0 ?v] =>
        destruct (py_max_spec 0 v) as [[? ->]|[? ->]] end; lra.
Qed.

Lemma norm_shape_witness :
  (3 <= 0 -> norm 3 10 == 0) /\
  (0 <= 3 <= 10 -> norm 3 10 == 3 / 10) /\
  (10 <= 3 -> norm 3 10 == 1) /\
  (forall y, 3 <= y -> norm 3 10 <= norm y 10).
Proof. apply (norm_shape 3 10). reflexivity. Defined.

(** ** When the audit fails *)

Lemma df_get_err (df : DataFrame) (c : string) (e : exn) :
  df_get df c = Err e -> e = KeyError /\ ~ In c (df_columns df).
Proof.
  induction df as [|col df IH]; simpl.
  - intros E. injection E as <-. tauto.
  - destruct (String.eqb_spec c (s_name col)) as [Ec|Nc]; [discriminate|].
    intros E. destruct (IH E) as [-> H]. split; [reflexivity|].
    intros [F|F]; [congruence | tauto].
Qed.

Lemma mapM_df_get_err (df : DataFrame) (pk : list string) (e : exn) :
  mapM (df_get df) pk = Err e ->
  e = KeyError /\ exists c, In c pk /\ ~ In c (df_columns df).
Proof.
  induction pk as [|c pk IH]; simpl; [discriminate|].
  destruct (df_get df c) as [col|e'] eqn:G; simpl.
  - destruct (mapM (df_get df) pk) as [cols|e'']; simpl; [discriminate|].
    intros E. injection E as ->. destruct (IH eq_refl) as [-> [c' [Hc' Hn]]].
    split; [reflexivity|]. exists c'. auto.
  - intros E. injection E as ->. destruct (df_get_err df c e G) as [-> Hn].
    split; [reflexivity|]. exists c. auto.
Qed.

Lemma df_get_ok_in (df : DataFrame) (c : string) (col : Series) :
  df_get df c = Ok col -> In c (df_columns df).
Proof.
  induction df as [|x df IH]; simpl; [discriminate|].
  destruct (String.eqb_spec c (s_name x)); [left; congruence|].
  intros G. right. exact (IH G).
Qed.

Lemma mapM_df_get_ok (df : DataFrame) (pk : list string) (cols : list Series) :
  mapM (df_get df) pk = Ok cols -> forall c, In c pk -> In c (df_columns df).
Proof.
  revert cols. induction pk as [|a pk IH]; simpl; intros cols M c Hc; [tauto|].
  destruct (df_get df a) as [col|] eqn:G; simpl in M; [|discriminate].
  destruct (mapM (df_get df) pk) as [cs|] eqn:M'; simpl in M; [|discriminate].
  destruct Hc as [<-|Hc]; [exact (df_get_ok_in df a col G) | exact (IH cs eq_refl c Hc)].
Qed.

Lemma check_primary_key_empty_frame (df : DataFrame) (pk : list string) :
  df_len df = 0%nat -> check_primary_key df pk = Ok [].
Proof.
  intros Z. unfold check_primary_key, subset_rows. rewrite Z.
  destruct pk; reflexivity.
Qed.

Lemma primary_key_error_cases (df : DataFrame) (pk : list string) :
  match check_primary_key df pk with
  | Ok _ => df_len df = 0%nat \/ forall c, In c pk -> In c (df_columns df)
  | Err e => e = KeyError /\ df_len df <> 0%nat /\
             exists c, In c pk /\ ~ In c (df_columns df)
  end.
Proof.
  unfold check_primary_key, subset_rows.
  destruct pk as [|k pk]; [simpl; right; intros c []|].
  cbv beta iota delta [negb nonempty].
  destruct (Nat.eqb_spec (df_len df) 0) as [Z|N].
  - cbv beta iota delta [bind]. simpl. left. exact Z.
  - cbv beta iota delta [bind].
    destruct (mapM (df_get df) (k :: pk)) as [cols|e0] eqn:M.
    + destruct (0 <? _)%nat; right; exact (mapM_df_get_ok df (k :: pk) cols M).
    + destruct (mapM_df_get_err df (k :: pk) e0 M) as [-> W]. auto.
Qed.

(** X3: the primary-key check raises exactly when the dataset is not
    empty and the key list names a column the dataset does not have, and
    the error is then a [KeyError]; on an empty dataset it returns no
    finding whatever the key list names. *)
Theorem check_primary_key_raises (df : DataFrame) (pk : list string) :
  (forall e, check_primary_key df pk = Err e -> e = KeyError) /\
  ((exists e, check_primary_key df pk = Err e) <->
   df_len df <> 0%nat /\ exists c, In c pk /\ ~ In c (df_columns df)) /\
  (df_len df = 0%nat -> check_primary_key df pk = Ok []).
Proof.
  pose proof (primary_key_error_cases df pk) as H.
  split; [|split; [|apply check_primary_key_empty_frame]].
  - intros e E. rewrite E in H. tauto.
  - destruct (check_primary_key df pk) as [fs|e0].
    + split.
      * intros [e E]. discriminate E.
      * intros [N [c [Hc Hn]]]. exfalso. destruct H as [Z|H]; [exact (N Z)|].
        exact (Hn (H c Hc)).
    + destruct H as (_ & N & W). split.
      * intros _. split; assumption.
      * intros _. exists e0. reflexivity.
Qed.

Section FailureFacts.

Variable is_string_dtype : Series -> bool.
Variable to_numeric_str : string -> option Q.
Variable to_datetime : Series -> option (list (option Z)).
Variable repr_float : Q -> string.
Variable repr_time : Z -> string.
Variable re_letter_digit : string -> bool.
Variable re_email : string -> bool.
Variable re_uk_postcode : string -> bool.

(** X4: a key column that is missing aborts the whole audit.  When the
    baseline declares a primary key that names a column the dataset does
    not have, and the dataset is not empty, the check phase raises
    [KeyError] at the primary-key check, and so does the audit built on
    it: no finding of any check and no score is returned. *)
Theorem missing_key_column_aborts_audit
        (df : DataFrame) (b : Baseline) (pk : list string) (c : string) :
  b_primary_key b = Some pk ->
  In c pk ->
  ~ In c (df_columns df) ->
  df_len df <> 0%nat ->
  run_checks is_string_dtype to_numeric_str to_datetime repr_float
             repr_time re_letter_digit re_email re_uk_postcode
             df (Some b) = Err KeyError /\
  run is_string_dtype to_numeric_str to_datetime repr_float
      repr_time re_letter_digit re_email re_uk_postcode
      df (Some b) = Err KeyError.
Proof.
  intros P Hc Hn N.
  assert (K : check_primary_key df pk = Err KeyError).
  { pose proof (primary_key_error_cases df pk) as R.
    destruct (check_primary_key df pk) as [fs|e].
    - exfalso. destruct R as [Z|R]; [exact (N Z) | exact (Hn (R c Hc))].
    - destruct R as [-> _]. reflexivity. }
  assert (C : run_checks is_string_dtype to_numeric_str to_datetime repr_float
                         repr_time re_letter_digit re_email re_uk_postcode
                         df (Some b) = Err KeyError).
  { unfold run_checks. cbv zeta. simpl truthy. simpl get_or. rewrite P.
    simpl is_some. rewrite !orb_true_r. simpl andb. cbv iota.
    simpl get_or. rewrite K. reflexivity. }
  split; [exact C|].
  unfold run. rewrite C. reflexivity.
Qed.

End FailureFacts.

Lemma missing_key_column_aborts_audit_witness :
  let b := mkBaseline None None (Some ["order_id"%string]) in
  run_checks sample_is_string_dtype sample_to_numeric_str sample_to_datetime
             sample_repr_float sample_repr_time
             sample_pattern sample_pattern sample_pattern
             df_orders (Some b) = Err KeyError /\
  run sample_is_string_dtype sample_to_numeric_str sample_to_datetime
      sample_repr_float sample_repr_time
      sample_pattern sample_pattern sample_pattern
      df_orders (Some b) = Err KeyError.
Proof.
  intros b.
  apply (missing_key_column_aborts_audit
           sample_is_string_dtype sample_to_numeric_str sample_to_datetime
           sample_repr_float sample_repr_time
           sample_pattern sample_pattern sample_pattern
           df_orders b ["order_id"%string] "order_id"%string).
  - reflexivity.
  - left. reflexivity.
  - simpl. intros H. repeat destruct H as [H|H]; try discriminate H; exact H.
  - discriminate.
Defined.

(** ** A baseline inferred from a dataset *)

Lemma of_pairs_fold {V} (l acc : list (string * V)) :
  NoDup (map fst acc ++ map fst l) ->
  fold_left (fun d kv => Dict.set (fst kv) (snd kv) d) l acc = (acc ++ l)%list.
Proof.
  revert acc. induction l as [|[k v] l IH]; intros acc H; simpl.
  - rewrite app_nil_r. reflexivity.
  - simpl in H. rewrite dict_set_fresh.
    + rewrite IH; [rewrite <- app_assoc; reflexivity|].
      rewrite map_app, <- app_assoc. exact H.
    + apply NoDup_remove_2 in H. intros I. apply H. apply in_or_app. left. exact I.
Qed.

Lemma of_pairs_distinct {V} (l : list (string * V)) :
  NoDup (map fst l) -> Dict.of_pairs l = l.
Proof. intros H. unfold Dict.of_pairs. rewrite of_pairs_fold; [reflexivity | exact H]. Qed.

Lemma df_get_own (df : DataFrame) (col : Series) :
  NoDup (df_columns df) -> In col df -> df_get df (s_name col) = Ok col.
Proof.
  induction df as [|x df IH]; simpl; intros H I; [tauto|].
  inversion H as [|? ? Hx Hr]; subst.
  destruct I as [->|I]; [rewrite String.eqb_refl; reflexivity|].
  destruct (String.eqb_spec (s_name col) (s_name x)) as [E|N].
  - exfalso. apply Hx. rewrite <- E. apply in_map. exact I.
  - apply IH; assumption.
Qed.

Lemma set_diff_self (a : list string) : set_diff a a = [].
Proof.
  unfold set_diff.
  assert (G : forall b, incl b a ->
            filter (fun x => negb (existsb (String.eqb x) a)) b = []).
  { induction b as [|x b IH]; intros Hb; simpl; [reflexivity|].
    assert (E : existsb (String.eqb x) a = true).
    { apply existsb_exists. exists x. split; [apply Hb; left; reflexivity|].
      apply String.eqb_refl. }
    rewrite E. simpl. apply IH. intros y Hy. apply Hb. right. exact Hy. }
  apply G, incl_refl.
Qed.

(** X5: a baseline that [make_baseline] infers from a dataset raises no
    schema finding against that same dataset. *)
Theorem inferred_baseline_accepts_its_dataset (df : DataFrame) (pk : option (list string)) :
  NoDup (df_columns df) ->
  check_schema df (Some (make_baseline df pk)) = [].
Proof.
  intros H. apply check_schema_silent.
  unfold schema_detections, make_baseline. simpl truthy. cbv beta iota zeta.
  simpl get_or. rewrite set_diff_self. simpl.
  unfold infer_dtypes. rewrite of_pairs_distinct
    by (rewrite map_map; simpl; exact H).
  assert (F : forall cols, incl cols df ->
            filter (dtype_differs df)
                   (map (fun c => (s_name c, dtype_str (s_dtype c))) cols) = []).
  { induction cols as [|c cols IH]; intros Hc; simpl; [reflexivity|].
    unfold dtype_differs at 1. simpl.
    rewrite (df_get_own df c H (Hc c (or_introl eq_refl))).
    rewrite String.eqb_refl. simpl. rewrite andb_false_r.
    apply IH. intros y Hy. apply Hc. right. exact Hy. }
  rewrite (F df (incl_refl df)). reflexivity.
Qed.

Lemma inferred_baseline_accepts_its_dataset_witness :
  check_schema df_orders (Some (make_baseline df_orders (Some ["id"%string]))) = [].
Proof.
  apply (inferred_baseline_accepts_its_dataset df_orders (Some ["id"%string])).
  repeat constructor; simpl; intuition discriminate.
Defined.

(** ** The report of missing values *)

Lemma filter_pairs (f : Series -> nat) (df : DataFrame) :
  filter (fun cv : string * nat => (0 <? snd cv)%nat)
         (map (fun c => (s_name c, f c)) df)
  = map (fun c => (s_name c, f c)) (filter (fun c => (0 <? f c)%nat) df).
Proof.
  induction df as [|c df IH]; simpl; [reflexivity|].
  destruct (0 <? f c)%nat; simpl; rewrite IH; reflexivity.
Qed.

(** X6: with distinct column names, the check reports missing values
    exactly: there is a "Missing Values" finding if and only if some
    column has a missing cell, and that finding is major and carries one
    record per affected column, in column order, with the column's name
    and its exact number of missing cells. *)
Theorem missing_values_report (df : DataFrame) :
  NoDup (df_columns df) ->
  let affected := filter (fun c => (0 <? na_count c)%nat) df in
  ((exists r, In r (check_missing_duplicates_types df) /\ name r = "Missing Values"%string)
   <-> affected <> []) /\
  (forall r, In r (check_missing_duplicates_types df) ->
             name r = "Missing Values"%string ->
             severity r = "major"%string /\
             issues r = map (fun c => [("column"%string, PStr (s_name c));
                                       ("missing"%string, PNat (na_count c))])
                            affected).
Proof.
  intros H affected.
  assert (Hshape : forall r, In r (check_missing_duplicates_types df) ->
             name r = "Missing Values"%string ->
             affected <> [] /\
             severity r = "major"%string /\
             issues r = map (fun c => [("column"%string, PStr (s_name c));
                                       ("missing"%string, PNat (na_count c))])
                            affected).
  { intros r. unfold check_missing_duplicates_types. cbv zeta.
    fold na_count.
    change (fun c : Series => (s_name c, count_true (map isna (s_values c))))
      with (fun c : Series => (s_name c, na_count c)).
    rewrite (filter_pairs na_count df). fold affected.
    rewrite length_map.
    rewrite of_pairs_distinct
      by (rewrite map_map; simpl; apply (filter_columns_NoDup _ df H)).
    rewrite map_map.
    destruct affected as [|a rest] eqn:A; simpl Nat.ltb; cbv iota.
    - destruct (0 <? _)%nat; simpl; [|tauto].
      intros [<-|[]]. simpl. discriminate.
    - destruct (0 <? count_true _)%nat; simpl.
      + intros [<-|[<-|[]]]; simpl; intros N; try discriminate N.
        split; [discriminate|]. split; reflexivity.
      + intros [<-|[]]. simpl. intros _.
        split; [discriminate|]. split; reflexivity. }
  split; [split|].
  - intros [r [Hr Hn]]. apply (Hshape r Hr Hn).
  - intros Hne. unfold check_missing_duplicates_types. cbv zeta.
    change (fun c : Series => (s_name c, count_true (map isna (s_values c))))
      with (fun c : Series => (s_name c, na_count c)).
    rewrite (filter_pairs na_count df). fold affected. rewrite length_map.
    destruct affected as [|a rest]; [congruence|]. simpl Nat.ltb. cbv iota.
    destruct (0 <? count_true _)%nat; simpl;
      (eexists; split; [left; reflexivity | reflexivity]).
  - intros r Hr Hn. apply (Hshape r Hr Hn).
Qed.

Lemma missing_values_report_witness :
  let df := [mkSeries "a" Float64 [VFloat 1; NA; NA]; int_column "b" [1; 2; 3]%Z] in
  let affected := filter (fun c => (0 <? na_count c)%nat) df in
  ((exists r, In r (check_missing_duplicates_types df) /\ name r = "Missing Values"%string)
   <-> affected <> []) /\
  (forall r, In r (check_missing_duplicates_types df) ->
             name r = "Missing Values"%string ->
             severity r = "major"%string /\
             issues r = map (fun c => [("column"%string, PStr (s_name c));
                                       ("missing"%string, PNat (na_count c))])
                            affected).
Proof.
  intros df.
  apply (missing_values_report df).
  repeat constructor; simpl; intuition discriminate.
Defined.

(** ** Duplicate rows do not depend on the row order *)

Section ScanOrder.

Context {A : Type} (eqb : A -> A -> bool).
Hypothesis eqb_sym : forall x y, eqb x y = eqb y x.
Hypothesis eqb_trans : forall x y z, eqb x y = true -> eqb y z = true -> eqb x z = true.

Lemma duplicated_scan_seen (l s1 s2 : list A) :
  (forall x, existsb (eqb x) s1 = existsb (eqb x) s2) ->
  duplicated_scan eqb s1 l = duplicated_scan eqb s2 l.
Proof.
  revert s1 s2. induction l as [|x l IH]; intros s1 s2 H; simpl; [reflexivity|].
  rewrite (H x). f_equal. apply IH. intros y. simpl. rewrite (H y). reflexivity.
Qed.

Lemma existsb_congr (x y : A) (s : list A) :
  eqb x y = true -> existsb (eqb x) s = existsb (eqb y) s.
Proof.
  intros E. induction s as [|z s IH]; simpl; [reflexivity|].
  rewrite IH. f_equal. apply (eqb_congr eqb eqb_sym eqb_trans). exact E.
Qed.

Lemma count_true_cons (b : bool) (m : list bool) :
  count_true (b :: m) = ((if b then 1 else 0) + count_true m)%nat.
Proof. unfold count_true. simpl. destruct b; reflexivity. Qed.

Lemma duplicated_scan_permutation (l l' : list A) :
  Permutation l l' ->
  forall seen, count_true (duplicated_scan eqb seen l)
               = count_true (duplicated_scan eqb seen l').
Proof.
  induction 1 as [|x l l' _ IH|x y l|l l' l'' _ IH1 _ IH2]; intros seen.
  - reflexivity.
  - simpl. rewrite !count_true_cons, IH. reflexivity.
  - simpl. rewrite !count_true_cons.
    rewrite (duplicated_scan_seen l (x :: y :: seen) (y :: x :: seen))
      by (intros z; simpl; rewrite !orb_assoc, (orb_comm (eqb z x)); reflexivity).
    rewrite (eqb_sym x y).
    destruct (eqb y x) eqn:E; simpl.
    + rewrite (existsb_congr y x seen E). lia.
    + lia.
  - rewrite IH1. apply IH2.
Qed.

End ScanOrder.

(** X7: the number of duplicate rows does not depend on the order of the
    rows: two datasets whose rows are a permutation of one another get
    the same "Duplicate Rows" finding (same count, same impact), or none. *)
Theorem duplicate_rows_ignore_row_order (df df' : DataFrame) :
  Permutation (all_rows df) (all_rows df') ->
  filter (fun r => String.eqb (name r) "Duplicate Rows") (check_missing_duplicates_types df)
  = filter (fun r => String.eqb (name r) "Duplicate Rows")
           (check_missing_duplicates_types df').
Proof.
  intros P.
  assert (Hlen : df_len df = df_len df').
  { rewrite <- !all_rows_length. apply Permutation_length. exact P. }
  assert (Hcnt : count_true (duplicated_first row_eqb (all_rows df))
                 = count_true (duplicated_first row_eqb (all_rows df'))).
  { unfold duplicated_first.
    apply (duplicated_scan_permutation row_eqb row_eqb_sym row_eqb_trans). exact P. }
  unfold check_missing_duplicates_types. cbv zeta.
  rewrite Hcnt, Hlen.
  destruct (0 <? List.length _)%nat; destruct (0 <? List.length _)%nat;
    destruct (0 <? count_true _)%nat; reflexivity.
Qed.

Lemma duplicate_rows_ignore_row_order_witness :
  let df := [int_column "id" [7; 8; 7]%Z] in
  let df' := [int_column "id" [8; 7; 7]%Z] in
  filter (fun r => String.eqb (name r) "Duplicate Rows") (check_missing_duplicates_types df)
  = filter (fun r => String.eqb (name r) "Duplicate Rows")
           (check_missing_duplicates_types df').
Proof.
  intros df df'. apply (duplicate_rows_ignore_row_order df df').
  apply (perm_swap [VInt 8] [VInt 7] [[VInt 7]]).
Defined.

(** ** A unique key rules out duplicate rows *)

Lemma row_eqb_map {X} (f g : X -> cell) (l : list X) :
  row_eqb (map f l) (map g l) = true <->
  forall x, In x l -> cell_eqb (f x) (g x) = true.
Proof.
  induction l as [|a l IH]; simpl.
  - split; [intros _ x [] | reflexivity].
  - rewrite andb_true_iff, IH. split.
    + intros [Ha Hl] x [<-|Hx]; auto.
    + intros H. split; [apply H; left; reflexivity|].
      intros x Hx. apply H. right. exact Hx.
Qed.

Lemma df_get_ok_member (df : DataFrame) (c : string) (col : Series) :
  df_get df c = Ok col -> In col df.
Proof.
  induction df as [|x df IH]; simpl; [discriminate|].
  destruct (String.eqb c (s_name x)).
  - intros E. injection E as <-. left. reflexivity.
  - intros E. right. exact (IH E).
Qed.

Lemma mapM_df_get_members (df : DataFrame) (pk : list string) (cols : list Series) :
  mapM (df_get df) pk = Ok cols -> incl cols df.
Proof.
  revert cols. induction pk as [|a pk IH]; simpl; intros cols M.
  - injection M as <-. intros x [].
  - destruct (df_get df a) as [col|] eqn:G; simpl in M; [|discriminate].
    destruct (mapM (df_get df) pk) as [cs|] eqn:M'; simpl in M; [|discriminate].
    injection M as <-. intros x [<-|Hx].
    + exact (df_get_ok_member df a col G).
    + exact (IH cs eq_refl x Hx).
Qed.

Lemma rows_of_nth (df : DataFrame) (cols : list Series) (i : nat) :
  (i < df_len df)%nat -> nth i (rows_of df cols) [] = row_of cols i.
Proof.
  intros Hi. unfold rows_of.
  rewrite (nth_indep _ [] (row_of cols O)) by (rewrite length_map, length_seq; exact Hi).
  rewrite (map_nth (row_of cols)). rewrite seq_nth by exact Hi. reflexivity.
Qed.

(** X8: rows that agree on every column agree on the key columns, so a
    dataset that passes the primary-key check (for a non-empty key) has
    no "Duplicate Rows" finding. *)
Theorem unique_key_excludes_duplicate_rows (df : DataFrame) (pk : list string) :
  pk <> [] ->
  check_primary_key df pk = Ok [] ->
  forall r, In r (check_missing_duplicates_types df) -> name r <> "Duplicate Rows"%string.
Proof.
  intros Hpk Hcheck.
  unfold check_primary_key, subset_rows in Hcheck.
  destruct pk as [|k pk]; [congruence|].
  cbv beta iota delta [negb nonempty] in Hcheck.
  destruct (Nat.eqb_spec (df_len df) 0) as [Hz|Hz].
  { intros r. unfold check_missing_duplicates_types, all_rows, rows_of. cbv zeta.
    rewrite Hz. simpl Nat.ltb. cbv iota.
    destruct (0 <? List.length _)%nat; simpl; [|tauto].
    intros [<-|[]]. simpl. discriminate. }
  cbv beta iota delta [bind] in Hcheck.
  destruct (mapM (df_get df) (k :: pk)) as [cols|] eqn:M; [|discriminate].
  pose proof (mapM_df_get_members df (k :: pk) cols M) as Hincl.
  destruct (0 <? count_true (duplicated_first row_eqb (rows_of df cols)))%nat eqn:Z;
    [discriminate|].
  apply Nat.ltb_ge in Z.
  rewrite (count_duplicated_first row_eqb []) in Z. unfold earlier_count in Z.
  assert (Hkeys : List.length (rows_of df cols) = df_len df)
    by (unfold rows_of; rewrite length_map, length_seq; reflexivity).
  assert (Hrows : count_true (duplicated_first row_eqb (all_rows df)) = O).
  { rewrite (count_duplicated_first row_eqb []). unfold earlier_count.
    rewrite all_rows_length.
    assert (L : (List.length (filter (dup_first_at row_eqb [] (all_rows df))
                                     (seq 0 (df_len df)))
                 <= List.length (filter (dup_first_at row_eqb [] (rows_of df cols))
                                        (seq 0 (df_len df))))%nat).
    { apply filter_length_le. intros i Hi D. apply in_seq in Hi.
      apply dup_first_at_true in D. destruct D as [j [Hj E]].
      apply dup_first_at_true. exists j. split; [exact Hj|].
      unfold all_rows in E.
      rewrite !rows_of_nth in * by lia.
      unfold row_of in *. rewrite row_eqb_map in *.
      intros x Hx. apply E. apply Hincl. exact Hx. }
    rewrite Hkeys in Z. lia. }
  intros r. unfold check_missing_duplicates_types. cbv zeta.
  rewrite Hrows. simpl Nat.ltb. cbv iota.
  destruct (0 <? List.length _)%nat; simpl; [|tauto].
  intros [<-|[]]. simpl. discriminate.
Qed.

Lemma unique_key_excludes_duplicate_rows_witness :
  Forall (fun r => name r <> "Duplicate Rows"%string)
         (check_missing_duplicates_types df_clean).
Proof.
  apply Forall_forall.
  apply (unique_key_excludes_duplicate_rows df_clean ["id"%string]).
  - discriminate.
  - reflexivity.
Defined.

(** ** Running the enrichment again changes nothing *)

Lemma dict_get_set_same {V} (k : string) (v : V) (d : list (string * V)) :
  Dict.get k (Dict.set k v d) = Some v.
Proof.
  induction d as [|[k0 v0] d IH]; simpl.
  - rewrite String.eqb_refl. reflexivity.
  - destruct (String.eqb k k0) eqn:E; simpl; rewrite E; [reflexivity | exact IH].
Qed.

Lemma dict_set_same {V} (k : string) (v : V) (d : list (string * V)) :
  Dict.get k d = Some v -> Dict.set k v d = d.
Proof.
  induction d as [|[k0 v0] d IH]; simpl; [discriminate|].
  destruct (String.eqb_spec k k0) as [E|N].
  - intros G. injection G as ->. reflexivity.
  - intros G. rewrite (IH G). reflexivity.
Qed.

Lemma set_first_issue_same (k : string) (v : pyval) (r : CheckResult) :
  Dict.get k (first_issue r) = Some v -> set_first_issue k v r = r.
Proof.
  unfold set_first_issue, first_issue. destruct r as [n s iss i]. simpl.
  destruct iss as [|info rest]; simpl; [reflexivity|].
  intros G. rewrite (dict_set_same k v info G). reflexivity.
Qed.

Lemma set_first_issue_empty (k : string) (v : pyval) (r : CheckResult) :
  issues r = [] -> set_first_issue k v r = r.
Proof. unfold set_first_issue. intros ->. reflexivity. Qed.

Lemma first_issue_set (k : string) (v : pyval) (r : CheckResult) :
  issues r <> [] ->
  first_issue (set_first_issue k v r) = Dict.set k v (first_issue r).
Proof.
  unfold set_first_issue, first_issue. destruct (issues r) as [|info rest] eqn:E.
  - congruence.
  - reflexivity.
Qed.

Lemma set_first_issue_nonempty (k : string) (v : pyval) (r : CheckResult) :
  issues r <> [] -> issues (set_first_issue k v r) <> [].
Proof.
  unfold set_first_issue. destruct (issues r) as [|info rest] eqn:E; [congruence|].
  simpl. discriminate.
Qed.

(** After an assignment the key holds the value, and keeps it through
    assignments to other keys. *)
Lemma get_after_set (k : string) (v : pyval) (r : CheckResult) :
  issues r <> [] -> Dict.get k (first_issue (set_first_issue k v r)) = Some v.
Proof. intros H. rewrite first_issue_set by exact H. apply dict_get_set_same. Qed.

Lemma get_through_set (k k' : string) (v v' : pyval) (r : CheckResult) :
  issues r <> [] -> k <> k' ->
  Dict.get k (first_issue r) = Some v ->
  Dict.get k (first_issue (set_first_issue k' v' r)) = Some v.
Proof.
  intros H N G. rewrite first_issue_set by exact H.
  rewrite dict_get_set_other by exact N. exact G.
Qed.

Lemma attach_duplicates_twice (df : DataFrame) (idx : list nat) (r : CheckResult) :
  attach_duplicates df idx (attach_duplicates df idx r) = attach_duplicates df idx r.
Proof.
  destruct (issues r) as [|info rest] eqn:E.
  - unfold attach_duplicates. rewrite !(set_first_issue_empty _ _ r E). reflexivity.
  - assert (Hne : issues r <> []) by congruence.
    unfold attach_duplicates at 1.
    set (r' := attach_duplicates df idx r).
    assert (N1 := set_first_issue_nonempty "row_indices" (PList (map PNat idx)) r Hne).
    set (r1 := set_first_issue "row_indices" (PList (map PNat idx)) r) in *.
    assert (N2 := set_first_issue_nonempty "sample_rows"
                    (PList (map (fun i => record_of (df_columns df) (row_of df i))
                                (firstn 10 idx))) r1 N1).
    set (r2 := set_first_issue "sample_rows" _ r1) in *.
    assert (G1 : Dict.get "row_indices" (first_issue r') = Some (PList (map PNat idx))).
    { unfold r', attach_duplicates. fold r1. fold r2.
      apply get_through_set; [exact N2 | discriminate|].
      apply get_through_set; [exact N1 | discriminate|].
      apply get_after_set. exact Hne. }
    assert (G2 : Dict.get "sample_rows" (first_issue r')
                 = Some (PList (map (fun i => record_of (df_columns df) (row_of df i))
                                    (firstn 10 idx)))).
    { unfold r', attach_duplicates. fold r1. fold r2.
      apply get_through_set; [exact N2 | discriminate|].
      apply get_after_set. exact N1. }
    assert (G3 : Dict.get "columns" (first_issue r')
                 = Some (PList (map PStr (df_columns df)))).
    { unfold r', attach_duplicates. fold r1. fold r2.
      apply get_after_set. exact N2. }
    rewrite (set_first_issue_same _ _ r' G1).
    rewrite (set_first_issue_same _ _ r' G2).
    apply (set_first_issue_same _ _ r' G3).
Qed.

Lemma attach_outliers_twice (col : string) (lo hi : Q) (hits : list (nat * Q))
      (r : CheckResult) :
  attach_outliers col lo hi hits (attach_outliers col lo hi hits r)
  = attach_outliers col lo hi hits r.
Proof.
  destruct (issues r) as [|info rest] eqn:E.
  - unfold attach_outliers. cbv zeta.
    rewrite !(set_first_issue_empty _ _ r E). reflexivity.
  - assert (Hne : issues r <> []) by congruence.
    unfold attach_outliers at 1. cbv zeta.
    set (r' := attach_outliers col lo hi hits r).
    set (sample := PList (map _ (firstn 10 _))).
    set (rows := PList (map (fun iv : nat * Q => PNat (fst iv)) hits)).
    assert (N1 := set_first_issue_nonempty "column" (PStr col) r Hne).
    set (r1 := set_first_issue "column" (PStr col) r) in *.
    assert (N2 := set_first_issue_nonempty "row_indices" rows r1 N1).
    set (r2 := set_first_issue "row_indices" rows r1) in *.
    assert (N3 := set_first_issue_nonempty "sample_values" sample r2 N2).
    set (r3 := set_first_issue "sample_values" sample r2) in *.
    assert (Er : r' = set_first_issue "explain" (PStr (explain_text col lo hi)) r3)
      by reflexivity.
    assert (G1 : Dict.get "column" (first_issue r') = Some (PStr col)).
    { rewrite Er.
      apply get_through_set; [exact N3 | discriminate|].
      apply get_through_set; [exact N2 | discriminate|].
      apply get_through_set; [exact N1 | discriminate|].
      apply get_after_set. exact Hne. }
    assert (G2 : Dict.get "row_indices" (first_issue r') = Some rows).
    { rewrite Er.
      apply get_through_set; [exact N3 | discriminate|].
      apply get_through_set; [exact N2 | discriminate|].
      apply get_after_set. exact N1. }
    assert (G3 : Dict.get "sample_values" (first_issue r') = Some sample).
    { rewrite Er.
      apply get_through_set; [exact N3 | discriminate|].
      apply get_after_set. exact N2. }
    assert (G4 : Dict.get "explain" (first_issue r')
                 = Some (PStr (explain_text col lo hi))).
    { rewrite Er. apply get_after_set. exact N3. }
    rewrite (set_first_issue_same _ _ r' G1).
    rewrite (set_first_issue_same _ _ r' G2).
    rewrite (set_first_issue_same _ _ r' G3).
    apply (set_first_issue_same _ _ r' G4).
Qed.

Lemma enrich_outlier_again (to_numeric_str : string -> option Q)
      (df : DataFrame) (x x' : CheckResult) :
  enrich_outlier to_numeric_str df x = Ok x' ->
  enrich_outlier to_numeric_str df x' = Ok x'.
Proof.
  intros E. pose proof E as E0. unfold enrich_outlier in E.
  destruct (Str.startswith (name x) "IQR Outliers") eqn:S;
    [|injection E as <-; exact E0].
  destruct (column_of_name (name x)) as [col|] eqn:C;
    [|injection E as <-; exact E0].
  destruct (nonempty (list_ascii_of_string col) && has_column df col
            && nonempty (issues x)) eqn:K;
    [|injection E as <-; exact E0].
  destruct (df_get df col) as [series|] eqn:G; simpl in E; [|discriminate].
  destruct (as_number (Dict.get "lo" (hd [] (issues x)))) as [lo|] eqn:L;
    simpl in E; [|discriminate].
  destruct (as_number (Dict.get "hi" (hd [] (issues x)))) as [hi|] eqn:H;
    simpl in E; [|discriminate].
  injection E as E.
  destruct (attach_outliers_frame col lo hi
              (outlier_positions lo hi (map (to_numeric to_numeric_str) (s_values series))) x)
    as (Fn & _ & _ & Fl & _ & Fa).
  rewrite E in Fn, Fl, Fa.
  assert (Glo : Dict.get "lo" (hd [] (issues x')) = Dict.get "lo" (hd [] (issues x))).
  { apply (assigns_keys_get (first_issue x) (first_issue x') "lo" Fa).
    simpl. intuition discriminate. }
  assert (Ghi : Dict.get "hi" (hd [] (issues x')) = Dict.get "hi" (hd [] (issues x))).
  { apply (assigns_keys_get (first_issue x) (first_issue x') "hi" Fa).
    simpl. intuition discriminate. }
  assert (Kn : nonempty (issues x') = nonempty (issues x)).
  { destruct (issues x), (issues x'); simpl in Fl; try discriminate; reflexivity. }
  unfold enrich_outlier. rewrite Fn, S, C, Kn, K, G. simpl.
  rewrite Glo, Ghi, L, H. simpl.
  rewrite <- E at 1. rewrite attach_outliers_twice. rewrite E. reflexivity.
Qed.

Lemma enrich_duplicates_loop_twice (df : DataFrame) (idx : list nat)
      (l : list CheckResult) :
  enrich_duplicates_loop df idx (enrich_duplicates_loop df idx l)
  = enrich_duplicates_loop df idx l.
Proof.
  induction l as [|r l IH]; simpl; [reflexivity|].
  destruct (String.eqb (name r) "Duplicate Rows" && nonempty (issues r)) eqn:K; simpl.
  - destruct (attach_duplicates_frame df idx r) as (Fn & _ & _ & Fl & _).
    assert (Kn : nonempty (issues (attach_duplicates df idx r)) = nonempty (issues r)).
    { destruct (issues r), (issues (attach_duplicates df idx r)); simpl in Fl;
        try discriminate; reflexivity. }
    rewrite Fn, Kn, K, attach_duplicates_twice. reflexivity.
  - rewrite K, IH. reflexivity.
Qed.

Lemma enrich_duplicates_loop_fixed (to_numeric_str : string -> option Q)
      (df : DataFrame) (idx : list nat) (m r1 : list CheckResult) :
  Forall2 (fun x x' => enrich_outlier to_numeric_str df x = Ok x') m r1 ->
  enrich_duplicates_loop df idx m = m ->
  enrich_duplicates_loop df idx r1 = r1.
Proof.
  induction 1 as [|x x' m r1 Hx _ IH]; simpl; [reflexivity|].
  destruct (enrich_outlier_frame to_numeric_str df x x' Hx) as [(Fn & _ & _ & Fl & _) Fu].
  assert (Kn : nonempty (issues x') = nonempty (issues x)).
  { destruct (issues x), (issues x'); simpl in Fl; try discriminate; reflexivity. }
  rewrite Fn, Kn.
  destruct (String.eqb_spec (name x) "Duplicate Rows") as [En|Nn]; simpl.
  - destruct (nonempty (issues x)).
    + intros E. injection E as E.
      assert (Ex : x' = x) by (apply Fu; rewrite En; reflexivity).
      rewrite Ex, E. reflexivity.
    + intros E. injection E as E. rewrite (IH E). reflexivity.
  - intros E. injection E as E. rewrite (IH E). reflexivity.
Qed.

Lemma mapM_fixed {A} (f : A -> result A) (l : list A) :
  Forall (fun y => f y = Ok y) l -> mapM f l = Ok l.
Proof.
  induction 1 as [|y l Hy _ IH]; simpl; [reflexivity|].
  rewrite Hy. simpl. rewrite IH. reflexivity.
Qed.

Lemma Forall2_right {A B} (R : A -> B -> Prop) (P : B -> Prop)
      (l : list A) (l' : list B) :
  (forall x y, R x y -> P y) -> Forall2 R l l' -> Forall P l'.
Proof. intros H. induction 1; constructor; eauto. Qed.

(** X9: the enrichment is idempotent: run on its own output it returns
    that output unchanged, so evidence is never attached twice. *)
Theorem enrichment_idempotent (to_numeric_str : string -> option Q)
        (df : DataFrame) (results enriched : list CheckResult) :
  enrich to_numeric_str df results = Ok enriched ->
  enrich to_numeric_str df enriched = Ok enriched.
Proof.
  unfold enrich, enrich_outliers, enrich_duplicates. cbv zeta. intros E.
  pose proof (mapM_Forall2 (fun x y => enrich_outlier to_numeric_str df x = Ok y)
                _ _ _ (fun x y H => H) E) as F.
  assert (Hfix : mapM (enrich_outlier to_numeric_str df) enriched = Ok enriched).
  { apply mapM_fixed. eapply Forall2_right; [|exact F].
    intros x y. apply enrich_outlier_again. }
  destruct (nonempty (mask_index (duplicated_all row_eqb (all_rows df)))).
  - rewrite (enrich_duplicates_loop_fixed to_numeric_str df _ _ _ F
               (enrich_duplicates_loop_twice df _ results)).
    exact Hfix.
  - exact Hfix.
Qed.

Lemma enrichment_idempotent_witness :
  enrich sample_to_numeric_str df_orders sample_enriched = Ok sample_enriched.
Proof.
  apply (enrichment_idempotent sample_to_numeric_str df_orders sample_results).
  vm_compute. reflexivity.
Defined.

(** ** Enrichment and score *)

Lemma penalty_of_frame (l l' : list CheckResult) :
  Forall2 (fun r r' => severity r' = severity r /\ impact r' = impact r) l l' ->
  penalty_of l' = penalty_of l.
Proof.
  unfold penalty_of. generalize 0 as acc.
  intros acc H. revert acc. induction H as [|r r' l l' [Hs Hi] _ IH]; intros acc; simpl.
  - reflexivity.
  - replace (penalty_term r') with (penalty_term r)
      by (unfold penalty_term; rewrite Hs, Hi; reflexivity).
    apply IH.
Qed.

Lemma enrich_frames (to_numeric_str : string -> option Q)
      (df : DataFrame) (results enriched : list CheckResult) :
  enrich to_numeric_str df results = Ok enriched ->
  Forall2 step_frame results enriched.
Proof.
  unfold enrich, enrich_outliers. intros E.
  pose proof (enrich_duplicates_frame df results) as H1.
  pose proof (mapM_Forall2 _ _ _ _ (enrich_outlier_frame to_numeric_str df) E) as H2.
  pose proof (Forall2_compose _ _ _ _ _ H1 H2) as H.
  eapply Forall2_impl; [|exact H].
  intros r r' (m & [F1 _] & [F2 _]). exact (step_frame_trans _ _ _ F1 F2).
Qed.

(** X10: the enrichment does not move the score: the score computed on
    the enriched findings is the score of the findings the checks
    returned. *)
Theorem enrichment_keeps_score (to_numeric_str : string -> option Q)
        (df : DataFrame) (results enriched : list CheckResult) :
  enrich to_numeric_str df results = Ok enriched ->
  compute_score enriched = compute_score results.
Proof.
  intros E. unfold compute_score. cbv zeta.
  rewrite (penalty_of_frame results enriched); [reflexivity|].
  eapply Forall2_impl; [|exact (enrich_frames _ _ _ _ E)].
  intros r r' (_ & Hs & Hi & _). auto.
Qed.

Lemma enrichment_keeps_score_witness :
  compute_score sample_enriched = compute_score sample_results.
Proof.
  apply (enrichment_keeps_score sample_to_numeric_str df_orders).
  vm_compute. reflexivity.
Defined.

(** ** The audit as a whole *)

Lemma compute_score_bounds (results : list CheckResult) :
  Forall (fun r => 0 <= impact r) results -> 0 <= compute_score results <= 100.
Proof.
  intros H. pose proof (penalty_of_nonneg results H) as P.
  unfold compute_score. cbv zeta. split.
  - apply py_round_nonneg.
    destruct (py_max_spec 0 (100 - penalty_of results)) as [[? ->]|[? ->]]; lra.
  - apply Qle_trans with (py_round 100 1).
    + apply py_round_mono.
      destruct (py_max_spec 0 (100 - penalty_of results)) as [[? ->]|[? ->]]; lra.
    + apply Qle_lteq. right. exact (py_round_whole 100 1).
Qed.

Lemma Forall2_transfer {A B} (P : A -> Prop) (R : A -> B -> Prop) (Q : B -> Prop)
      (l : list A) (l' : list B) :
  (forall x y, P x -> R x y -> Q y) -> Forall P l -> Forall2 R l l' -> Forall Q l'.
Proof.
  intros H HP HR. induction HR as [|x y l l' Hxy _ IH]; [constructor|].
  inversion HP; subst. constructor; eauto.
Qed.

Lemma nonempty_same_length {A B} (l : list A) (l' : list B) :
  List.length l' = List.length l -> l <> [] -> l' <> [].
Proof. destruct l, l'; simpl; congruence. Qed.

Lemma finding_ok_frame (r r' : CheckResult) :
  step_frame r r' -> finding_ok r -> finding_ok r'.
Proof.
  intros (_ & _ & Hi & Hl & _) [Hne Himp]. split.
  - exact (nonempty_same_length _ _ Hl Hne).
  - rewrite Hi. exact Himp.
Qed.

Lemma bounds_recorded_frame (r r' : CheckResult) :
  step_frame r r' -> bounds_recorded r -> bounds_recorded r'.
Proof.
  intros (Hn & _ & _ & _ & _ & Ha) H. unfold bounds_recorded in *.
  rewrite Hn. intros S. destruct (H S) as [lo [hi [L U]]].
  exists lo, hi.
  rewrite (assigns_keys_get _ _ "lo" Ha) by (simpl; intuition discriminate).
  rewrite (assigns_keys_get _ _ "hi" Ha) by (simpl; intuition discriminate).
  auto.
Qed.

Lemma check_missing_duplicates_types_bounds (df : DataFrame) :
  Forall bounds_recorded (check_missing_duplicates_types df).
Proof.
  unfold check_missing_duplicates_types. cbv zeta.
  destruct (0 <? List.length _)%nat; destruct (0 <? count_true _)%nat; simpl;
    repeat (apply Forall_cons; [intros S; discriminate S|]); apply Forall_nil.
Qed.

Section WholeAudit.

Variable is_string_dtype : Series -> bool.
Variable to_numeric_str : string -> option Q.
Variable to_datetime : Series -> option (list (option Z)).
Variable repr_float : Q -> string.
Variable repr_time : Z -> string.
Variable re_letter_digit : string -> bool.
Variable re_email : string -> bool.
Variable re_uk_postcode : string -> bool.

Let checks := run_checks is_string_dtype to_numeric_str to_datetime repr_float
                         repr_time re_letter_digit re_email re_uk_postcode.

Lemma run_checks_parts (df : DataFrame) (baseline : option Baseline)
      (results : list CheckResult) :
  checks df baseline = Ok results ->
  exists pkr,
    (pkr = [] \/ exists pk, check_primary_key df pk = Ok pkr) /\
    results = (check_schema df baseline ++ pkr
               ++ check_missing_duplicates_types df
               ++ check_outliers_iqr to_numeric_str df
               ++ check_rare_categories is_string_dtype repr_float repr_time df (1 # 100)
               ++ check_semantic_regex is_string_dtype repr_float repr_time
                    re_letter_digit re_email re_uk_postcode df
               ++ check_dates to_datetime df)%list.
Proof.
  unfold checks, run_checks. cbv zeta.
  destruct (truthy baseline && _).
  - destruct (check_primary_key df _) as [pkr|] eqn:C; simpl; [|discriminate].
    intros E. injection E as <-. exists pkr. split; [right; eauto | reflexivity].
  - simpl. intros E. injection E as <-. exists []. split; [left|]; reflexivity.
Qed.

Lemma run_checks_bounds (df : DataFrame) (baseline : option Baseline)
      (results : list CheckResult) :
  checks df baseline = Ok results -> Forall bounds_recorded results.
Proof.
  intros E. destruct (run_checks_parts df baseline results E) as [pkr [Hpk ->]].
  apply Forall_app. split.
  { eapply Forall_impl; [apply plain_name_bounds | apply check_schema_plain]. }
  apply Forall_app. split.
  { eapply Forall_impl; [apply plain_name_bounds|].
    destruct Hpk as [->|[pk Hpk]]; [constructor|].
    exact (check_primary_key_plain df pk pkr Hpk). }
  apply Forall_app. split; [apply check_missing_duplicates_types_bounds|].
  apply Forall_app. split; [apply check_outliers_iqr_bounds|].
  apply Forall_app. split;
    [eapply Forall_impl; [apply plain_name_bounds | apply check_rare_categories_plain]|].
  apply Forall_app. split;
    [eapply Forall_impl; [apply plain_name_bounds | apply check_semantic_regex_plain]|].
  eapply Forall_impl; [apply plain_name_bounds | apply check_dates_plain].
Qed.

Lemma run_checks_ok (df : DataFrame) (baseline : option Baseline)
      (results : list CheckResult) :
  checks df baseline = Ok results -> Forall finding_ok results.
Proof.
  intros E. destruct (run_checks_parts df baseline results E) as [pkr [Hpk ->]].
  apply Forall_app. split; [apply check_schema_ok|].
  apply Forall_app. split.
  { destruct Hpk as [->|[pk Hpk]]; [constructor|].
    pose proof (check_primary_key_ok df pk) as H. rewrite Hpk in H. exact H. }
  apply Forall_app. split; [apply check_missing_duplicates_types_ok|].
  apply Forall_app. split; [apply check_outliers_iqr_ok|].
  apply Forall_app. split; [apply check_rare_categories_ok|].
  apply Forall_app. split; [apply check_semantic_regex_ok|].
  apply check_dates_ok.
Qed.

(** X11: the enrichment never raises on what the checks return: whenever
    the check phase returns, the enrichment returns too. *)
Theorem enrichment_returns_on_audit (df : DataFrame) (baseline : option Baseline)
        (results : list CheckResult) :
  checks df baseline = Ok results ->
  exists enriched, enrich to_numeric_str df results = Ok enriched.
Proof.
  intros E. unfold enrich, enrich_outliers.
  apply mapM_total.
  pose proof (run_checks_bounds df baseline results E) as B.
  assert (B' : Forall bounds_recorded (enrich_duplicates df results)).
  { eapply (Forall2_transfer bounds_recorded _ bounds_recorded);
      [|exact B | exact (enrich_duplicates_frame df results)].
    intros x y Hx [F _]. exact (bounds_recorded_frame x y F Hx). }
  eapply Forall_impl; [|exact B'].
  intros x Hx. apply enrich_outlier_total. exact Hx.
Qed.

(** X12: what the audit hands to the report is well formed: every finding
    has a non-empty issues list and an impact in [0,1], also after the
    enrichment, and the score lies between 0 and 100. *)
Theorem audit_output_well_formed (df : DataFrame) (baseline : option Baseline)
        (results : list CheckResult) (score : Q) :
  run is_string_dtype to_numeric_str to_datetime repr_float repr_time
      re_letter_digit re_email re_uk_postcode df baseline = Ok (results, score) ->
  Forall finding_ok results /\ 0 <= score <= 100.
Proof.
  unfold run. fold checks.
  destruct (checks df baseline) as [found|] eqn:C; simpl; [|discriminate].
  destruct (enrich to_numeric_str df found) as [enriched|] eqn:E; simpl; [|discriminate].
  intros R. injection R as <- <-.
  assert (F : Forall finding_ok enriched).
  { eapply (Forall2_transfer finding_ok _ finding_ok);
      [|exact (run_checks_ok df baseline found C) | exact (enrich_frames _ _ _ _ E)].
    intros x y Hx Fxy. exact (finding_ok_frame x y Fxy Hx). }
  split; [exact F|].
  apply compute_score_bounds.
  eapply Forall_impl; [|exact F]. intros r [_ [H _]]. exact H.
Qed.

End WholeAudit.

Lemma enrichment_returns_on_audit_witness :
  exists enriched, enrich sample_to_numeric_str df_orders sample_results = Ok enriched.
Proof.
  apply (enrichment_returns_on_audit
           sample_is_string_dtype sample_to_numeric_str sample_to_datetime
           sample_repr_float sample_repr_time
           sample_pattern sample_pattern sample_pattern df_orders None).
  vm_compute. reflexivity.
Defined.

Lemma audit_output_well_formed_witness :
  Forall finding_ok sample_enriched /\ 0 <= compute_score sample_enriched <= 100.
Proof.
  apply (audit_output_well_formed
           sample_is_string_dtype sample_to_numeric_str sample_to_datetime
           sample_repr_float sample_repr_time
           sample_pattern sample_pattern sample_pattern df_orders None).
  vm_compute. reflexivity.
Defined.

(** ** Degenerate columns *)

Lemma insert_by_length {A} (leb : A -> A -> bool) (x : A) (l : list A) :
  List.length (insert_by leb x l) = S (List.length l).
Proof.
  induction l as [|y l IH]; simpl; [reflexivity|].
  destruct (leb x y); simpl; [reflexivity | rewrite IH; reflexivity].
Qed.

Lemma sort_by_length {A} (leb : A -> A -> bool) (l : list A) :
  List.length (sort_by leb l) = List.length l.
Proof.
  unfold sort_by. induction l as [|x l IH]; simpl; [reflexivity|].
  rewrite insert_by_length, IH. reflexivity.
Qed.

Lemma insert_by_in {A} (leb : A -> A -> bool) (x y : A) (l : list A) :
  In y (insert_by leb x l) <-> y = x \/ In y l.
Proof.
  induction l as [|z l IH]; simpl; [intuition|].
  destruct (leb x z); simpl; [intuition|]. rewrite IH. intuition.
Qed.

Lemma sort_by_in {A} (leb : A -> A -> bool) (y : A) (l : list A) :
  In y (sort_by leb l) <-> In y l.
Proof.
  unfold sort_by. induction l as [|x l IH]; simpl; [tauto|].
  rewrite insert_by_in, IH. intuition.
Qed.

Lemma Qnat_le (a b : nat) : (a <= b)%nat -> Qnat a <= Qnat b.
Proof. intros H. unfold Qnat. rewrite <- Zle_Qle. lia. Qed.

(** A percentile of a sample whose values are all equal is that value. *)
Lemma percentile_constant (s : list Q) (v q : Q) :
  s <> [] -> 0 <= q <= 100 ->
  (forall x, In x s -> x == v) ->
  percentile s q == v.
Proof.
  intros Hne Hq Hall. unfold percentile. cbv zeta.
  set (a := sort_by Qle_bool s).
  assert (Hlen : List.length a = List.length s) by apply sort_by_length.
  assert (Hpos : (0 < List.length a)%nat).
  { rewrite Hlen. destruct s; [congruence | simpl; lia]. }
  assert (Ha : forall i, (i < List.length a)%nat -> nth i a 0 == v).
  { intros i Hi. apply Hall. apply (sort_by_in Qle_bool). apply nth_In. exact Hi. }
  set (n := List.length a) in *.
  set (vi := Qnat (n - 1) * (q / 100)).
  assert (Hvi : 0 <= vi <= Qnat (n - 1)).
  { pose proof (Qnat_nonneg (n - 1)) as N. unfold vi.
    assert (0 <= q / 100 <= 1).
    { split.
      - apply Qle_shift_div_l; [reflexivity | lra].
      - apply Qle_shift_div_r; [reflexivity | lra]. }
    split; nra. }
  assert (Hprev : (Z.to_nat (Qfloor vi) < n)%nat).
  { assert (F1 : (Qfloor vi <= Z.of_nat (n - 1))%Z).
    { rewrite <- (Qfloor_Z (Z.of_nat (n - 1))). apply Qfloor_resp_le. apply Hvi. }
    assert (F0 : (0 <= Qfloor vi)%Z).
    { rewrite <- (Qfloor_Z 0). apply Qfloor_resp_le. apply Hvi. }
    lia. }
  assert (Hnext : (Nat.min (Z.to_nat (Qfloor vi) + 1) (n - 1) < n)%nat) by lia.
  rewrite (Ha _ Hprev), (Ha _ Hnext). ring.
Qed.

Lemma count_true_none {A} (f : A -> bool) (l : list A) :
  (forall x, In x l -> f x = false) -> count_true (map f l) = O.
Proof.
  intros H. rewrite count_true_map.
  induction l as [|x l IH]; simpl; [reflexivity|].
  rewrite (H x (or_introl eq_refl)). apply IH. intros y Hy. apply H. right. exact Hy.
Qed.

Lemma Qltb_false (a b : Q) : b <= a -> Qltb a b = false.
Proof. intros H. unfold Qltb. destruct (Qlt_le_dec a b); [lra | reflexivity]. Qed.

Section DegenerateColumns.

Variable to_numeric_str : string -> option Q.

(** X13: a numeric column whose values are all equal (zero variance, any
    number of rows) raises no outlier finding: the interquartile range is
    floored at epsilon and the bounds enclose the common value. *)
Theorem constant_column_has_no_outliers (col : Series) (v : Q) :
  (forall x, In x (filter_map (to_numeric to_numeric_str) (s_values col)) -> x == v) ->
  outliers_of_column to_numeric_str col = [].
Proof.
  intros Hall. unfold outliers_of_column.
  destruct (is_numeric_dtype (s_dtype col)); [|reflexivity].
  cbv zeta.
  set (s := filter_map (to_numeric to_numeric_str) (s_values col)) in *.
  destruct (List.length s <? 10)%nat eqn:L; [reflexivity|].
  apply Nat.ltb_ge in L.
  assert (Hne : s <> []) by (destruct s; [simpl in L; lia | discriminate]).
  pose proof (percentile_constant s v 25 Hne ltac:(lra) Hall) as Q1.
  pose proof (percentile_constant s v 75 Hne ltac:(lra) Hall) as Q3.
  unfold iqr_bounds. cbv zeta.
  assert (Hiqr : py_max (percentile s 75 - percentile s 25) EPS == EPS).
  { destruct (py_max_spec (percentile s 75 - percentile s 25) EPS) as [[? ->]|[? ->]].
    - reflexivity.
    - unfold EPS in *. lra. }
  rewrite count_true_none; [reflexivity|].
  intros x Hx. pose proof (Hall x Hx) as Ex.
  unfold outside. unfold EPS in Hiqr.
  rewrite !Qltb_false; [reflexivity | |].
  - rewrite Hiqr, Q3, Ex. lra.
  - rewrite Hiqr, Q1, Ex. lra.
Qed.

End DegenerateColumns.

Lemma constant_column_has_no_outliers_witness :
  outliers_of_column sample_to_numeric_str
                     (int_column "n" [5; 5; 5; 5; 5; 5; 5; 5; 5; 5; 5; 5]%Z) = [].
Proof.
  apply (constant_column_has_no_outliers sample_to_numeric_str _ 5).
  simpl. intros x H.
  repeat (destruct H as [<-|H]; [reflexivity|]). destruct H.
Defined.

(** ** Rare categories need more than a hundred rows *)

Lemma value_counts_entries (l : list string) (v : string) (f : Q) :
  In (v, f) (value_counts l) ->
  exists n, (1 <= n <= List.length l)%nat /\ f = Qnat n / Qnat (List.length l).
Proof.
  unfold value_counts. cbv zeta. intros H.
  apply in_map_iff in H. destruct H as [[v' n] [E H]].
  injection E as -> <-.
  apply sort_by_in in H. apply in_map_iff in H. destruct H as [w [E Hw]].
  injection E as -> <-.
  exists (count_occ string_dec l v). split; [|reflexivity].
  apply nodup_In in Hw. split.
  - apply (count_occ_In string_dec) in Hw. lia.
  - apply count_occ_bound.
Qed.

Section RareFacts.

Variable is_string_dtype : Series -> bool.
Variable repr_float : Q -> string.
Variable repr_time : Z -> string.

(** X14: with the default threshold of 1%, a dataset of at most one
    hundred rows never raises a "Rare Categories" finding: a value that
    occurs at all has a frequency of at least 1/100, which is not below
    the threshold. *)
Theorem no_rare_categories_up_to_100_rows (df : DataFrame) :
  Forall (fun col => (List.length (s_values col) <= 100)%nat) df ->
  check_rare_categories is_string_dtype repr_float repr_time df (1 # 100) = [].
Proof.
  intros H. unfold check_rare_categories. apply flat_map_nil.
  intros col Hcol. rewrite Forall_forall in H. specialize (H col Hcol).
  unfold rare_of_column. destruct (_ || _); [|reflexivity]. cbv zeta.
  set (l := map (py_str repr_float repr_time) (s_values col)).
  assert (Hl : (List.length l <= 100)%nat) by (unfold l; rewrite length_map; exact H).
  assert (R : filter (fun vf : string * Q => Qltb (snd vf) (1 # 100)) (value_counts l) = []).
  { assert (G : forall vc, incl vc (value_counts l) ->
                filter (fun vf : string * Q => Qltb (snd vf) (1 # 100)) vc = []).
    { induction vc as [|[v f] vc IH]; intros I; simpl; [reflexivity|].
      destruct (value_counts_entries l v f (I _ (or_introl eq_refl)))
        as [n [[Hn1 Hn2] ->]].
      rewrite Qltb_false.
      - apply IH. intros y Hy. apply I. right. exact Hy.
      - assert (P : 0 < Qnat (List.length l)).
        { unfold Qnat. change 0 with (inject_Z 0). rewrite <- Zlt_Qlt. lia. }
        apply Qle_shift_div_l; [exact P|].
        pose proof (Qnat_le 1 n Hn1) as A. pose proof (Qnat_le _ 100 Hl) as B.
        change (Qnat 1) with 1 in A. change (Qnat 100) with 100 in B. lra. }
    apply G, incl_refl. }
  rewrite R. reflexivity.
Qed.

End RareFacts.

Lemma no_rare_categories_up_to_100_rows_witness :
  check_rare_categories sample_is_string_dtype sample_repr_float sample_repr_time
                        df_orders (1 # 100) = [].
Proof.
  apply (no_rare_categories_up_to_100_rows
           sample_is_string_dtype sample_repr_float sample_repr_time df_orders).
  repeat constructor; simpl; lia.
Defined.

(** ** The outlier evidence agrees with the outlier count *)

Lemma outside_comp (lo lo' hi hi' x : Q) :
  lo == lo' -> hi == hi' -> outside lo hi x = outside lo' hi' x.
Proof.
  intros El Eh. unfold outside, Qltb.
  destruct (Qlt_le_dec x lo), (Qlt_le_dec x lo'), (Qlt_le_dec hi x), (Qlt_le_dec hi' x);
    try reflexivity; exfalso; lra.
Qed.

Lemma filter_map_combine_length {A B} (f : nat * A -> option B) (g : A -> bool)
      (l : list A) :
  (forall k x, (exists y, f (k, x) = Some y) <-> g x = true) ->
  forall k, List.length (filter_map f (combine (seq k (List.length l)) l))
            = List.length (filter g l).
Proof.
  intros H. induction l as [|x l IH]; intros k; simpl; [reflexivity|].
  destruct (f (k, x)) as [y|] eqn:F.
  - assert (G : g x = true) by (apply (H k x); eauto).
    rewrite G. simpl. rewrite IH. reflexivity.
  - assert (G : g x = false).
    { destruct (g x) eqn:G; [|reflexivity].
      apply (H k x) in G. destruct G as [y G]. congruence. }
    rewrite G. apply IH.
Qed.

Lemma filter_filter_map {A B} (f : A -> option B) (g : B -> bool) (l : list A) :
  List.length (filter g (filter_map f l))
  = List.length (filter (fun a => match f a with Some b => g b | None => false end) l).
Proof.
  induction l as [|a l IH]; simpl; [reflexivity|].
  destruct (f a) as [b|]; simpl; [destruct (g b); simpl; rewrite IH|]; auto.
Qed.

Lemma filter_over_map {A B} (f : A -> B) (g : B -> bool) (l : list A) :
  List.length (filter g (map f l)) = List.length (filter (fun a => g (f a)) l).
Proof.
  induction l as [|a l IH]; simpl; [reflexivity|].
  destruct (g (f a)); simpl; rewrite IH; reflexivity.
Qed.

Section OutlierEvidence.

Variable to_numeric_str : string -> option Q.

Lemma outlier_positions_count (lo lo' hi hi' : Q) (values : list cell) :
  lo == lo' -> hi == hi' ->
  List.length (outlier_positions lo' hi' (map (to_numeric to_numeric_str) values))
  = count_true (map (outside lo hi) (filter_map (to_numeric to_numeric_str) values)).
Proof.
  intros El Eh. unfold outlier_positions.
  rewrite count_true_map, filter_filter_map.
  rewrite (filter_map_combine_length _
             (fun o => match o with Some x => outside lo hi x | None => false end)).
  - rewrite filter_over_map. reflexivity.
  - intros k o. simpl. destruct o as [x|].
    + rewrite (outside_comp lo lo' hi hi' x El Eh).
      destruct (outside lo' hi' x); split; eauto; try discriminate.
      intros [y Y]. discriminate Y.
    + split; [intros [y Y]; discriminate Y | discriminate].
Qed.

Lemma column_of_outlier_name (c : string) :
  column_of_name ("IQR Outliers: " ++ c) = Some (Str.strip c).
Proof. reflexivity. Qed.

Lemma has_column_in (df : DataFrame) (c : string) :
  In c (df_columns df) -> has_column df c = true.
Proof.
  intros H. unfold has_column. apply existsb_exists.
  exists c. split; [exact H | apply String.eqb_refl].
Qed.

(** X15: for a column whose name is not empty and has no surrounding
    white space (as [str.strip] sees it), the evidence the enrichment attaches to the column's
    "IQR Outliers" finding agrees with the finding: the column recovered
    from the finding's name is that column, and the number of row indices
    attached equals the count the check recorded. *)
Theorem outlier_evidence_matches_count (df : DataFrame) (col : Series) (r : CheckResult) :
  NoDup (df_columns df) ->
  In col df ->
  s_name col <> ""%string ->
  Str.strip (s_name col) = s_name col ->
  In r (outliers_of_column to_numeric_str col) ->
  exists r' cnt rows,
    enrich_outlier to_numeric_str df r = Ok r' /\
    Dict.get "column" (first_issue r') = Some (PStr (s_name col)) /\
    Dict.get "count" (first_issue r') = Some (PNat cnt) /\
    Dict.get "row_indices" (first_issue r') = Some (PList rows) /\
    List.length rows = cnt.
Proof.
  intros Hnd Hin Hname Hstrip Hr.
  unfold outliers_of_column in Hr.
  destruct (is_numeric_dtype (s_dtype col)); [|destruct Hr].
  cbv zeta in Hr.
  destruct (_ <? 10)%nat; [destruct Hr|].
  destruct (iqr_bounds _) as [lo hi].
  destruct (0 <? _)%nat; [|destruct Hr].
  destruct Hr as [<-|[]].
  set (s := filter_map (to_numeric to_numeric_str) (s_values col)).
  set (cnt := count_true (map (outside lo hi) s)).
  set (imp := norm _ _).
  unfold enrich_outlier. cbn [name issues].
  change (Str.startswith ("IQR Outliers: " ++ s_name col) "IQR Outliers") with true.
  cbv iota. rewrite column_of_outlier_name, Hstrip.
  assert (Hn : nonempty (list_ascii_of_string (s_name col)) = true).
  { destruct (s_name col); [congruence | reflexivity]. }
  rewrite Hn, (has_column_in df (s_name col) (in_map s_name df col Hin)).
  cbn [andb nonempty hd].
  rewrite (df_get_own df col Hnd Hin).
  cbn [bind Dict.get String.eqb Ascii.eqb Bool.eqb as_number].
  set (hits := outlier_positions (Qred lo) (Qred hi)
                 (map (to_numeric to_numeric_str) (s_values col))).
  eexists. exists cnt. exists (map (fun iv : nat * Q => PNat (fst iv)) hits).
  split; [reflexivity|].
  split; [reflexivity|]. split; [reflexivity|]. split; [reflexivity|].
  rewrite length_map. unfold hits, cnt, s.
  apply outlier_positions_count; symmetry; apply Qred_correct.
Qed.

End OutlierEvidence.

Lemma outlier_evidence_matches_count_witness :
  exists r' cnt rows,
    enrich_outlier sample_to_numeric_str df_iqr
      (mkCheckResult "IQR Outliers: x" "major"
         [[("count"%string, PInt 1); ("lo"%string, PFloat (-7 # 2));
           ("hi"%string, PFloat (29 # 2))]]
         (norm 1 (py_max 10 (10 * (5 # 100))))) = Ok r' /\
    Dict.get "column" (first_issue r') = Some (PStr "x") /\
    Dict.get "count" (first_issue r') = Some (PNat cnt) /\
    Dict.get "row_indices" (first_issue r') = Some (PList rows) /\
    List.length rows = cnt.
Proof.
  apply (outlier_evidence_matches_count sample_to_numeric_str df_iqr
           (int_column "x" iqr_sample)).
  - repeat constructor; simpl; intuition discriminate.
  - left. reflexivity.
  - discriminate.
  - reflexivity.
  - left. vm_compute. reflexivity.
Defined.

(** ** The temporal rule *)

Lemma dict_get_in {V} (k : string) (v : V) (d : list (string * V)) :
  NoDup (map fst d) -> (Dict.get k d = Some v <-> In (k, v) d).
Proof.
  induction d as [|[k0 v0] d IH]; simpl; intros H.
  - split; [discriminate | tauto].
  - inversion H as [|? ? Hk Hr]; subst.
    destruct (String.eqb_spec k k0) as [E|N].
    + subst k0. split.
      * intros G. injection G as ->. left. reflexivity.
      * intros [G|G]; [congruence|].
        exfalso. apply Hk. apply (in_map fst) in G. exact G.
    + rewrite (IH Hr). split; [tauto|].
      intros [G|G]; [congruence | exact G].
Qed.

Section TemporalRule.

Variable to_datetime : Series -> option (list (option Z)).

Lemma parsed_keys_NoDup (l : list Series) :
  NoDup (map s_name l) ->
  NoDup (map fst (filter_map (parsed_entry to_datetime) l)).
Proof.
  induction l as [|c l IH]; simpl; intros H; [constructor|].
  inversion H as [|? ? Hc Hr]; subst.
  unfold parsed_entry at 1. destruct (to_datetime c) as [s|]; simpl; [|auto].
  constructor; [|auto].
  intros I. apply Hc. apply in_map_iff in I. destruct I as [[k v] [E I]].
  simpl in E. subst k. apply in_filter_map in I. destruct I as [c' [Hc' P]].
  unfold parsed_entry in P. destruct (to_datetime c'); [|discriminate].
  injection P as <- _. apply in_map. exact Hc'.
Qed.

Lemma parsed_lookup (df : DataFrame) (k : string) (s : list (option Z)) :
  NoDup (df_columns df) ->
  (Dict.get k (parse_dates to_datetime df) = Some s <->
   exists col, In col df /\ is_date_column col = true /\ s_name col = k /\
               to_datetime col = Some s).
Proof.
  intros H. rewrite parse_dates_entries by exact H.
  rewrite dict_get_in
    by (apply parsed_keys_NoDup; apply (filter_columns_NoDup is_date_column df H)).
  rewrite in_filter_map. split.
  - intros [col [Hc P]]. apply filter_In in Hc. destruct Hc as [Hc Hd].
    unfold parsed_entry in P. destruct (to_datetime col) as [s'|] eqn:T; [|discriminate].
    injection P as <- <-. exists col. auto.
  - intros [col (Hc & Hd & Hn & T)]. exists col. split; [apply filter_In; auto|].
    unfold parsed_entry. rewrite T, Hn. reflexivity.
Qed.

(** X16: with distinct column names, the finding "Temporal Rule:
    ship_date >= order_date" is emitted if and only if the dataset has a
    column named order_date and one named ship_date, both coerce to
    dates, and at least one row has both dates valid with the ship date
    before the order date; the finding is major and records the number
    of such rows. *)
Theorem temporal_rule_report (df : DataFrame) :
  NoDup (df_columns df) ->
  ((exists r, In r (check_dates to_datetime df) /\
              name r = "Temporal Rule: ship_date ≥ order_date"%string) <->
   exists order ship so ss,
     In order df /\ s_name order = "order_date"%string /\
     In ship df /\ s_name ship = "ship_date"%string /\
     to_datetime order = Some so /\ to_datetime ship = Some ss /\
     (0 < count_true (ship_before_order ss so))%nat) /\
  (forall r, In r (check_dates to_datetime df) ->
             name r = "Temporal Rule: ship_date ≥ order_date"%string ->
             severity r = "major"%string /\
             exists so ss,
               Dict.get "order_date" (parse_dates to_datetime df) = Some so /\
               Dict.get "ship_date" (parse_dates to_datetime df) = Some ss /\
               issues r = [[("violations"%string,
                             PNat (count_true (ship_before_order ss so)))]]).
Proof.
  intros H.
  assert (Hshape : forall r, In r (check_dates to_datetime df) ->
             name r = "Temporal Rule: ship_date ≥ order_date"%string ->
             exists so ss,
               Dict.get "order_date" (parse_dates to_datetime df) = Some so /\
               Dict.get "ship_date" (parse_dates to_datetime df) = Some ss /\
               (0 < count_true (ship_before_order ss so))%nat /\
               severity r = "major"%string /\
               issues r = [[("violations"%string,
                             PNat (count_true (ship_before_order ss so)))]]).
  { intros r Hr Hn. unfold check_dates in Hr. cbv zeta in Hr.
    apply in_app_or in Hr. destruct Hr as [Hr|Hr].
    - exfalso. apply in_flat_map in Hr. destruct Hr as [[c s] [_ Hr]].
      unfold invalid_dates in Hr. cbv zeta in Hr.
      destruct (0 <? _)%nat; [|destruct Hr].
      destruct Hr as [<-|[]]. simpl in Hn. discriminate Hn.
    - unfold temporal_rule in Hr.
      destruct (Dict.get "order_date" _) as [so|]; [|destruct Hr].
      destruct (Dict.get "ship_date" _) as [ss|]; [|destruct Hr].
      cbv zeta in Hr. destruct (0 <? _)%nat eqn:P; [|destruct Hr].
      destruct Hr as [<-|[]]. apply Nat.ltb_lt in P.
      exists so, ss. repeat split; auto. }
  split; [split|].
  - intros [r [Hr Hn]]. destruct (Hshape r Hr Hn) as (so & ss & Go & Gs & P & _).
    apply (parsed_lookup df "order_date" so H) in Go.
    apply (parsed_lookup df "ship_date" ss H) in Gs.
    destruct Go as [order (Io & _ & No & To)]. destruct Gs as [ship (Is & _ & Ns & Ts)].
    exists order, ship, so, ss. auto 10.
  - intros (order & ship & so & ss & Io & No & Is & Ns & To & Ts & P).
    assert (Go : Dict.get "order_date" (parse_dates to_datetime df) = Some so).
    { apply (parsed_lookup df "order_date" so H). exists order.
      repeat split; auto. unfold is_date_column. rewrite No. reflexivity. }
    assert (Gs : Dict.get "ship_date" (parse_dates to_datetime df) = Some ss).
    { apply (parsed_lookup df "ship_date" ss H). exists ship.
      repeat split; auto. unfold is_date_column. rewrite Ns. reflexivity. }
    unfold check_dates. cbv zeta. unfold temporal_rule. rewrite Go, Gs. cbv zeta.
    apply Nat.ltb_lt in P. rewrite P.
    eexists. split; [apply in_or_app; right; left; reflexivity | reflexivity].
  - intros r Hr Hn. destruct (Hshape r Hr Hn) as (so & ss & Go & Gs & _ & S & I).
    split; [exact S|]. exists so, ss. auto.
Qed.

End TemporalRule.

Lemma temporal_rule_report_witness :
  exists r, In r (check_dates sample_to_datetime df_shipping) /\
            name r = "Temporal Rule: ship_date ≥ order_date"%string.
Proof.
  assert (H : NoDup (df_columns df_shipping))
    by (repeat constructor; simpl; intuition discriminate).
  destruct (temporal_rule_report sample_to_datetime df_shipping H) as [[_ W] _].
  apply W.
  exists (mkSeries "order_date" Datetime64 [VTime 5; VTime 9]),
         (mkSeries "ship_date" Datetime64 [VTime 7; VTime 3]),
         [Some 5%Z; Some 9%Z], [Some 7%Z; Some 3%Z].
  simpl. repeat split; auto.
Defined.

(** ** Every finding comes from the rule catalog *)

Ltac catalog :=
  unfold catalogued; cbn [name severity];
  solve [ repeat (first [ solve [split; [reflexivity | reflexivity]]
                        | solve [split; [eexists; reflexivity | reflexivity]]
                        | solve [left; split; [reflexivity | reflexivity]]
                        | solve [left; split; [eexists; reflexivity | reflexivity]]
                        | right ]) ].

Lemma check_schema_catalogued (df : DataFrame) (baseline : option Baseline) :
  Forall catalogued (check_schema df baseline).
Proof.
  unfold check_schema.
  destruct (negb (truthy baseline)); [constructor|].
  cbv zeta.
  repeat match goal with
         | |- context [if nonempty ?l then _ else _] => destruct (nonempty l)
         end;
    repeat (apply Forall_app; split);
    repeat (apply Forall_cons; [catalog|]);
    apply Forall_nil.
Qed.

Lemma check_primary_key_catalogued (df : DataFrame) (pk : list string)
      (fs : list CheckResult) :
  check_primary_key df pk = Ok fs -> Forall catalogued fs.
Proof.
  unfold check_primary_key.
  destruct (negb (nonempty pk)); [intros E; injection E as <-; constructor|].
  destruct (subset_rows df pk) as [keys|e]; simpl; [|discriminate].
  destruct (0 <? _)%nat; intros E; injection E as <-; [|constructor].
  apply Forall_cons; [catalog | constructor].
Qed.

Lemma check_missing_duplicates_types_catalogued (df : DataFrame) :
  Forall catalogued (check_missing_duplicates_types df).
Proof.
  unfold check_missing_duplicates_types. cbv zeta.
  destruct (0 <? List.length _)%nat; destruct (0 <? count_true _)%nat; simpl;
    repeat (apply Forall_cons; [catalog|]); apply Forall_nil.
Qed.

Lemma catalogued_frame (r r' : CheckResult) :
  step_frame r r' -> catalogued r -> catalogued r'.
Proof.
  intros (Hn & Hs & _) H. unfold catalogued in *. rewrite Hn, Hs. exact H.
Qed.

(** Remediation text exists for a catalogued finding exactly when it is
    not minor. *)
Lemma catalogued_friendly (r : CheckResult) :
  catalogued r ->
  (friendly_key (name r) = None <-> severity r = "minor"%string) /\
  (severity r <> "minor"%string ->
   exists k wh, friendly_key (name r) = Some k /\ Dict.get k FRIENDLY = Some wh).
Proof.
  unfold catalogued. intros H.
  repeat match type of H with
         | _ \/ _ => destruct H as [H|H]
         end;
    destruct H as [Hn Hs];
    try match type of Hn with ex _ => destruct Hn as [c Hn] end;
    rewrite Hn, Hs;
    (split; [split; intros E; discriminate E || reflexivity
            | intros N; try congruence; eexists; eexists; split; reflexivity]).
Qed.

Lemma catalogued_severity (r : CheckResult) :
  catalogued r ->
  severity r = "critical"%string \/ severity r = "major"%string
  \/ severity r = "minor"%string.
Proof.
  unfold catalogued. intros H.
  repeat match type of H with
         | _ \/ _ => destruct H as [H|H]
         end;
    destruct H as [_ ->]; auto.
Qed.

Lemma severity_counts_total (results : list CheckResult) :
  Forall catalogued results ->
  (severity_count "critical" results + severity_count "major" results
   + severity_count "minor" results = List.length results)%nat.
Proof.
  unfold severity_count.
  induction 1 as [|r rs Hr _ IH]; simpl; [reflexivity|].
  destruct (catalogued_severity r Hr) as [-> | [-> | ->]]; simpl; lia.
Qed.

Section Catalog.

Variable is_string_dtype : Series -> bool.
Variable to_numeric_str : string -> option Q.
Variable to_datetime : Series -> option (list (option Z)).
Variable repr_float : Q -> string.
Variable repr_time : Z -> string.
Variable re_letter_digit : string -> bool.
Variable re_email : string -> bool.
Variable re_uk_postcode : string -> bool.

Let audit := run is_string_dtype to_numeric_str to_datetime repr_float
                 repr_time re_letter_digit re_email re_uk_postcode.

Lemma check_outliers_iqr_catalogued (df : DataFrame) :
  Forall catalogued (check_outliers_iqr to_numeric_str df).
Proof.
  apply Forall_flat_map. intros col. unfold outliers_of_column.
  destruct (is_numeric_dtype _); [|constructor].
  cbv zeta. destruct (_ <? 10)%nat; [constructor|].
  destruct (iqr_bounds _) as [lo hi].
  destruct (0 <? _)%nat; [|constructor].
  apply Forall_cons; [catalog | constructor].
Qed.

Lemma check_rare_categories_catalogued (df : DataFrame) (min_ratio : Q) :
  Forall catalogued
         (check_rare_categories is_string_dtype repr_float repr_time df min_ratio).
Proof.
  apply Forall_flat_map. intros col. unfold rare_of_column.
  destruct (_ || _); [|constructor].
  cbv zeta. destruct (0 <? _)%nat; [|constructor].
  apply Forall_cons; [catalog | constructor].
Qed.

Lemma check_semantic_regex_catalogued (df : DataFrame) :
  Forall catalogued
         (check_semantic_regex is_string_dtype repr_float repr_time
                               re_letter_digit re_email re_uk_postcode df).
Proof.
  apply Forall_flat_map. intros col. unfold semantic_of_column.
  destruct (is_string_dtype col); [|constructor].
  cbv zeta. destruct (_ =? 0)%nat; [constructor|].
  apply Forall_app. split.
  - destruct (Qltb _ _); [|constructor]. unfold semantic_violation. cbv zeta.
    destruct (Qltb _ _); [|constructor].
    apply Forall_cons; [catalog | constructor].
  - destruct (Qltb _ _); [|constructor]. unfold semantic_violation. cbv zeta.
    destruct (Qltb _ _); [|constructor].
    apply Forall_cons; [catalog | constructor].
Qed.

Lemma check_dates_catalogued (df : DataFrame) :
  Forall catalogued (check_dates to_datetime df).
Proof.
  unfold check_dates. cbv zeta. apply Forall_app. split.
  - apply Forall_flat_map. intros [c s]. unfold invalid_dates.
    cbv zeta. destruct (0 <? _)%nat; [|constructor].
    apply Forall_cons; [catalog | constructor].
  - unfold temporal_rule.
    destruct (Dict.get "order_date" _); [|constructor].
    destruct (Dict.get "ship_date" _); [|constructor].
    cbv zeta. destruct (0 <? _)%nat; [|constructor].
    apply Forall_cons; [catalog | constructor].
Qed.

Lemma audit_catalogued (df : DataFrame) (baseline : option Baseline)
      (results : list CheckResult) (score : Q) :
  audit df baseline = Ok (results, score) -> Forall catalogued results.
Proof.
  unfold audit, run.
  match goal with
  | |- bind ?m _ = _ -> _ => destruct m as [found|] eqn:C; simpl; [|discriminate]
  end.
  destruct (enrich to_numeric_str df found) as [enriched|] eqn:E; simpl; [|discriminate].
  intros R. injection R as <- _.
  destruct (run_checks_parts _ _ _ _ _ _ _ _ df baseline found C) as [pkr [Hpk ->]].
  eapply (Forall2_transfer catalogued _ catalogued);
    [| | exact (enrich_frames _ _ _ _ E)].
  { intros x y Hx Fxy. exact (catalogued_frame x y Fxy Hx). }
  apply Forall_app. split; [apply check_schema_catalogued|].
  apply Forall_app. split.
  { destruct Hpk as [->|[pk Hpk]]; [constructor|].
    exact (check_primary_key_catalogued df pk pkr Hpk). }
  apply Forall_app. split; [apply check_missing_duplicates_types_catalogued|].
  apply Forall_app. split; [apply check_outliers_iqr_catalogued|].
  apply Forall_app. split; [apply check_rare_categories_catalogued|].
  apply Forall_app. split; [apply check_semantic_regex_catalogued|].
  apply check_dates_catalogued.
Qed.

(** X17: the audit only reports rules of its catalog, each with the one
    severity the catalog fixes for it; so two findings of an audit that
    bear the same name have the same severity, before and after
    enrichment. *)
Theorem audit_reports_catalogued_rules (df : DataFrame) (baseline : option Baseline)
        (results : list CheckResult) (score : Q) :
  audit df baseline = Ok (results, score) ->
  Forall catalogued results /\
  (forall r r', In r results -> In r' results ->
                name r = name r' -> severity r = severity r').
Proof.
  intros H. pose proof (audit_catalogued df baseline results score H) as C.
  split; [exact C|].
  rewrite Forall_forall in C. intros r r' Hr Hr' E.
  pose proof (C r Hr) as Cr. pose proof (C r' Hr') as Cr'.
  unfold catalogued in Cr, Cr'.
  repeat match type of Cr with
         | _ \/ _ => destruct Cr as [Cr|Cr]
         end;
    destruct Cr as [Hn Hs];
    try match type of Hn with ex _ => destruct Hn as [c Hn] end;
    rewrite Hn in E; rewrite Hs;
    repeat match type of Cr' with
           | _ \/ _ => destruct Cr' as [Cr'|Cr']
           end;
    destruct Cr' as [Hn' Hs'];
    try match type of Hn' with ex _ => destruct Hn' as [c' Hn'] end;
    rewrite Hn' in E; rewrite Hs';
    first [reflexivity | simpl in E; discriminate E].
Qed.

(** X18: the presentation has remediation text for exactly the critical
    and major findings of an audit: their cards and fixes use an entry
    of the remediation table, while the cards of minor findings fall
    back to the generic note. *)
Theorem remediation_covers_critical_and_major
        (df : DataFrame) (baseline : option Baseline)
        (results : list CheckResult) (score : Q) :
  audit df baseline = Ok (results, score) ->
  Forall (fun r =>
            (card_friendly (card_of r) = None <-> severity r = "minor"%string) /\
            (severity r <> "minor"%string ->
             exists k wh, Dict.get k FRIENDLY = Some wh /\
                          Str.startswith (name r) k = true /\
                          card_friendly (card_of r) = Some wh /\
                          fix_of r = mkFix k (severity r) (fst wh) (snd wh)))
         results.
Proof.
  intros H. eapply Forall_impl; [|exact (audit_catalogued df baseline results score H)].
  intros r Cr. destruct (catalogued_friendly r Cr) as [[N1 N2] S].
  split; [split|].
  - unfold card_of. cbn [card_friendly].
    destruct (friendly_key (name r)) as [k|] eqn:K; [|intros _; apply N1; reflexivity].
    intros G. exfalso.
    destruct (severity r =? "minor")%string eqn:M.
    + apply String.eqb_eq in M. specialize (N2 M). discriminate N2.
    + apply String.eqb_neq in M. destruct (S M) as (k' & wh & K' & W).
      injection K' as <-. congruence.
  - intros M. unfold card_of. cbn [card_friendly]. rewrite (N2 M). reflexivity.
  - intros M. destruct (S M) as (k & wh & K & W).
    exists k, wh. split; [exact W|]. split.
    + unfold friendly_key in K. apply find_some in K. tauto.
    + split.
      * unfold card_of. cbn [card_friendly]. rewrite K. exact W.
      * unfold fix_of. rewrite K. cbn [get_or]. rewrite W. reflexivity.
Qed.

(** X19: the three severity counters shown with the score account for
    every finding of the audit. *)
Theorem severity_counters_cover_all_findings
        (df : DataFrame) (baseline : option Baseline)
        (results : list CheckResult) (score : Q) :
  audit df baseline = Ok (results, score) ->
  (severity_count "critical" results + severity_count "major" results
   + severity_count "minor" results = List.length results)%nat.
Proof.
  intros H. apply severity_counts_total.
  exact (audit_catalogued df baseline results score H).
Qed.

End Catalog.

Lemma audit_reports_catalogued_rules_witness :
  Forall catalogued sample_enriched /\
  (forall r r', In r sample_enriched -> In r' sample_enriched ->
                name r = name r' -> severity r = severity r').
Proof.
  apply (audit_reports_catalogued_rules
           sample_is_string_dtype sample_to_numeric_str sample_to_datetime
           sample_repr_float sample_repr_time sample_pattern sample_pattern
           sample_pattern df_orders None sample_enriched
           (compute_score sample_enriched)).
  vm_compute. reflexivity.
Defined.

Lemma remediation_covers_critical_and_major_witness :
  Forall (fun r =>
            (card_friendly (card_of r) = None <-> severity r = "minor"%string) /\
            (severity r <> "minor"%string ->
             exists k wh, Dict.get k FRIENDLY = Some wh /\
                          Str.startswith (name r) k = true /\
                          card_friendly (card_of r) = Some wh /\
                          fix_of r = mkFix k (severity r) (fst wh) (snd wh)))
         sample_enriched.
Proof.
  apply (remediation_covers_critical_and_major
           sample_is_string_dtype sample_to_numeric_str sample_to_datetime
           sample_repr_float sample_repr_time sample_pattern sample_pattern
           sample_pattern df_orders None sample_enriched
           (compute_score sample_enriched)).
  vm_compute. reflexivity.
Defined.

Lemma severity_counters_cover_all_findings_witness :
  (severity_count "critical" sample_enriched + severity_count "major" sample_enriched
   + severity_count "minor" sample_enriched = List.length sample_enriched)%nat.
Proof.
  apply (severity_counters_cover_all_findings
           sample_is_string_dtype sample_to_numeric_str sample_to_datetime
           sample_repr_float sample_repr_time sample_pattern sample_pattern
           sample_pattern df_orders None sample_enriched
           (compute_score sample_enriched)).
  vm_compute. reflexivity.
Defined.

(** ** Largest first *)

Section SortFacts.

Context {A : Type} (leb : A -> A -> bool).
Hypothesis leb_total : forall a b, leb a b = true \/ leb b a = true.
Hypothesis leb_trans : forall a b c, leb a b = true -> leb b c = true -> leb a c = true.

Let precedes (a b : A) : Prop := leb a b = true.

Lemma insert_by_sorted (x : A) (l : list A) :
  StronglySorted precedes l -> StronglySorted precedes (insert_by leb x l).
Proof.
  induction 1 as [|y l Hs IH Hy]; simpl.
  - constructor; constructor.
  - destruct (leb x y) eqn:E.
    + constructor; [constructor; assumption|].
      constructor; [exact E|].
      eapply Forall_impl; [|exact Hy]. intros z Hz. exact (leb_trans x y z E Hz).
    + constructor; [exact IH|].
      apply Forall_forall. intros z Hz. apply insert_by_in in Hz.
      destruct Hz as [->|Hz].
      * destruct (leb_total x y) as [F|F]; [congruence | exact F].
      * rewrite Forall_forall in Hy. exact (Hy z Hz).
Qed.

Lemma sort_by_sorted (l : list A) : StronglySorted precedes (sort_by leb l).
Proof.
  unfold sort_by. induction l as [|x l IH]; simpl; [constructor|].
  apply insert_by_sorted. exact IH.
Qed.

End SortFacts.

Lemma insert_by_perm {A} (leb : A -> A -> bool) (x : A) (l : list A) :
  Permutation (insert_by leb x l) (x :: l).
Proof.
  induction l as [|y l IH]; simpl; [reflexivity|].
  destruct (leb x y); [reflexivity|].
  rewrite IH. apply perm_swap.
Qed.

Lemma sort_by_perm {A} (leb : A -> A -> bool) (l : list A) :
  Permutation (sort_by leb l) l.
Proof.
  unfold sort_by. induction l as [|x l IH]; simpl; [reflexivity|].
  rewrite insert_by_perm, IH. reflexivity.
Qed.

Lemma sorted_split {A} (R : A -> A -> Prop) (l1 l2 : list A) :
  StronglySorted R (l1 ++ l2) ->
  StronglySorted R l1 /\ (forall a b, In a l1 -> In b l2 -> R a b).
Proof.
  induction l1 as [|x l1 IH]; simpl; intros H.
  - split; [constructor | intros a b []].
  - inversion H as [|? ? Hs Hx]; subst. destruct (IH Hs) as [S C].
    split.
    + constructor; [exact S|]. apply Forall_app in Hx. tauto.
    + intros a b [<-|Ha] Hb.
      * rewrite Forall_forall in Hx. apply Hx. apply in_or_app. right. exact Hb.
      * exact (C a b Ha Hb).
Qed.

(** The first [k] of a list sorted largest first: they are sorted, and
    what is left over is no larger than any of them. *)
Lemma largest_first {A} (leb : A -> A -> bool) (k : nat) (l : list A) :
  (forall a b, leb a b = true \/ leb b a = true) ->
  (forall a b c, leb a b = true -> leb b c = true -> leb a c = true) ->
  let top := firstn k (sort_by leb l) in
  (List.length top <= k)%nat /\
  List.length top = Nat.min k (List.length l) /\
  StronglySorted (fun a b => leb a b = true) top /\
  exists rest,
    Permutation (top ++ rest) l /\
    (forall a b, In a top -> In b rest -> leb a b = true).
Proof.
  intros Ht Hr top.
  pose proof (sort_by_sorted leb Ht Hr l) as S.
  rewrite <- (firstn_skipn k (sort_by leb l)) in S. fold top in S.
  destruct (sorted_split _ _ _ S) as [S1 C].
  split; [apply firstn_le_length|].
  split; [unfold top; rewrite length_firstn, sort_by_length; reflexivity|].
  split; [exact S1|].
  exists (skipn k (sort_by leb l)). split; [|exact C].
  unfold top. rewrite firstn_skipn. apply sort_by_perm.
Qed.

Lemma impact_order_total (a b : CheckResult) :
  Qle_bool (impact b) (impact a) = true \/ Qle_bool (impact a) (impact b) = true.
Proof.
  rewrite !Qle_bool_iff. destruct (Qlt_le_dec (impact a) (impact b)); [right | left]; lra.
Qed.

Lemma impact_order_trans (a b c : CheckResult) :
  Qle_bool (impact b) (impact a) = true -> Qle_bool (impact c) (impact b) = true ->
  Qle_bool (impact c) (impact a) = true.
Proof. rewrite !Qle_bool_iff. intros. lra. Qed.

(** X20: the "Top fixes" card shows at most three findings, all critical
    or major and of a ticked severity, taken from the stored results, in
    order of decreasing impact; every critical or major ticked finding
    that is not shown has an impact no larger than any finding shown. *)
Theorem top_fixes_are_the_largest (sev_filter : option (list string))
        (res : list CheckResult) :
  let filtered := filter_findings sev_filter res in
  let top := top_fixes filtered in
  fst (render_filtered sev_filter (Some res)) = map fix_of top /\
  (List.length top <= 3)%nat /\
  List.length top = Nat.min 3 (List.length (fix_candidates filtered)) /\
  Forall (fun r => In r res /\
                   in_severities (severity r) (get_or sev_filter []) = true /\
                   (severity r = "critical"%string \/ severity r = "major"%string))
         top /\
  StronglySorted (fun a b => impact b <= impact a) top /\
  exists rest,
    Permutation (top ++ rest) (fix_candidates filtered) /\
    (forall a b, In a top -> In b rest -> impact b <= impact a).
Proof.
  intros filtered top.
  destruct (largest_first (fun a b : CheckResult => Qle_bool (impact b) (impact a))
              3 (fix_candidates filtered) impact_order_total
              (fun a b c H1 H2 => impact_order_trans a b c H1 H2))
    as (L1 & L2 & S & rest & P & C).
  fold (by_impact_desc (fix_candidates filtered)) in L1, L2, S, P, C.
  fold (top_fixes filtered) in L1, L2, S, P, C. fold top in L1, L2, S, P, C.
  split.
  { unfold render_filtered. destruct res as [|r0 res0]; reflexivity. }
  split; [exact L1|]. split; [exact L2|]. split.
  { apply Forall_forall. intros r Hr.
    assert (Hc : In r (fix_candidates filtered)).
    { apply (Permutation_in r P). apply in_or_app. left. exact Hr. }
    unfold fix_candidates in Hc. apply filter_In in Hc. destruct Hc as [Hf Hs].
    unfold filtered, filter_findings in Hf. apply filter_In in Hf.
    destruct Hf as [Hres Hall].
    split; [exact Hres|]. split; [exact Hall|].
    unfold in_severities in Hs. simpl in Hs.
    destruct (String.eqb_spec (severity r) "critical"); [left; assumption|].
    destruct (String.eqb_spec (severity r) "major"); [right; assumption|].
    discriminate Hs. }
  split.
  { clear - S. induction S as [|a l Hs IH Ha]; constructor; [exact IH|].
    eapply Forall_impl; [|exact Ha]. intros b Hb. apply Qle_bool_iff. exact Hb. }
  exists rest. split; [exact P|].
  intros a b Ha Hb. apply Qle_bool_iff. exact (C a b Ha Hb).
Qed.

(** ** What the schema check reports *)

Lemma in_py_set (l : list string) (c : string) : In c (py_set l) <-> In c l.
Proof. unfold py_set. apply nodup_In. Qed.

Lemma in_set_diff (a b : list string) (c : string) :
  In c (set_diff a b) <-> In c a /\ ~ In c b.
Proof.
  unfold set_diff. rewrite filter_In. split; intros [Ha Hb]; split; try exact Ha.
  - intros F. apply negb_true_iff in Hb.
    assert (E : existsb (String.eqb c) b = true).
    { apply existsb_exists. exists c. split; [exact F | apply String.eqb_refl]. }
    congruence.
  - apply negb_true_iff. destruct (existsb (String.eqb c) b) eqn:E; [|reflexivity].
    apply existsb_exists in E. destruct E as [x [Hx Ex]].
    apply String.eqb_eq in Ex. subst x. contradiction.
Qed.

Lemma column_sets_differ (a b : list string) (c : string) :
  In c (set_diff (py_set a) (py_set b)) <-> In c a /\ ~ In c b.
Proof. rewrite in_set_diff, !in_py_set. reflexivity. Qed.

Lemma column_sets_distinct (a b : list string) :
  NoDup (set_diff (py_set a) (py_set b)).
Proof. unfold set_diff. apply NoDup_filter. unfold py_set. apply NoDup_nodup. Qed.

Lemma nonempty_iff {A} (l : list A) : nonempty l = true <-> l <> [].
Proof. destruct l; simpl; split; congruence. Qed.

Lemma nonempty_member {A} (l : list A) : nonempty l = true <-> exists x, In x l.
Proof.
  destruct l as [|x l]; simpl; split; try discriminate.
  - intros [x []].
  - intros _. exists x. left. reflexivity.
  - reflexivity.
Qed.

Lemma optional_findings (b1 b2 b3 : bool) (m n d r : CheckResult) :
  In r ((if b1 then [m] else []) ++ (if b2 then [n] else [])
        ++ (if b3 then [d] else []))%list <->
  (b1 = true /\ r = m) \/ (b2 = true /\ r = n) \/ (b3 = true /\ r = d).
Proof.
  destruct b1, b2, b3; simpl; intuition congruence.
Qed.

(** The list the schema check returns, finding by finding. *)
Lemma check_schema_parts (df : DataFrame) (b : Baseline) :
  truthy (Some b) = true ->
  let missing := set_diff (py_set (get_or (b_columns b) [])) (py_set (df_columns df)) in
  let new := set_diff (py_set (df_columns df)) (py_set (get_or (b_columns b) [])) in
  exists drift,
    check_schema df (Some b)
    = ((if nonempty missing
        then [mkCheckResult "Missing Columns" "critical"
                [[("missing"%string, PList (map PStr missing))]]
                (norm (Qnat (List.length missing)) 10)]
        else []) ++
       (if nonempty new
        then [mkCheckResult "Unexpected Columns" "major"
                [[("new"%string, PList (map PStr new))]]
                (norm (Qnat (List.length new)) 10)]
        else []) ++
       (if nonempty drift
        then [mkCheckResult "Dtype Drift" "major" drift
                (norm (Qnat (List.length drift)) 15)]
        else []))%list /\
    (nonempty drift = true <->
     exists c exp col, In (c, exp) (get_or (b_dtypes b) []) /\
                       df_get df c = Ok col /\ dtype_str (s_dtype col) <> exp).
Proof.
  intros T missing new.
  unfold check_schema. rewrite T.
  cbv beta iota zeta delta [negb].
  change (get_or (Some b) (mkBaseline None None None)) with b.
  fold missing. fold new.
  match goal with
  | |- context [nonempty (flat_map ?f ?l)] => set (drift := flat_map f l)
  end.
  exists drift. split.
  - destruct (nonempty missing), (nonempty new); cbv delta [pydict];
      destruct (nonempty drift); reflexivity.
  - rewrite nonempty_member. unfold drift. split.
    + intros [x Hx]. apply in_flat_map in Hx. destruct Hx as [[c exp] [Hin Hx]].
      destruct (has_column df c); [|destruct Hx].
      destruct (df_get df c) as [col|e] eqn:G; [|destruct Hx].
      destruct (String.eqb_spec (dtype_str (s_dtype col)) exp) as [E|N]; [destruct Hx|].
      exists c, exp, col. unfold get_or. auto.
    + intros (c & exp & col & Hin & G & N).
      eexists. apply in_flat_map. exists (c, exp). split; [exact Hin|].
      rewrite (has_column_in df c (df_get_ok_in df c col G)), G.
      destruct (String.eqb_spec (dtype_str (s_dtype col)) exp) as [E|_]; [contradiction|].
      left. reflexivity.
Qed.

(** X21: under a baseline that is not empty, the schema check reports
    exactly the differences between the declared and the actual columns.
    A "Missing Columns" finding is emitted if and only if some declared
    column is absent from the dataset, and it lists each absent declared
    column once; an "Unexpected Columns" finding is emitted if and only if
    some column of the dataset is not declared, and it lists each such
    column once; a "Dtype Drift" finding is emitted if and only if some
    column with a declared dtype is present with a different dtype.  The
    impact of the first two is the number of listed columns over 10,
    clamped to [0, 1]. *)
Theorem check_schema_reports_the_differences (df : DataFrame) (b : Baseline) :
  truthy (Some b) = true ->
  let expected := get_or (b_columns b) [] in
  let actual := df_columns df in
  let result := check_schema df (Some b) in
  ((exists r, In r result /\ name r = "Missing Columns"%string) <->
   (exists c, In c expected /\ ~ In c actual)) /\
  (forall r, In r result -> name r = "Missing Columns"%string ->
     exists l, issues r = [[("missing"%string, PList (map PStr l))]] /\
               NoDup l /\
               (forall c, In c l <-> In c expected /\ ~ In c actual) /\
               impact r = norm (Qnat (List.length l)) 10) /\
  ((exists r, In r result /\ name r = "Unexpected Columns"%string) <->
   (exists c, In c actual /\ ~ In c expected)) /\
  (forall r, In r result -> name r = "Unexpected Columns"%string ->
     exists l, issues r = [[("new"%string, PList (map PStr l))]] /\
               NoDup l /\
               (forall c, In c l <-> In c actual /\ ~ In c expected) /\
               impact r = norm (Qnat (List.length l)) 10) /\
  ((exists r, In r result /\ name r = "Dtype Drift"%string) <->
   (exists c exp col, In (c, exp) (get_or (b_dtypes b) []) /\
                      df_get df c = Ok col /\ dtype_str (s_dtype col) <> exp)).
Proof.
  intros T expected actual result.
  destruct (check_schema_parts df b T) as [drift [E D]].
  fold expected in E. fold actual in E. unfold result. rewrite E. clear E.
  set (missing := set_diff (py_set expected) (py_set actual)).
  set (new := set_diff (py_set actual) (py_set expected)).
  assert (M : nonempty missing = true <-> exists c, In c expected /\ ~ In c actual).
  { rewrite nonempty_member. unfold missing.
    split; intros [c H]; exists c; apply column_sets_differ; exact H. }
  assert (N : nonempty new = true <-> exists c, In c actual /\ ~ In c expected).
  { rewrite nonempty_member. unfold new.
    split; intros [c H]; exists c; apply column_sets_differ; exact H. }
  split; [|split; [|split; [|split]]].
  - rewrite <- M. split.
    + intros [r [Hr Hn]]. apply optional_findings in Hr.
      destruct Hr as [[Hb _] | [[_ ->] | [_ ->]]]; [exact Hb | discriminate Hn ..].
    + intros Hb. eexists. split; [apply optional_findings; left; split; [exact Hb | reflexivity]|].
      reflexivity.
  - intros r Hr Hn. apply optional_findings in Hr.
    destruct Hr as [[_ ->] | [[_ ->] | [_ ->]]]; [| discriminate Hn ..].
    exists missing. split; [reflexivity|]. split; [apply column_sets_distinct|].
    split; [intros c; apply column_sets_differ | reflexivity].
  - rewrite <- N. split.
    + intros [r [Hr Hn]]. apply optional_findings in Hr.
      destruct Hr as [[_ ->] | [[Hb _] | [_ ->]]]; [discriminate Hn | exact Hb | discriminate Hn].
    + intros Hb. eexists.
      split; [apply optional_findings; right; left; split; [exact Hb | reflexivity]|].
      reflexivity.
  - intros r Hr Hn. apply optional_findings in Hr.
    destruct Hr as [[_ ->] | [[_ ->] | [_ ->]]]; [discriminate Hn | | discriminate Hn].
    exists new. split; [reflexivity|]. split; [apply column_sets_distinct|].
    split; [intros c; apply column_sets_differ | reflexivity].
  - rewrite <- D. split.
    + intros [r [Hr Hn]]. apply optional_findings in Hr.
      destruct Hr as [[_ ->] | [[_ ->] | [Hb _]]]; [discriminate Hn .. | exact Hb].
    + intros Hb. eexists.
      split; [apply optional_findings; right; right; split; [exact Hb | reflexivity]|].
      reflexivity.
Qed.

Lemma check_schema_reports_the_differences_witness :
  let b := mkBaseline (Some ["order_id"; "region"]%string)
                      (Some [("order_id", "float64")]%string) None in
  truthy (Some b) = true /\
  (exists r, In r (check_schema df_orders (Some b)) /\ name r = "Missing Columns"%string) /\
  (exists r, In r (check_schema df_orders (Some b)) /\ name r = "Unexpected Columns"%string).
Proof.
  intros b. split; [reflexivity|].
  pose proof (check_schema_reports_the_differences df_orders b eq_refl)
    as (M & _ & N & _ & _).
  split.
  - apply M. exists "region"%string. split; [simpl; tauto|].
    vm_compute. intros H. repeat destruct H as [H|H]; try discriminate H; exact H.
  - apply N. exists "order_date"%string. split; [vm_compute; tauto|].
    simpl. intros H. repeat destruct H as [H|H]; try discriminate H; exact H.
Defined.

(** ** The sample of outliers shown *)





(** ** The score and the findings it is computed from *)

Lemma penalty_term_grows (r r' : CheckResult) :
  0 <= impact r -> impact r <= impact r' ->
  (weights_get (severity r) 1 <= weights_get (severity r') 1)%Z ->
  penalty_term r <= penalty_term r'.
Proof.
  intros H0 Hi Hw. unfold penalty_term.
  pose proof (weights_get_pos (severity r)) as W.
  assert (Wq : 0 < inject_Z (weights_get (severity r) 1)).
  { change 0 with (inject_Z 0). rewrite <- Zlt_Qlt. exact W. }
  assert (Wl : inject_Z (weights_get (severity r) 1)
               <= inject_Z (weights_get (severity r') 1)).
  { rewrite <- Zle_Qle. exact Hw. }
  assert (A : inject_Z (weights_get (severity r) 1) * impact r
              <= inject_Z (weights_get (severity r) 1) * impact r').
  { rewrite !(Qmult_comm (inject_Z _)). apply Qmult_le_compat_r; lra. }
  assert (B : inject_Z (weights_get (severity r) 1) * impact r'
              <= inject_Z (weights_get (severity r') 1) * impact r').
  { apply Qmult_le_compat_r; lra. }
  lra.
Qed.

(** X24: findings that get worse never raise the score: when each
    finding is replaced by one of at least the same impact and at least
    the same severity weight, the impacts being non-negative, the new
    score is at most the old one. *)
Theorem compute_score_falls_as_findings_worsen (l l' : list CheckResult) :
  Forall2 (fun r r' => 0 <= impact r /\ impact r <= impact r' /\
                       (weights_get (severity r) 1 <= weights_get (severity r') 1)%Z)
          l l' ->
  compute_score l' <= compute_score l.
Proof.
  intros H. unfold compute_score. cbv zeta.
  apply py_round_mono, py_max_mono_r.
  assert (penalty_of l <= penalty_of l'); [|lra].
  unfold penalty_of. rewrite !penalty_fold.
  induction H as [|r r' l l' (H0 & Hi & Hw) _ IH]; simpl; [lra|].
  pose proof (penalty_term_grows r r' H0 Hi Hw). lra.
Qed.

Lemma compute_score_falls_as_findings_worsen_witness :
  let a := mkCheckResult "Missing Values" "minor" [[("count", PNat 3)]] (3 # 10) in
  let b := mkCheckResult "Missing Values" "major" [[("count", PNat 4)]] (4 # 10) in
  compute_score [b] <= compute_score [a].
Proof.
  intros a b. apply (compute_score_falls_as_findings_worsen [a] [b]).
  constructor; [|constructor].
  split; [vm_compute; discriminate|]. split; [vm_compute; discriminate|].
  vm_compute. discriminate.
Defined.

(** ** Which columns get an "Invalid Dates" finding *)

Lemma invalid_dates_name_column (a b : string) :
  ("Invalid Dates: " ++ a)%string = ("Invalid Dates: " ++ b)%string -> a = b.
Proof. simpl. intros E. injection E as E. exact E. Qed.

Lemma check_dates_origin (to_datetime : Series -> option (list (option Z)))
      (df : DataFrame) (r : CheckResult) :
  NoDup (df_columns df) ->
  In r (check_dates to_datetime df) ->
  name r = "Temporal Rule: ship_date ≥ order_date"%string \/
  exists col s, In col df /\ is_date_column col = true /\
                to_datetime col = Some s /\
                name r = ("Invalid Dates: " ++ s_name col)%string /\
                (0 < count_nat s)%nat.
Proof.
  intros Hnd Hr. unfold check_dates in Hr. cbv zeta in Hr.
  apply in_app_or in Hr. destruct Hr as [Hr|Hr].
  - right. apply in_flat_map in Hr. destruct Hr as [[c s] [Hcs Hr]].
    rewrite (parse_dates_entries to_datetime df Hnd) in Hcs.
    apply in_filter_map in Hcs. destruct Hcs as [col [Hcol P]].
    apply filter_In in Hcol. destruct Hcol as [Hin Hd].
    unfold parsed_entry in P. destruct (to_datetime col) as [s'|] eqn:T; [|discriminate].
    injection P as <- <-.
    unfold invalid_dates in Hr.
    destruct (0 <? count_nat s')%nat eqn:Z; [|destruct Hr].
    destruct Hr as [<-|[]]. apply Nat.ltb_lt in Z.
    exists col, s'. auto.
  - left. unfold temporal_rule in Hr.
    destruct (Dict.get "order_date" _); [|destruct Hr].
    destruct (Dict.get "ship_date" _); [|destruct Hr].
    destruct (0 <? _)%nat; [|destruct Hr].
    destruct Hr as [<-|[]]. reflexivity.
Qed.

(** X25: with distinct column names, every finding of the date check is
    either the temporal rule or an "Invalid Dates" finding that names a
    candidate date column of the dataset whose coercion returned a series
    with at least one invalid value.  A column that is no candidate, or
    whose coercion raises, never gets an "Invalid Dates" finding. *)
Theorem invalid_dates_only_for_coerced_candidates
        (to_datetime : Series -> option (list (option Z))) (df : DataFrame) :
  NoDup (df_columns df) ->
  (forall r, In r (check_dates to_datetime df) ->
     name r = "Temporal Rule: ship_date ≥ order_date"%string \/
     exists col s, In col df /\ is_date_column col = true /\
                   to_datetime col = Some s /\
                   name r = ("Invalid Dates: " ++ s_name col)%string /\
                   (0 < List.length (filter (fun v => negb (is_some v)) s))%nat) /\
  (forall col, In col df ->
     is_date_column col = false \/ to_datetime col = None ->
     ~ exists r, In r (check_dates to_datetime df) /\
                 name r = ("Invalid Dates: " ++ s_name col)%string).
Proof.
  intros Hnd. split.
  - intros r Hr.
    destruct (check_dates_origin to_datetime df r Hnd Hr)
      as [T | (col & s & Hin & Hd & Hp & Hn & Hc)]; [left; exact T|].
    right. exists col, s. unfold count_nat in Hc. rewrite count_true_map in Hc. auto.
  - intros col Hin Hskip [r [Hr Hn]].
    destruct (check_dates_origin to_datetime df r Hnd Hr)
      as [T | (col' & s & Hin' & Hd & Hp & Hn' & _)].
    + rewrite Hn in T. simpl in T. discriminate T.
    + rewrite Hn in Hn'. apply invalid_dates_name_column in Hn'.
      assert (E : col = col')
        by exact (NoDup_map_injective s_name df col col' Hnd Hin Hin' Hn').
      subst col'. destruct Hskip as [F|F]; congruence.
Qed.

Lemma invalid_dates_only_for_coerced_candidates_witness :
  NoDup (df_columns df_orders) /\
  ~ exists r, In r (check_dates sample_to_datetime df_orders) /\
              name r = ("Invalid Dates: " ++ "id")%string.
Proof.
  assert (H : NoDup (df_columns df_orders)).
  { vm_compute. repeat constructor; simpl; intros F;
      repeat destruct F as [F|F]; try discriminate F; exact F. }
  split; [exact H|].
  destruct (invalid_dates_only_for_coerced_candidates sample_to_datetime df_orders H)
    as [_ S].
  apply (S (int_column "id" [7; 8; 7]%Z)).
  - left. reflexivity.
  - left. reflexivity.
Defined.

(** ** The impact of a semantic finding *)

Lemma mean_bool_le_1 (m : list bool) : mean_bool m <= 1.
Proof.
  unfold mean_bool, Qnat, count_true.
  pose proof (filter_length (fun b : bool => b) m) as L.
  destruct m as [|b m].
  - vm_compute. discriminate.
  - apply Qle_shift_div_r.
    + change 0 with (inject_Z 0). rewrite <- Zlt_Qlt. simpl List.length. lia.
    + rewrite Qmult_1_l, <- Zle_Qle. lia.
Qed.

Lemma semantic_violation_shape (kind : string) (strict : string -> bool)
      (c : string) (sample : list string) (r : CheckResult) :
  In r (semantic_violation kind strict c sample) ->
  let bad := mean_bool (map (fun v => negb (strict v)) sample) in
  name r = ("Semantic Violations (" ++ kind ++ ") in " ++ c)%string /\
  severity r = "major"%string /\
  impact r == bad /\ 3 # 10 < bad /\ bad <= 1.
Proof.
  unfold semantic_violation. cbv zeta.
  destruct (Qltb _ _) eqn:B; [|intros []].
  intros [<-|[]]. apply Qltb_true in B.
  pose proof (mean_bool_le_1 (map (fun v => negb (strict v)) sample)) as U.
  cbn [name severity impact].
  split; [reflexivity|]. split; [reflexivity|].
  split; [|split; assumption].
  destruct (py_min_spec 1 (mean_bool (map (fun v => negb (strict v)) sample)))
    as [[? ->]|[? ->]]; lra.
Qed.

(** X26: the impact of a "Semantic Violations" finding is exactly the
    share of the column's non-missing values that fail the strict
    pattern: the cap min(1.0, bad) never applies.  That share is above
    0.3 and at most 1, the finding is major, and so its penalty in the
    score is more than 6 and at most 20 points. *)
Theorem semantic_finding_impact_is_the_failure_rate
        (is_string_dtype : Series -> bool)
        (repr_float : Q -> string) (repr_time : Z -> string)
        (re_letter_digit re_email re_uk_postcode : string -> bool)
        (df : DataFrame) (r : CheckResult) :
  In r (check_semantic_regex is_string_dtype repr_float repr_time
                             re_letter_digit re_email re_uk_postcode df) ->
  exists col kind strict,
    In col df /\ is_string_dtype col = true /\
    ((kind = "email"%string /\ strict = re_email) \/
     (kind = "UK postcode"%string /\ strict = re_uk_postcode)) /\
    name r = ("Semantic Violations (" ++ kind ++ ") in " ++ s_name col)%string /\
    severity r = "major"%string /\
    let sample := map (py_str repr_float repr_time)
                      (filter (fun v => negb (isna v)) (s_values col)) in
    let bad := mean_bool (map (fun v => negb (strict v)) sample) in
    impact r == bad /\ 3 # 10 < bad /\ bad <= 1 /\
    6 < penalty_term r /\ penalty_term r <= 20.
Proof.
  intros Hr. unfold check_semantic_regex in Hr.
  apply in_flat_map in Hr. destruct Hr as [col [Hin Hr]].
  unfold semantic_of_column in Hr.
  destruct (is_string_dtype col) eqn:S; [|destruct Hr].
  cbv zeta in Hr. destruct (_ =? 0)%nat; [destruct Hr|].
  assert (K : forall kind strict,
             In r (semantic_violation kind strict (s_name col)
                     (map (py_str repr_float repr_time)
                          (filter (fun v => negb (isna v)) (s_values col)))) ->
             name r = ("Semantic Violations (" ++ kind ++ ") in " ++ s_name col)%string /\
             severity r = "major"%string /\
             let sample := map (py_str repr_float repr_time)
                               (filter (fun v => negb (isna v)) (s_values col)) in
             let bad := mean_bool (map (fun v => negb (strict v)) sample) in
             impact r == bad /\ 3 # 10 < bad /\ bad <= 1 /\
             6 < penalty_term r /\ penalty_term r <= 20).
  { intros kind strict H.
    destruct (semantic_violation_shape _ _ _ _ _ H) as (N & V & I & Lo & Hi).
    split; [exact N|]. split; [exact V|]. cbv zeta.
    split; [exact I|]. split; [exact Lo|]. split; [exact Hi|].
    unfold penalty_term. rewrite V.
    change (inject_Z (weights_get "major" 1)) with 2. lra. }
  apply in_app_or in Hr. destruct Hr as [Hr|Hr].
  - destruct (Qltb _ _); [|destruct Hr].
    exists col, "email"%string, re_email.
    split; [exact Hin|]. split; [exact S|].
    split; [left; split; reflexivity|]. exact (K _ _ Hr).
  - destruct (Qltb _ _); [|destruct Hr].
    exists col, "UK postcode"%string, re_uk_postcode.
    split; [exact Hin|]. split; [exact S|].
    split; [right; split; reflexivity|]. exact (K _ _ Hr).
Qed.

Lemma semantic_finding_impact_is_the_failure_rate_witness :
  let r := mkCheckResult "Semantic Violations (email) in email" "major"
             [[("fail_rate", PFloat 1)]] 1 in
  In r (check_semantic_regex sample_is_string_dtype sample_repr_float sample_repr_time
                             sample_pattern sample_pattern sample_pattern df_contacts) /\
  6 < penalty_term r /\ penalty_term r <= 20.
Proof.
  intros r.
  assert (H : In r (check_semantic_regex sample_is_string_dtype sample_repr_float
                      sample_repr_time sample_pattern sample_pattern sample_pattern
                      df_contacts)).
  { vm_compute. left. reflexivity. }
  split; [exact H|].
  destruct (semantic_finding_impact_is_the_failure_rate _ _ _ _ _ _ _ _ H)
    as (col & kind & strict & _ & _ & _ & _ & _ & T).
  cbv zeta in T. tauto.
Defined.
